(** * scan-engine: media-to-frames pipeline and verdict aggregation

    A shallow embedding of [main.py], [handler.py], [utils/helpers.py],
    [utils/nsfw_utils.py] and [utils/video_utils.py].

    Conventions of the embedding:
    - Python exceptions are values of [exn]; a call that may raise returns
      a [result]; code that touches the disk or the clock threads a [World].
    - External collaborators (network, ffmpeg, OpenCV, the classifier) are
      oracles collected in records; every theorem quantifies over them.
    - Python floats are idealised as exact rationals ([Q]). *)

From Stdlib Require Import ZArith QArith Qround Qabs Lqa Ascii String.
From stdpp Require Import gmap strings list sorting.

(** ** Exceptions and results *)

Inductive exn : Type :=
| ValueError (msg : string)
| RuntimeError (msg : string)
| FileNotFoundError (msg : string)
| TimeoutError (msg : string)
| ZeroDivisionError (msg : string)
| IndexError (msg : string)
| FfmpegError (msg : string)
| TypeError (msg : string)
| OtherError (msg : string).

(** [str(e)] *)
Definition exn_str (e : exn) : string :=
  match e with
  | ValueError m | RuntimeError m | FileNotFoundError m | TimeoutError m
  | ZeroDivisionError m | IndexError m | FfmpegError m | TypeError m
  | OtherError m => m
  end.

Inductive result (A : Type) : Type :=
| Return (a : A)
| Raise (e : exn).
Arguments Return {A} a.
Arguments Raise {A} e.

(** ** [os.path] on POSIX paths *)

Definition starts_with_sep (s : string) : bool :=
  match s with
  | String c _ => bool_decide (c = "/"%char)
  | EmptyString => false
  end.

Fixpoint ends_with_sep (s : string) : bool :=
  match s with
  | EmptyString => false
  | String c EmptyString => bool_decide (c = "/"%char)
  | String _ s' => ends_with_sep s'
  end.

(** [os.path.join(a, b)]: an absolute [b] discards [a]. *)
Definition path_join (a b : string) : string :=
  if starts_with_sep b then b
  else if bool_decide (a = "") || ends_with_sep a then a +:+ b
  else a +:+ "/" +:+ b.

(** The directories [os.makedirs(p, exist_ok=True)] brings into existence:
    [p] and each prefix of [p] that stops in front of a separator. *)
Fixpoint dir_chain (acc s : string) : list string :=
  match s with
  | EmptyString => if bool_decide (acc = "") then [] else [acc]
  | String c s' =>
      if bool_decide (c = "/"%char)
      then (if bool_decide (acc = "") || ends_with_sep acc then [] else [acc])
             ++ dir_chain (acc +:+ "/") s'
      else dir_chain (acc +:+ String c "") s'
  end.

(** [os.path.basename(p)] *)
Fixpoint basename_go (s cur : string) : string :=
  match s with
  | EmptyString => cur
  | String c s' =>
      if bool_decide (c = "/"%char) then basename_go s' ""
      else basename_go s' (cur +:+ String c "")
  end.

Definition basename (p : string) : string := basename_go p "".

(** [os.path.splitext(p)[-1]] on a last path component: the suffix from
    the last dot, unless only dots precede it. *)
Fixpoint splitext_ext (s : string) (seen_nondot : bool) : string :=
  match s with
  | EmptyString => ""
  | String c s' =>
      if bool_decide (c = "."%char) then
        if seen_nondot
        then match splitext_ext s' true with
             | EmptyString => String c s'
             | e => e
             end
        else splitext_ext s' false
      else splitext_ext s' true
  end.

Definition extension (p : string) : string := splitext_ext (basename p) false.

(** [str.lower()] on ASCII. *)
Definition lower_char (c : ascii) : ascii :=
  let n := nat_of_ascii c in
  if (65 <=? n)%nat && (n <=? 90)%nat then ascii_of_nat (n + 32) else c.

Fixpoint lower (s : string) : string :=
  match s with
  | EmptyString => ""
  | String c s' => String (lower_char c) (lower s')
  end.

(** [p.split('/')] and the non-empty components [os.path.abspath] keeps. *)
Fixpoint split_sep (s cur : string) : list string :=
  match s with
  | EmptyString => [cur]
  | String c s' =>
      if bool_decide (c = "/"%char) then cur :: split_sep s' ""
      else split_sep s' (cur +:+ String c "")
  end.

Definition normalize (comps : list string) : list string :=
  foldl (λ acc c,
           if bool_decide (c = "") || bool_decide (c = ".") then acc
           else if bool_decide (c = "..") then removelast acc
           else acc ++ [c]) [] comps.

Definition abs_components (cwd p : string) : list string :=
  normalize (split_sep (if starts_with_sep p then p else path_join cwd p) "").

Fixpoint common_prefix_length (a b : list string) : nat :=
  match a, b with
  | x :: a', y :: b' => if bool_decide (x = y) then S (common_prefix_length a' b') else 0
  | _, _ => 0
  end.

Definition join_all (comps : list string) : string :=
  match comps with
  | [] => "."
  | c :: cs => foldl path_join c cs
  end.

(** [os.path.relpath(path, start)]; raises on an empty [path]. *)
Definition relpath (cwd path start : string) : result string :=
  if bool_decide (path = "") then Raise (ValueError "no path specified")
  else
    let start_list := abs_components cwd start in
    let path_list := abs_components cwd path in
    let i := common_prefix_length start_list path_list in
    Return (join_all (replicate (length start_list - i) ".." ++ drop i path_list)).

(** ** Numbers: Python floats as rationals *)

Definition Qltb (a b : Q) : bool := negb (Qle_bool b a).

(** [int(x)]: truncation toward zero. *)
Definition py_int (x : Q) : Z := if Qle_bool 0 x then Qfloor x else Qceiling x.

(** Nearest integer, ties to even. *)
Definition round_half_even (x : Q) : Z :=
  let f := Qfloor x in
  match (x - inject_Z f ?= 1 # 2)%Q with
  | Lt => f
  | Gt => (f + 1)%Z
  | Eq => if Z.even f then f else (f + 1)%Z
  end.

(** [round(x, ndigits)] *)
Definition py_round (x : Q) (ndigits : nat) : Q :=
  let scale := (10 ^ Z.of_nat ndigits)%Z in
  (inject_Z (round_half_even (x * inject_Z scale)) / inject_Z scale)%Q.

(** [f"{i:03d}"] *)
Definition digit_char (n : nat) : ascii := ascii_of_nat (48 + n `mod` 10).

Fixpoint decimal_go (fuel n : nat) (acc : string) : string :=
  match fuel with
  | O => acc
  | S fuel' =>
      let acc' := String (digit_char n) acc in
      if (n `div` 10 =? 0)%nat then acc' else decimal_go fuel' (n `div` 10) acc'
  end.

Definition decimal (n : nat) : string := decimal_go (S n) n "".

Fixpoint zeros (k : nat) : string :=
  match k with
  | O => ""
  | S k' => String "0" (zeros k')
  end.

Definition pad3 (n : nat) : string :=
  let s := decimal n in zeros (3 - String.length s) +:+ s.

(** [f"frame_{i:03d}.jpg"] *)
Definition frame_name (i : nat) : string := "frame_" +:+ pad3 i +:+ ".jpg".

(** ** The Deduplicator ([extract_video_frames], lines 95-122) *)

Module Dedup.

(** A candidate frame in a staging directory. [f_md5 = None] when
    [file_md5] raises on it; [f_movable = false] when [shutil.move]
    raises on it. *)
Record StagedFile : Type := {
  f_md5 : option string;
  f_movable : bool
}.

(** A staging directory: its entries in the order [os.listdir] happens
    to report them. Names are unique in a well-formed directory. *)
Definition Dir : Type := list (string * StagedFile).

Definition listdir (d : Dir) : list string := d.*1.

Fixpoint file_at (d : Dir) (fname : string) : option StagedFile :=
  match d with
  | [] => None
  | (n, f) :: d' => if bool_decide (n = fname) then Some f else file_at d' fname
  end.

(** [sorted(os.listdir(folder))] *)
Definition sorted_listdir (d : Dir) : list string :=
  merge_sort String.le (listdir d).

(** The two closure variables [seen] and [frame_paths]. *)
Record State : Type := {
  seen : gset string;
  frame_paths : list string
}.

Definition init : State := {| seen := ∅; frame_paths := [] |}.

(** What one call of [add_frames] leaves behind: the closure state and,
    as ghost data, the names whose loop body was entered. *)
Record Pass : Type := {
  p_state : State;
  p_visited : list string;
  p_added : Z
}.

Definition final_path (final_dir h : string) : string :=
  path_join final_dir (h +:+ ".jpg").

(** The [for fname in sorted(os.listdir(folder))] loop of [add_frames]. *)
Fixpoint add_frames_loop (final_dir : string) (d : Dir) (cap : Z)
    (names : list string) (count added : Z) (visited : list string)
    (st : State) : Pass :=
  match names with
  | [] => {| p_state := st; p_visited := visited; p_added := added |}
  | fname :: rest =>
      if negb (cap =? 0)%Z && (cap <=? count)%Z
      then {| p_state := st; p_visited := visited; p_added := added |}
      else
        let visited' := visited ++ [fname] in
        match file_at d fname ≫= f_md5 with
        | None =>
            (* file_md5 raised: logged, [count] untouched *)
            add_frames_loop final_dir d cap rest count added visited' st
        | Some h =>
            if bool_decide (h ∈ seen st)
            then add_frames_loop final_dir d cap rest (count + 1) added visited' st
            else
              let st1 := {| seen := {[h]} ∪ seen st;
                            frame_paths := frame_paths st |} in
              match file_at d fname with
              | Some {| f_movable := true |} =>
                  let st2 := {| seen := seen st1;
                                frame_paths := frame_paths st1
                                                 ++ [final_path final_dir h] |} in
                  add_frames_loop final_dir d cap rest (count + 1) (added + 1)
                    visited' st2
              | _ =>
                  (* shutil.move raised after [seen.add(h)] *)
                  add_frames_loop final_dir d cap rest count added visited' st1
              end
        end
  end.

Definition add_frames (final_dir : string) (d : Dir) (cap : Z) (st : State) : Pass :=
  add_frames_loop final_dir d cap (sorted_listdir d) 0 0 [] st.

(** [add_frames(scene_dir); add_frames(fps_dir, cap=max_fps_frames);
    add_frames(spike_dir)], with the default [cap=250]. *)
Record Run : Type := {
  r_scene : Pass;
  r_fps : Pass;
  r_spike : Pass
}.

Definition default_cap : Z := 250.

Definition run (final_dir : string) (scene fps spike : Dir) (max_fps_frames : Z) : Run :=
  let p1 := add_frames final_dir scene default_cap init in
  let p2 := add_frames final_dir fps max_fps_frames (p_state p1) in
  let p3 := add_frames final_dir spike default_cap (p_state p2) in
  {| r_scene := p1; r_fps := p2; r_spike := p3 |}.

Definition deduplicate (final_dir : string) (scene fps spike : Dir)
    (max_fps_frames : Z) : list string :=
  frame_paths (p_state (r_spike (run final_dir scene fps spike max_fps_frames))).

(** *** Vocabulary for stating what the Deduplicator computes *)








(** What the loop tries on the entries it visits: the hash of every
    entry that can be read, and whether the entry can be moved. *)
Definition attempts (d : Dir) (names : list string) : list (string * bool) :=
  omap (λ n, f ← file_at d n; h ← f_md5 f; Some (h, f_movable f)) names.





(** Invariant of the closure state under any fault pattern. *)
Definition claimed (fd : string) (st : State) (hs : list string) : Prop :=
  frame_paths st = final_path fd <$> hs ∧ NoDup hs ∧ ∀ h, h ∈ hs → h ∈ seen st.

End Dedup.

(** ** The disk, the clock and the external collaborators *)

(** The ReadinessMarker, [done.json]. Times are in milliseconds. *)
Record DoneData : Type := {
  total_frames : Z;
  d_output_dir : string;
  d_final_dir : string;
  time_elapsed : Z;
  timestamp : Z
}.

Record World : Type := {
  w_dirs : gset string;               (* directories that exist *)
  w_markers : gmap string DoneData;   (* [done.json] files that exist *)
  w_clock : Z                         (* [time.time()], in milliseconds *)
}.

(** A computation that reads and changes the world and may raise. *)
Definition M (A : Type) : Type := World → World * result A.

Definition ret {A} (a : A) : M A := λ w, (w, Return a).
Definition raise {A} (e : exn) : M A := λ w, (w, Raise e).
Definition bind {A B} (k : A → M B) (m : M A) : M B :=
  λ w, match m w with
       | (w', Return a) => k a w'
       | (w', Raise e) => (w', Raise e)
       end.

#[global] Instance M_ret : MRet M := @ret.
#[global] Instance M_bind : MBind M := @bind.

Definition lift {A} (r : result A) : M A := λ w, (w, r).

(** The world [ms] milliseconds later. *)
Definition advance (ms : Z) (w : World) : World :=
  {| w_dirs := w_dirs w; w_markers := w_markers w; w_clock := (w_clock w + ms)%Z |}.

(** [time.sleep(ms / 1000)] *)
Definition sleep (ms : Z) : M unit := λ w, (advance ms w, Return tt).

(** [os.makedirs(p, exist_ok=True)] *)
Definition makedirs (p : string) : M unit :=
  λ w, ({| w_dirs := list_to_set (dir_chain "" p) ∪ w_dirs w;
           w_markers := w_markers w; w_clock := w_clock w |}, Return tt).

(** [p] lies at or below directory [root]. *)
Definition under (root p : string) : bool :=
  bool_decide (p = root) || String.prefix (root +:+ "/") p.

(** A frame of a video, already reduced to its grayscale pixels. *)
Definition Frame : Type := list Z.

(** Scores of one image: class label to probability. *)
Definition ScoreDict : Type := gmap string Q.

(** What the outside world answers about one video file. *)
Record Video : Type := {
  v_opened : bool;                  (* [cap.isOpened()] *)
  v_fps : Q;                        (* [CAP_PROP_FPS] *)
  v_frame_count : Q;                (* [CAP_PROP_FRAME_COUNT] *)
  v_width : Z;
  v_height : Z;
  v_frames : list Frame;            (* what [cap.read()] decodes, in order *)
  v_scene : result Dedup.Dir;       (* the scene ffmpeg run and what it staged *)
  v_uniform : result Dedup.Dir;     (* the fps ffmpeg run and what it staged *)
  v_spike_frame : nat → Q → option Dedup.StagedFile;
                                    (* [extract_at_ts]; [None] on [ffmpeg.Error] *)
  v_runtime : Z                     (* milliseconds the three strategies take *)
}.

(** The collaborators of one request. The Downloader is taken by its
    interface, the path of the file it wrote or [None] on any failure:
    what it returns depends on the network. *)
Record Env : Type := {
  uuid4 : string;                       (* [str(uuid.uuid4())], the round id *)
  cwd : string;                         (* [os.getcwd()] *)
  (* utils.helpers.download_file(url, dest_folder, filename, max_bytes) *)
  download_file : string → string → option string → Z → option string;
  video_at : string → Video;            (* [cv2.VideoCapture(path)] *)
  on_disk : Z → string → bool;          (* is the file visible at this time *)
  poll_lag : Z → nat;                   (* ms that a turn of the loop of
                                           [wait_for_done], begun at this time,
                                           takes beside its sleep *)
  getsize : string → Z;                 (* [os.path.getsize], bytes *)
  imread : string → option (Z * Z);     (* [cv2.imread(p).shape[:2]] *)
  classify_batch : list string → result (list ScoreDict);
                                        (* model load, image open, inference *)
  rmtree_fails : string → bool          (* [shutil.rmtree] hits an OS error *)
}.

(** [os.path.exists(p)] for a frame or image file. *)
Definition path_exists (env : Env) (w : World) (p : string) : bool :=
  negb (bool_decide (p = "")) && on_disk env (w_clock w) p.

(** [shutil.rmtree(p, ignore_errors=True)] *)
Definition rmtree (env : Env) (p : string) : M unit :=
  λ w, if rmtree_fails env p then (w, Return tt)
       else ({| w_dirs := filter (λ d, under p d = false) (w_dirs w);
                w_markers := filter (λ kv, under p kv.1 = false) (w_markers w);
                w_clock := w_clock w |}, Return tt).

(** The computation removes no directory. *)
Definition keeps_dirs {A} (m : M A) : Prop := ∀ w, w_dirs w ⊆ w_dirs (m w).1.

(** ** The Spike Detector ([detect_luma_spike_timestamps]) *)

Module Spike.

(** [cv2.absdiff(gray, prev_gray).mean()] *)
Definition mean_absdiff (a b : Frame) : Q :=
  (inject_Z (foldr Z.add 0%Z (zip_with (λ x y, Z.abs (x - y)) a b))
   / inject_Z (Z.of_nat (length a)))%Q.

Record Loop : Type := {
  stream : list Frame;          (* frames the capture has not delivered yet *)
  frame_idx : Z;
  prev_gray : option Frame;
  last_spike_time : Q;
  timestamps : list Q
}.

Inductive Step : Type :=
| Continue (st : Loop)
| Break (ts : list Q)
| Throw (e : exn).

(** One iteration of [while cap.isOpened()]. *)
Definition body (fps diff_thresh suppression_window : Q) (step : Z) (st : Loop) : Step :=
  if (step =? 0)%Z
  then Throw (ZeroDivisionError "integer division or modulo by zero")
  else if negb (frame_idx st `mod` step =? 0)%Z
  then (* cap.grab() *)
    Continue {| stream := tail (stream st); frame_idx := (frame_idx st + 1)%Z;
                prev_gray := prev_gray st; last_spike_time := last_spike_time st;
                timestamps := timestamps st |}
  else
    match stream st with
    | [] => Break (timestamps st)         (* ret is False *)
    | gray :: rest =>
        let ts := (inject_Z (frame_idx st) / fps)%Q in
        let spike :=
          match prev_gray st with
          | Some prev =>
              Qltb diff_thresh (mean_absdiff gray prev)
              && Qle_bool suppression_window (ts - last_spike_time st)
          | None => false
          end in
        Continue {| stream := rest; frame_idx := (frame_idx st + 1)%Z;
                    prev_gray := Some gray;
                    last_spike_time := if spike then ts else last_spike_time st;
                    timestamps := if spike then timestamps st ++ [py_round ts 2]
                                  else timestamps st |}
    end.

(** The loop, cut off after [fuel] iterations ([None]). *)
Fixpoint iterate (fuel : nat) (fps diff_thresh suppression_window : Q) (step : Z)
    (st : Loop) : option (result (list Q)) :=
  match fuel with
  | O => None
  | S fuel' =>
      match body fps diff_thresh suppression_window step st with
      | Continue st' => iterate fuel' fps diff_thresh suppression_window step st'
      | Break ts => Some (Return ts)
      | Throw e => Some (Raise e)
      end
  end.

(** Iterations that always suffice: see [SpikeFacts.iterate_enough]. *)
Definition enough (v : Video) (step : Z) : nat :=
  length (v_frames v) + Z.abs_nat step + 1.

Definition detect_luma_spike_timestamps (v : Video)
    (diff_thresh sample_interval suppression_window : Q) : option (result (list Q)) :=
  let fps := v_fps v in
  if Qeq_bool fps 0 then Some (Return [])
  else
    let step := py_int (fps * sample_interval) in
    if negb (v_opened v) then Some (Return [])
    else
      iterate (enough v step) fps diff_thresh suppression_window step
        {| stream := v_frames v; frame_idx := 0; prev_gray := None;
           last_spike_time := (- suppression_window)%Q; timestamps := [] |}.

Definition default_diff_thresh : Q := 15.
Definition default_sample_interval : Q := 1 # 10.
Definition default_suppression_window : Q := 1.

(** *** Vocabulary for stating what the Spike Detector keeps true *)

(** The recorded timestamps ascend, none lies above the rounded time of
    the last spike, and each one used up a frame of the [total]. *)
Definition ascending (total : nat) (st : Loop) : Prop :=
  StronglySorted Qle (timestamps st)
  ∧ Forall (λ t, (t <= py_round (last_spike_time st) 2)%Q) (timestamps st)
  ∧ (length (timestamps st) + length (stream st) ≤ total)%nat.

End Spike.

(** Exceptions inside pure code. *)
#[global] Instance result_ret : MRet result := @Return.
#[global] Instance result_bind : MBind result :=
  λ A B k r, match r with Return a => k a | Raise e => Raise e end.

(** A comprehension whose body may raise: the first exception wins. *)
Fixpoint traverse {A B} (f : A → result B) (l : list A) : result (list B) :=
  match l with
  | [] => Return []
  | x :: l' => y ← f x; ys ← traverse f l'; Return (y :: ys)
  end.

(** The current time and a look at which of [paths] are not on disk yet. *)
Definition now : M Z := λ w, (w, Return (w_clock w)).

Definition missing_frames (env : Env) (paths : list string) (w : World) : list string :=
  filter (λ p, path_exists env w p = false) paths.

Definition observe_missing (env : Env) (paths : list string) : M (list string) :=
  λ w, (w, Return (missing_frames env paths w)).

(** ** Frame extraction ([extract_video_frames]) *)

Module Extract.

(** [l[:n]] *)
Definition py_slice_to {A} (n : Z) (l : list A) : list A :=
  if (0 <=? n)%Z then take (Z.to_nat n) l
  else take (length l - Z.to_nat (- n)) l.

(** [run_spike_frames]: one [extract_at_ts] per capped timestamp; a failed
    one is logged and leaves no file. The detector always returns or
    raises ([SpikeFacts.detect_terminates]); the [None] case is void. *)
Definition run_spike_frames (v : Video) (max_spike_frames : Z) : result Dedup.Dir :=
  match Spike.detect_luma_spike_timestamps v Spike.default_diff_thresh
          Spike.default_sample_interval Spike.default_suppression_window with
  | None => Return []
  | Some (Raise e) => Raise e
  | Some (Return spike_timestamps) =>
      Return (omap (λ it, (λ f, (frame_name it.1, f)) <$> v_spike_frame v it.1 it.2)
                (imap pair (py_slice_to max_spike_frames spike_timestamps)))
  end.

(** The three futures, joined in submission order: [f.result()] re-raises
    the first failure among scene, fps, spike. *)
Definition run_strategies (v : Video) (max_spike_frames : Z)
  : result (Dedup.Dir * Dedup.Dir * Dedup.Dir) :=
  scene ← v_scene v;
  uniform ← v_uniform v;
  spike ← run_spike_frames v max_spike_frames;
  Return (scene, uniform, spike).

(** Lines 133-137: [for i in range(10): time.sleep(0.25); ...]. *)
Fixpoint flush_wait (env : Env) (n : nat) (paths missing : list string) : M (list string) :=
  match n with
  | O => mret missing
  | S n' =>
      sleep 250;;
      missing' ← observe_missing env paths;
      match missing' with
      | [] => mret []
      | _ => flush_wait env n' paths missing'
      end
  end.

(** Lines 129-143: the producer side of the Readiness Barrier. *)
Definition confirm_frames (env : Env) (paths : list string) : M unit :=
  missing ← observe_missing env paths;
  missing ← match missing with
            | [] => mret []
            | _ => flush_wait env 10 paths missing
            end;
  match missing with
  | [] => mret tt
  | _ => raise (FileNotFoundError "Some final frames were not written to disk.")
  end.

(** Lines 145-156: write [done.json]. *)
Definition write_done (output_dir final_dir : string) (frame_paths : list string)
    (elapsed : Z) : M unit :=
  λ w, ({| w_dirs := w_dirs w;
           w_markers :=
             <[path_join output_dir "done.json" :=
                 {| total_frames := Z.of_nat (length frame_paths);
                    d_output_dir := output_dir;
                    d_final_dir := final_dir;
                    time_elapsed := elapsed;
                    timestamp := w_clock w |}]> (w_markers w);
           w_clock := w_clock w |}, Return tt).

Definition default_max_fps_frames : Z := 60.
Definition default_max_spike_frames : Z := 30.

(** Lines 17-20: the output directory and its four subdirectories. *)
Definition make_staging (output_dir : string) : M unit :=
  makedirs output_dir;;
  makedirs (path_join output_dir "scene");;
  makedirs (path_join output_dir "fps");;
  makedirs (path_join output_dir "spike");;
  makedirs (path_join output_dir "final").

(** The sampling rate and the scene threshold only reach ffmpeg, whose
    runs are the oracles [v_scene] and [v_uniform]. *)
Definition extract_video_frames (env : Env) (video_path output_dir : string)
    (max_fps_frames max_spike_frames : Z) : M (list string) :=
  start_time ← now;
  make_staging output_dir;;
  let final_dir := path_join output_dir "final" in
  let v := video_at env video_path in
  sleep (v_runtime v);;
  staged ← lift (run_strategies v max_spike_frames);
  let frame_paths :=
    Dedup.deduplicate final_dir staged.1.1 staged.1.2 staged.2 max_fps_frames in
  t ← now;
  let elapsed := (t - start_time)%Z in
  confirm_frames env frame_paths;;
  write_done output_dir final_dir frame_paths elapsed;;
  mret frame_paths.

(** The exception of line 141. *)
Definition not_found : exn :=
  FileNotFoundError "Some final frames were not written to disk.".

(** The world in which deduplication ends and the barrier begins. *)
Definition staged_world (env : Env) (video_path output_dir : string) (w : World) : World :=
  advance (v_runtime (video_at env video_path)) (make_staging output_dir w).1.

(** [utils.helpers.wait_for_done]: the consumer side of the barrier.
    The wall clock moves on between two sleeps: a turn begun at [t] takes
    its second of sleep and [lag t] more. A turn takes a second at least,
    so the timeout is over before 61 turns are. *)
Fixpoint wait_loop (fuel : nat) (lag : Z → nat) (done_path : string) (timeout start : Z)
  : M DoneData :=
  λ w, match w_markers w !! done_path with
       | Some meta => (w, Return meta)
       | None =>
           if (timeout <? w_clock w - start)%Z
           then (w, Raise (TimeoutError ("Timed out waiting for " +:+ done_path)))
           else match fuel with
                | O => (w, Raise (TimeoutError ("Timed out waiting for " +:+ done_path)))
                | S fuel' =>
                    (sleep (1000 + Z.of_nat (lag (w_clock w)));;
                     wait_loop fuel' lag done_path timeout start) w
                end
       end.

Definition wait_for_done (lag : Z → nat) (done_path : string) : M DoneData :=
  start ← now;
  wait_loop 61 lag done_path 60000 start.

(** *** Vocabulary for stating how long the wait lasts *)

(** The clock after [k] turns of the loop, the first begun at [t]. *)
Fixpoint ticks (lag : Z → nat) (k : nat) (t : Z) : Z :=
  match k with
  | O => t
  | S k' => ticks lag k' (t + (1000 + Z.of_nat (lag t)))
  end.

End Extract.

(** ** The Downloader ([utils.helpers.download_file]) *)

Module Download.

Definition ALLOWED_VIDEO_EXTENSIONS : list string := [".mp4"; ".mov"; ".avi"; ".mkv"; ".webm"].
Definition ALLOWED_IMAGE_EXTENSIONS : list string := [".jpg"; ".jpeg"; ".png"; ".bmp"; ".webp"].
Definition MAX_FILE_SIZE : Z := 100 * 1024 * 1024.

(** What the network and the libraries answer during one download. *)
Record Net : Type := {
  url_path : string → result string;     (* [urlparse(url).path] *)
  uuid_name : string;                    (* [str(uuid.uuid4())] *)
  http_get : string → option (list nat); (* the lengths of the chunks of the body;
                                            [None] when [requests] raises *)
  can_open : string → bool               (* [open(path, 'wb')] succeeds *)
}.

(** Lines 37-44: the loop over [r.iter_content]; [false] is the
    [ValueError] of line 43. *)
Fixpoint receive (chunks : list nat) (total_downloaded max_bytes : Z) : bool :=
  match chunks with
  | [] => true
  | chunk :: rest =>
      if (chunk =? 0)%nat then receive rest total_downloaded max_bytes
      else
        let total_downloaded := (total_downloaded + Z.of_nat chunk)%Z in
        if (max_bytes <? total_downloaded)%Z then false
        else receive rest total_downloaded max_bytes
  end.

(** Lines 22-31: where the file goes. *)
Definition chosen_extension (parsed_path : string) : string :=
  let ext := lower (extension parsed_path) in
  if bool_decide (ext ∈ ALLOWED_VIDEO_EXTENSIONS ++ ALLOWED_IMAGE_EXTENSIONS)
  then ext else ".bin".

Definition local_filename (net : Net) (filename : option string) (ext : string) : string :=
  match filename with
  | Some name => if bool_decide (name = "") then uuid_name net +:+ ext else name +:+ ext
  | None => uuid_name net +:+ ext
  end.

(** Every exception inside the [try] ends in [return None]. *)
Definition download_file (net : Net) (url dest_folder : string) (filename : option string)
    (max_bytes : Z) : option string :=
  if negb (String.prefix "http://" url || String.prefix "https://" url) then None
  else
    match url_path net url with
    | Raise _ => None
    | Return parsed_path =>
        let ext := chosen_extension parsed_path in
        let path := path_join dest_folder (local_filename net filename ext) in
        match http_get net url with
        | None => None
        | Some chunks =>
            if negb (can_open net path) then None
            else if receive chunks 0 max_bytes then Some path
            else None
        end
    end.

(** The size of a body. *)
Definition body_size (chunks : list nat) : Z := Z.of_nat (foldr Nat.add 0%nat chunks).

(** An extension: a dot followed by characters other than dot and slash. *)
Fixpoint plain (s : string) : bool :=
  match s with
  | EmptyString => true
  | String c s' =>
      negb (bool_decide (c = "."%char)) && negb (bool_decide (c = "/"%char)) && plain s'
  end.

Definition dotted (ext : string) : bool :=
  match ext with
  | String c body => bool_decide (c = "."%char) && plain body
  | EmptyString => false
  end.

(** Where a download that succeeds leaves the file. *)
Definition saved_path (net : Net) (dest_folder : string) (filename : option string)
    (parsed_path : string) : string :=
  path_join dest_folder (local_filename net filename (chosen_extension parsed_path)).

End Download.

(** The collaborators [env] with this downloader in place. *)
Definition with_downloader (net : Download.Net) (env : Env) : Env :=
  {| uuid4 := uuid4 env; cwd := cwd env;
     download_file := Download.download_file net;
     video_at := video_at env; on_disk := on_disk env; poll_lag := poll_lag env;
     getsize := getsize env;
     imread := imread env; classify_batch := classify_batch env;
     rmtree_fails := rmtree_fails env |}.

(** ** The Scan Dispatcher ([scan_images_for_nsfw], [scan_frames]) *)

Module Scan.

Definition BASE_DIR : string := "/tmp/data".

(** A FrameResult; the last three keys exist for images only. *)
Record FrameResult : Type := {
  filename : string;
  relative_path : string;
  is_nsfw : bool;
  nsfw_score : Q;
  full_probs : ScoreDict;
  width : option Z;
  height : option Z;
  size_mb : option Q;
  error : option string
}.

(** The classifier's tuple [(path, is_nsfw, nsfw_score, score_dict)]. *)
Record Scored : Type := {
  s_path : string;
  s_is_nsfw : bool;
  s_nsfw_score : Q;
  s_score_dict : ScoreDict
}.

Definition nsfw_threshold : Q := 1 # 2.
Definition batch_size : nat := 32.

(** Lines 35-39 of [nsfw_utils.py], for row [j] of a batch. *)
Definition score_row (probs : list ScoreDict) (j : nat) (path : string) : result Scored :=
  match probs !! j with
  | None => Raise (IndexError "index out of range")
  | Some score_dict =>
      let nsfw_score := default 0%Q (score_dict !! "nsfw") in
      Return {| s_path := path;
                s_is_nsfw := Qltb nsfw_threshold nsfw_score;
                s_nsfw_score := nsfw_score;
                s_score_dict := score_dict |}
  end.

(** [for i in range(0, len(image_paths), batch_size)]; [fuel] bounds the
    number of batches. *)
Fixpoint scan_batches (fuel : nat) (env : Env) (paths : list string) : result (list Scored) :=
  match fuel, paths with
  | O, _ | _, [] => Return []
  | S fuel', _ =>
      let batch_paths := take batch_size paths in
      probs ← classify_batch env batch_paths;
      scored ← traverse (λ jp, score_row probs jp.1 jp.2) (imap pair batch_paths);
      rest ← scan_batches fuel' env (drop batch_size paths);
      Return (scored ++ rest)
  end.

Definition scan_images_for_nsfw (env : Env) (image_paths : list string) : result (list Scored) :=
  match image_paths with
  | [] => Return []
  | _ => scan_batches (length image_paths) env image_paths
  end.

(** [repr] of a list of plain strings. *)
Definition py_repr (l : list string) : string :=
  "[" +:+ foldr (λ s acc, "'" +:+ s +:+ "'"
                          +:+ (if bool_decide (acc = "") then "" else ", ") +:+ acc) "" l
      +:+ "]".

(** Lines 128-135: [for attempt in range(5): ... else: raise]. *)
Fixpoint await_frames (env : Env) (attempts : nat) (paths last_missing : list string) : M unit :=
  match attempts with
  | O => raise (RuntimeError ("[ERROR] Final frames missing: " +:+ py_repr last_missing))
  | S attempts' =>
      missing ← observe_missing env paths;
      match missing with
      | [] => mret tt
      | _ => sleep 500;; await_frames env attempts' paths missing
      end
  end.

(** Lines 144-172: one FrameResult from one classifier tuple. *)
Definition shape_result (env : Env) (media_type frame_path : string) (s : Scored)
  : result FrameResult :=
  if bool_decide (media_type = "images") then
    match imread env frame_path with
    | None => Raise (ValueError ("Could not read image: " +:+ frame_path))
    | Some (h, w) =>
        let size := (inject_Z (getsize env frame_path) / inject_Z (1024 * 1024))%Q in
        rel ← relpath (cwd env) frame_path BASE_DIR;
        Return {| filename := basename frame_path; relative_path := rel;
                  is_nsfw := s_is_nsfw s; nsfw_score := s_nsfw_score s;
                  full_probs := s_score_dict s;
                  width := Some w; height := Some h;
                  size_mb := Some (py_round size 2); error := None |}
    end
  else
    rel ← relpath (cwd env) frame_path BASE_DIR;
    Return {| filename := basename frame_path; relative_path := rel;
              is_nsfw := s_is_nsfw s; nsfw_score := s_nsfw_score s;
              full_probs := s_score_dict s;
              width := None; height := None; size_mb := None; error := None |}.

(** Lines 138-174: the body of the [try]. *)
Definition classify_and_shape (env : Env) (media_type : string) (frame_paths : list string)
  : result (list FrameResult) :=
  scan_results ← scan_images_for_nsfw env frame_paths;
  traverse (λ ps, shape_result env media_type ps.1 ps.2) (zip frame_paths scan_results).

(** Lines 179-186: the error-tagged result of one path. *)
Definition degraded_result (env : Env) (e : exn) (p : string) : result FrameResult :=
  rel ← relpath (cwd env) p "/data";
  Return {| filename := basename p; relative_path := rel;
            is_nsfw := false; nsfw_score := 0; full_probs := ∅;
            width := None; height := None; size_mb := None;
            error := Some (exn_str e) |}.

Definition scan_frames (env : Env) (media_type : string) (frame_paths : list string)
  : M (list FrameResult) :=
  match frame_paths with
  | [] => mret []
  | _ =>
      await_frames env 5 frame_paths [];;
      match classify_and_shape env media_type frame_paths with
      | Return results => mret results
      | Raise e => lift (traverse (degraded_result env e) frame_paths)
      end
  end.

(** *** Vocabulary for stating what the Scan Dispatcher returns *)

(** The error-tagged FrameResult of path [p]. *)
Definition error_tagged (e : exn) (p : string) (r : FrameResult) : Prop :=
  filename r = basename p ∧ is_nsfw r = false ∧ nsfw_score r = 0%Q
  ∧ full_probs r = ∅ ∧ error r = Some (exn_str e).

(** The flag of a FrameResult is set exactly when its score exceeds the
    threshold. *)
Definition flag_matches_score (r : FrameResult) : Prop :=
  is_nsfw r = Qltb nsfw_threshold (nsfw_score r).

(** The classifier's tuple for a path whose scores are [d]. *)
Definition scored_as (d : ScoreDict) (p : string) : Scored :=
  {| s_path := p;
     s_is_nsfw := Qltb nsfw_threshold (default 0%Q (d !! "nsfw"));
     s_nsfw_score := default 0%Q (d !! "nsfw");
     s_score_dict := d |}.

End Scan.

(** ** Preprocessing, aggregation and the entrypoint ([main.py], [handler.py]) *)

Module Pipeline.

Definition BASE_DIR : string := Scan.BASE_DIR.
Definition ALLOWED_VIDEO_EXTENSIONS : list string := [".mp4"; ".mov"; ".avi"; ".mkv"; ".webm"].
Definition ALLOWED_IMAGE_EXTENSIONS : list string := [".jpg"; ".jpeg"; ".png"; ".bmp"; ".webp"].
Definition MAX_VIDEO_SIZE_MB : Z := 100 * 1024 * 1024.
Definition MAX_IMAGE_SIZE_MB : Z := 10.
Definition MAX_VIDEO_DURATION : Q := 5 * 60.

Record Job : Type := { job_id : string; url : string }.

Record Request : Type := { type : string; jobs : list Job }.

(** A decoded JSON value, as the handler receives it. The items of an
    object are its key-value pairs; a key occurs once among them. *)
#[local] Unset Elimination Schemes.
Inductive Json : Type :=
| JNull
| JBool (b : bool)
| JInt (n : Z)
| JFloat (x : Q)
| JStr (s : string)
| JList (l : list Json)
| JDict (items : list (string * Json)).
#[local] Set Elimination Schemes.

Definition type_name (j : Json) : string :=
  match j with
  | JNull => "NoneType"
  | JBool _ => "bool"
  | JInt _ => "int"
  | JFloat _ => "float"
  | JStr _ => "str"
  | JList _ => "list"
  | JDict _ => "dict"
  end.

(** [d[key]] on the items of a dictionary. *)
Fixpoint dict_get (items : list (string * Json)) (key : string) : option Json :=
  match items with
  | [] => None
  | (k, v) :: items' => if bool_decide (k = key) then Some v else dict_get items' key
  end.

(** [key in s] for a string [s]: [key] occurs somewhere in [s]. *)
Fixpoint occurs_in (key s : string) : bool :=
  String.prefix key s
  || match s with
     | EmptyString => false
     | String _ s' => occurs_in key s'
     end.

(** [j == s] for a string [s]. *)
Definition py_eq_str (j : Json) (s : string) : bool :=
  match j with
  | JStr t => bool_decide (t = s)
  | _ => false
  end.

(** [key in j]: a key of a dictionary, a part of a string, an element of
    a list; anything else is not iterable. *)
Definition py_in (key : string) (j : Json) : result bool :=
  match j with
  | JDict items => Return (match dict_get items key with Some _ => true | None => false end)
  | JStr s => Return (occurs_in key s)
  | JList l => Return (existsb (λ x, py_eq_str x key) l)
  | _ => Raise (TypeError ("argument of type '" +:+ type_name j +:+ "' is not iterable"))
  end.

(** [j in {"videos", "images"}]: the set hashes [j] first. *)
Definition in_media_types (j : Json) : result bool :=
  match j with
  | JList _ | JDict _ => Raise (TypeError ("unhashable type: '" +:+ type_name j +:+ "'"))
  | _ => Return (py_eq_str j "videos" || py_eq_str j "images")
  end.

(** [all("job_id" in job and "url" in job for job in jobs)] *)
Fixpoint all_have_keys (jobs : list Json) : result bool :=
  match jobs with
  | [] => Return true
  | job :: jobs' =>
      has_id ← py_in "job_id" job;
      ok ← (if has_id : bool then py_in "url" job else Return false);
      if ok : bool then all_have_keys jobs' else Return false
  end.

(** [utils.helpers.validate_input], lines 51-66. *)
Definition validate_input (req : Json) : result unit :=
  match req with
  | JDict items =>
      match dict_get items "type", dict_get items "jobs" with
      | Some ty, Some jobs =>
          known ← in_media_types ty;
          if negb known
          then Raise (ValueError "Invalid type: must be 'videos' or 'images'")
          else
            match jobs with
            | JList js =>
                let n := length js in
                if negb ((1 <=? n)%nat && (n <=? 40)%nat)
                then Raise (ValueError "'jobs' must be a list of 1 to 40 jobs")
                else if py_eq_str ty "videos" && (10 <? n)%nat
                then Raise (ValueError "Too many video jobs: max 10 allowed")
                else if py_eq_str ty "images" && (40 <? n)%nat
                then Raise (ValueError "Too many image jobs: max 40 allowed")
                else
                  ok ← all_have_keys js;
                  if ok : bool then Return tt
                  else Raise (ValueError "Each job must contain 'job_id' and 'url' keys")
            | _ => Raise (ValueError "'jobs' must be a list of 1 to 40 jobs")
            end
      | _, _ => Raise (ValueError "Missing 'type' or 'jobs' keys")
      end
  | _ => Raise (ValueError "Input must be a dictionary with 'type' and 'jobs'")
  end.

Arguments validate_input : simpl never.

(** The event a [Request] stands for: a dictionary whose jobs are
    dictionaries with a string under each of [job_id] and [url]. The
    stages below are embedded for these events. *)
Definition job_event (job : Job) : Json :=
  JDict [("job_id", JStr (job_id job)); ("url", JStr (url job))].

Definition event_of (req : Request) : Json :=
  JDict [("type", JStr (type req)); ("jobs", JList (job_event <$> jobs req))].

Record VideoMeta : Type := {
  m_width : Z;
  m_height : Z;
  m_duration : Q;
  m_fps : Q;
  m_size_mb : Q;
  m_original_filename : string
}.

(** A preprocessed job. [metadata = None] is the empty dictionary. *)
Inductive Descriptor : Type :=
| ImageJob (id image_path : string)
| VideoJob (id : string) (frames_paths : list string) (metadata : option VideoMeta).

Definition descriptor_id (d : Descriptor) : string :=
  match d with ImageJob id _ | VideoJob id _ _ => id end.

(** A [for] loop over [l] that updates [s] and may raise. *)
Fixpoint for_each {A S} (f : A → S → M S) (l : list A) (s : S) : M S :=
  match l with
  | [] => mret s
  | x :: l' => s' ← f x s; for_each f l' s'
  end.

Definition allowed (exts : list string) (path : string) : bool :=
  bool_decide (lower (extension path) ∈ exts).

(** Lines 45-59: one iteration for an image job. *)
Definition preprocess_image (env : Env) (round_id : string) (job : Job)
    (preprocessed_jobs : list Descriptor) : M (list Descriptor) :=
  let work_dir := path_join (path_join BASE_DIR round_id) "images" in
  makedirs work_dir;;
  match download_file env (url job) work_dir (Some (job_id job)) MAX_IMAGE_SIZE_MB with
  | None => mret preprocessed_jobs
  | Some path =>
      if bool_decide (path = "") || negb (allowed ALLOWED_IMAGE_EXTENSIONS path)
      then mret preprocessed_jobs
      else mret (preprocessed_jobs ++ [ImageJob (job_id job) path])
  end.

(** [preprocessed_jobs[-1]["frames_paths"] = frames] and the same for
    ["metadata"]. *)
Definition fill_last (frames : list string) (meta : VideoMeta) (l : list Descriptor)
  : list Descriptor :=
  alter (λ d, VideoJob (descriptor_id d) frames (Some meta)) (length l - 1)%nat l.

(** Lines 61-111: one iteration for a video job. *)
Definition preprocess_video (env : Env) (round_id : string) (job : Job)
    (preprocessed_jobs : list Descriptor) : M (list Descriptor) :=
  let work_dir :=
    path_join (path_join (path_join BASE_DIR round_id) "videos") (job_id job) in
  makedirs work_dir;;
  match download_file env (url job) work_dir None MAX_VIDEO_SIZE_MB with
  | None => mret preprocessed_jobs
  | Some video_path =>
      if bool_decide (video_path = "") || negb (allowed ALLOWED_VIDEO_EXTENSIONS video_path)
      then mret preprocessed_jobs
      else
        let preprocessed_jobs := preprocessed_jobs ++ [VideoJob (job_id job) [] None] in
        let cap := video_at env video_path in
        if negb (v_opened cap) then mret preprocessed_jobs
        else
          let fps := v_fps cap in
          let frame_count := v_frame_count cap in
          if Qle_bool fps 0 || Qle_bool frame_count 0 then mret preprocessed_jobs
          else
            let duration := (frame_count / fps)%Q in
            if Qltb MAX_VIDEO_DURATION duration then mret preprocessed_jobs
            else
              frames ← Extract.extract_video_frames env video_path work_dir
                         Extract.default_max_fps_frames Extract.default_max_spike_frames;
              done_metadata ← Extract.wait_for_done (poll_lag env)
                                (path_join work_dir "done.json");
              let size := (inject_Z (getsize env video_path) / inject_Z (1024 * 1024))%Q in
              let video_metadata :=
                {| m_width := v_width cap; m_height := v_height cap;
                   m_duration := py_round duration 2; m_fps := py_round fps 2;
                   m_size_mb := py_round size 2;
                   m_original_filename := basename video_path |} in
              mret (fill_last frames video_metadata preprocessed_jobs)
  end.

(** The [except Exception: ... raise] of the source hands every exception
    on unchanged. *)
Definition preprocess_media (env : Env) (media_type : string) (jobs : list Job)
    (round_id : string) : M (list Descriptor) :=
  lift (validate_input (event_of {| type := media_type; jobs := jobs |}));;
  if bool_decide (media_type = "images")
  then for_each (preprocess_image env round_id) jobs []
  else if bool_decide (media_type = "videos")
  then for_each (preprocess_video env round_id) jobs []
  else mret [].

(** An image Verdict: the FrameResult and the two added keys. *)
Record ImageVerdict : Type := {
  i_result : Scan.FrameResult;
  i_frame_count : Z;
  i_engine_version : string
}.

Record VideoVerdict : Type := {
  filename : string;
  is_nsfw : bool;
  nsfw_score_max : Q;
  nsfw_score_avg : Q;
  full_probs : ScoreDict;
  frame_count : Z;
  engine_version : string;
  width : option Z;
  height : option Z;
  duration : option Q;
  fps : option Q;
  size_mb : option Q;
  error : option string
}.

Definition engine_tag : string := "scan-engine-v1".

Definition image_verdict (r : Scan.FrameResult) : ImageVerdict :=
  {| i_result := r; i_frame_count := 1; i_engine_version := engine_tag |}.

(** [job["image_path"]] *)
Definition image_path_of (d : Descriptor) : result string :=
  match d with
  | ImageJob _ p => Return p
  | VideoJob _ _ _ => Raise (OtherError "'image_path'")
  end.

(** [max(frame_results, key=lambda x: x["nsfw_score"])]: a later frame
    replaces the best one only when its score is strictly greater. *)
Fixpoint most_nsfw_from (best : Scan.FrameResult) (l : list Scan.FrameResult)
  : Scan.FrameResult :=
  match l with
  | [] => best
  | f :: l' =>
      most_nsfw_from (if Qltb (Scan.nsfw_score best) (Scan.nsfw_score f) then f else best) l'
  end.

Definition score_sum (l : list Scan.FrameResult) : Q :=
  foldl (λ acc f, (acc + Scan.nsfw_score f)%Q) 0%Q l.

(** Lines 240-257, for the non-empty [frame_results = first :: rest]. *)
Definition aggregate (id : string) (meta : option VideoMeta)
    (first : Scan.FrameResult) (rest : list Scan.FrameResult) : VideoVerdict :=
  let frame_results := first :: rest in
  let most_nsfw := most_nsfw_from first rest in
  let avg_score := (score_sum frame_results / inject_Z (Z.of_nat (length frame_results)))%Q in
  {| filename := default id (m_original_filename <$> meta);
     is_nsfw := existsb Scan.is_nsfw frame_results;
     nsfw_score_max := Scan.nsfw_score most_nsfw;
     nsfw_score_avg := py_round avg_score 4;
     full_probs := Scan.full_probs most_nsfw;
     frame_count := Z.of_nat (length frame_results);
     engine_version := engine_tag;
     width := m_width <$> meta;
     height := m_height <$> meta;
     duration := m_duration <$> meta;
     fps := m_fps <$> meta;
     size_mb := m_size_mb <$> meta;
     error := None |}.

(** Lines 224-259: one iteration of the loop over preprocessed video jobs. *)
Definition scan_video_job (env : Env) (job : Descriptor) (video_results : list VideoVerdict)
  : M (list VideoVerdict) :=
  let id := descriptor_id job in
  let meta := match job with VideoJob _ _ m => m | ImageJob _ _ => None end in
  let frames := match job with VideoJob _ fs _ => fs | ImageJob _ _ => [] end in
  match frames with
  | [] => mret video_results
  | _ =>
      frame_results ← Scan.scan_frames env "videos" frames;
      match frame_results with
      | [] => mret video_results
      | first :: rest => mret (video_results ++ [aggregate id meta first rest])
      end
  end.

(** Lines 207-219: the image branch's [scan_results]. *)
Definition scan_images (env : Env) (preprocessed_jobs : list Descriptor)
  : M (list ImageVerdict) :=
  frame_paths ← lift (traverse image_path_of preprocessed_jobs);
  scan_results ← Scan.scan_frames env "images" frame_paths;
  mret (image_verdict <$> scan_results).

(** What [analyze_media] hands back: [None], or [{"results": [...]}]. *)
Inductive Returned : Type :=
| PyNone
| ResultsDict (results : list VideoVerdict).

(** Lines 205-265: the [if]/[elif]. [Some r] is a [return r] taken inside
    it; [None] falls through to the statements after it. *)
Definition dispatch (env : Env) (media_type : string) (preprocessed_jobs : list Descriptor)
  : M (option Returned) :=
  if bool_decide (media_type = "images") then
    scan_results ← scan_images env preprocessed_jobs;
    mret None
  else if bool_decide (media_type = "videos") then
    video_results ← for_each (scan_video_job env) preprocessed_jobs [];
    mret (Some (ResultsDict video_results))
  else mret None.

Definition analyze_media (env : Env) (request : Request) : M Returned :=
  let round_id := uuid4 env in
  lift (validate_input (event_of request));;
  let media_type := type request in
  preprocessed_jobs ← preprocess_media env media_type (jobs request) round_id;
  returned ← dispatch env media_type preprocessed_jobs;
  match returned with
  | Some r => mret r
  | None =>
      rmtree env (path_join BASE_DIR round_id);;
      mret PyNone
  end.

(** The RunPod response. *)
Inductive Response : Type :=
| Success (results : Returned)
| Error (message : string).

Definition handler (env : Env) (event : Request) : World → World * Response :=
  λ w, match analyze_media env event w with
       | (w', Return result) => (w', Success result)
       | (w', Raise e) => (w', Error (exn_str e))
       end.

(** *** Vocabulary for stating what the Verdict Aggregator computes *)


(** [best] sits at index [i] of [l], no frame of [l] scores higher and
    every frame in front of it scores strictly lower. *)
Definition first_maximum (l : list Scan.FrameResult) (i : nat) (best : Scan.FrameResult)
  : Prop :=
  l !! i = Some best
  ∧ (∀ g, g ∈ l → (Scan.nsfw_score g <= Scan.nsfw_score best)%Q)
  ∧ (∀ j g, (j < i)%nat → l !! j = Some g → (Scan.nsfw_score g < Scan.nsfw_score best)%Q).

(** An image Verdict of a preprocessed job: that job's FrameResult with
    [frame_count = 1] and the engine tag. *)
Definition verdict_of_job (d : Descriptor) (v : ImageVerdict) : Prop :=
  ∃ id path, d = ImageJob id path
             ∧ Scan.filename (i_result v) = basename path
             ∧ i_frame_count v = 1%Z
             ∧ i_engine_version v = "scan-engine-v1".

(** *** Vocabulary for stating what validation lets through *)

(** Both membership tests of line 65 answer [True] for the job. *)
Definition names_keys (job : Json) : Prop :=
  py_in "job_id" job = Return true ∧ py_in "url" job = Return true.

(** *** Vocabulary for stating what the Job Preprocessor keeps *)

(** What one iteration can add to [preprocessed_jobs]. *)
Definition video_entry (job : Job) (d : Descriptor) : Prop :=
  ∃ frames meta, d = VideoJob (job_id job) frames meta ∧ (meta = None → frames = []).

Definition image_entry (job : Job) (d : Descriptor) : Prop :=
  ∃ path, d = ImageJob (job_id job) path ∧ path ≠ ""
          ∧ lower (extension path) ∈ ALLOWED_IMAGE_EXTENSIONS.

(** The frames of a descriptor. *)
Definition frames_of (d : Descriptor) : list string :=
  match d with
  | VideoJob _ frames _ => frames
  | ImageJob _ _ => []
  end.

(** The metadata of a descriptor. *)
Definition metadata_of (d : Descriptor) : option VideoMeta :=
  match d with
  | VideoJob _ _ meta => meta
  | ImageJob _ _ => None
  end.

(** The job's file was fetched within [max_bytes] from an http(s) URL
    whose path ends in one of [exts]. *)
Definition fetched (net : Download.Net) (exts : list string) (max_bytes : Z) (job : Job)
  : Prop :=
  (String.prefix "http://" (url job) = true ∨ String.prefix "https://" (url job) = true)
  ∧ ∃ parsed_path chunks,
      Download.url_path net (url job) = Return parsed_path
      ∧ Download.http_get net (url job) = Some chunks
      ∧ (Download.body_size chunks ≤ max_bytes)%Z
      ∧ lower (extension parsed_path) ∈ exts.

End Pipeline.

(** ** Concrete collaborators and requests used as test inputs *)

Module Fixtures.

Definition staged (h : string) : Dedup.StagedFile :=
  {| Dedup.f_md5 := Some h; Dedup.f_movable := true |}.

(** A seven-frame clip with one abrupt change of brightness. Its scene
    run stages two frames, its fps run stages one duplicate and one new
    frame, and its spike frame duplicates a staged one. *)
Definition clip (fps_ frames_ : Q) : Video :=
  {| v_opened := true; v_fps := fps_; v_frame_count := frames_;
     v_width := 640; v_height := 360;
     v_frames := [[10; 10]; [10; 10]; [10; 10]; [200; 220];
                  [200; 220]; [200; 220]; [200; 220]]%Z;
     v_scene := Return [("frame_002.jpg", staged "bb"); ("frame_001.jpg", staged "aa")];
     v_uniform := Return [("frame_001.jpg", staged "aa"); ("frame_002.jpg", staged "cc")];
     v_spike_frame := λ i ts, Some (staged "cc");
     v_runtime := 1200%Z |}.

Definition scores_of (p : string) : ScoreDict :=
  let nsfw :=
    if bool_decide (basename p = "aa.jpg") then 1 # 10
    else if bool_decide (basename p = "bb.jpg") then 9 # 10
    else 5 # 10 in
  {[ "normal" := (1 - nsfw)%Q; "nsfw" := nsfw ]}.

(** Downloads succeed for http URLs; [slow.mp4] is a 5 fps video,
    [long.mp4] lasts 301 seconds, any other video is 3 seconds at 30 fps;
    every file is on disk as soon as it is asked for. *)
Definition studio : Env :=
  {| uuid4 := "round-1"; cwd := "/root";
     download_file := λ url dest filename max_bytes,
       if String.prefix "http://" url
       then Some (path_join dest (default "" filename +:+ basename url))
       else None;
     video_at := λ p,
       if bool_decide (basename p = "slow.mp4") then clip 5 50
       else if bool_decide (basename p = "long.mp4") then clip 30 9030
       else clip 30 90;
     on_disk := λ t p, true;
     poll_lag := λ t, 3%nat;
     getsize := λ p, 2097152%Z;
     imread := λ p, Some (480, 640)%Z;
     classify_batch := λ ps, Return (scores_of <$> ps);
     rmtree_fails := λ p, false |}.

(** The same collaborators, with a classifier that fails. *)
Definition studio_classifier_down : Env :=
  {| uuid4 := uuid4 studio; cwd := cwd studio;
     download_file := download_file studio; video_at := video_at studio;
     on_disk := on_disk studio; poll_lag := poll_lag studio;
     getsize := getsize studio; imread := imread studio;
     classify_batch := λ ps, Raise (OtherError "CUDA out of memory");
     rmtree_fails := rmtree_fails studio |}.

(** The same collaborators, with a disk that shows files 600 ms late. *)
Definition studio_slow_disk : Env :=
  {| uuid4 := uuid4 studio; cwd := cwd studio;
     download_file := download_file studio; video_at := video_at studio;
     on_disk := λ t p, (1800 <=? t)%Z; poll_lag := poll_lag studio;
     getsize := getsize studio; imread := imread studio;
     classify_batch := classify_batch studio;
     rmtree_fails := rmtree_fails studio |}.

(** The same collaborators, with a disk on which no file ever shows. *)
Definition studio_blind_disk : Env :=
  {| uuid4 := uuid4 studio; cwd := cwd studio;
     download_file := download_file studio; video_at := video_at studio;
     on_disk := λ t p, false; poll_lag := poll_lag studio;
     getsize := getsize studio; imread := imread studio;
     classify_batch := classify_batch studio;
     rmtree_fails := rmtree_fails studio |}.

Definition empty_world : World := {| w_dirs := ∅; w_markers := ∅; w_clock := 0%Z |}.

Definition job (id u : string) : Pipeline.Job := {| Pipeline.job_id := id; Pipeline.url := u |}.

Definition one_image : Pipeline.Request :=
  {| Pipeline.type := "images"; Pipeline.jobs := [job "1" "http://example.com/a.jpg"] |}.

Definition one_video : Pipeline.Request :=
  {| Pipeline.type := "videos"; Pipeline.jobs := [job "1" "http://example.com/ok.mp4"] |}.

Definition slow_then_ok : Pipeline.Request :=
  {| Pipeline.type := "videos";
     Pipeline.jobs := [job "1" "http://example.com/slow.mp4";
                       job "2" "http://example.com/ok.mp4"] |}.

Definition only_ok : Pipeline.Request :=
  {| Pipeline.type := "videos"; Pipeline.jobs := [job "2" "http://example.com/ok.mp4"] |}.

Definition too_long : Pipeline.Request :=
  {| Pipeline.type := "videos"; Pipeline.jobs := [job "2" "http://example.com/long.mp4"] |}.







(** A request of a kind the service does not know. *)
Definition one_audio : Pipeline.Request :=
  {| Pipeline.type := "audio"; Pipeline.jobs := [job "1" "http://example.com/a.mp3"] |}.

(** An images event whose one job is no dictionary but a sentence. *)
Definition loose_event : Pipeline.Json :=
  Pipeline.JDict [("type", Pipeline.JStr "images");
                  ("jobs", Pipeline.JList [Pipeline.JStr "the job_id and the url"])].

(** Two images around a text file. *)
Definition mixed_images : Pipeline.Request :=
  {| Pipeline.type := "images";
     Pipeline.jobs := [job "1" "http://example.com/a.jpg";
                       job "2" "http://example.com/b.txt";
                       job "3" "http://example.com/c.png"] |}.


(** The same collaborators, with a disk that loses the frames of the
    first video two seconds into the request. *)
Definition studio_evicting_disk : Env :=
  {| uuid4 := uuid4 studio; cwd := cwd studio;
     download_file := download_file studio; video_at := video_at studio;
     on_disk := λ t p,
       if under "/tmp/data/round-1/videos/1" p then (t <? 2000)%Z else true;
     poll_lag := poll_lag studio;
     getsize := getsize studio; imread := imread studio;
     classify_batch := classify_batch studio;
     rmtree_fails := rmtree_fails studio |}.

Definition two_videos : Pipeline.Request :=
  {| Pipeline.type := "videos";
     Pipeline.jobs := [job "1" "http://example.com/ok.mp4";
                       job "2" "http://example.com/ok.mp4"] |}.

(** A rejected video, kept without frames, in front of one with two. *)
Definition rejected_then_scanned : list Pipeline.Descriptor :=
  [Pipeline.VideoJob "1" [] None;
   Pipeline.VideoJob "2" ["/v/final/aa.jpg"; "/v/final/bb.jpg"] None].

(** Forty image paths, more than one batch. *)
Definition forty_paths : list string :=
  (λ i, "/i/" +:+ decimal i +:+ ".jpg") <$> seq 0 40.

(** A network on which [tiny.jpg] has a nine-byte body that arrives in
    three chunks, one of them empty, and every other body has 100 bytes;
    the path of a URL is a slash and its last component. *)
Definition wire : Download.Net :=
  {| Download.url_path := λ u, Return ("/" +:+ basename u);
     Download.uuid_name := "c0ffee";
     Download.http_get := λ u,
       if bool_decide (basename u = "tiny.jpg") then Some [4; 0; 5]%nat
       else Some [64; 36]%nat;
     Download.can_open := λ p, true |}.

Definition tiny_and_big : list Pipeline.Job :=
  [job "1" "http://example.com/tiny.jpg"; job "2" "http://example.com/big.jpg"].

Definition web_and_ftp : list Pipeline.Job :=
  [job "1" "ftp://example.com/ok.mp4"; job "2" "https://example.com/ok.mp4"].

End Fixtures.

(** * Properties *)

(** ** The Deduplicator *)

(** Settle a decidable closed proposition by evaluation. *)
Ltac by_evaluation :=
  match goal with
  | |- ?P => apply (bool_decide_unpack P); vm_compute; exact I
  end.

(** Refute a decidable closed proposition by evaluation. *)
Ltac by_refutation :=
  match goal with
  | |- ¬ ?P => apply (bool_decide_eq_false_1 P); vm_compute; reflexivity
  end.

Module DedupFacts.
Import Dedup.


Lemma length_sorted_listdir (d : Dir) : length (sorted_listdir d) = length d.
Proof.
  unfold sorted_listdir, listdir.
  by rewrite merge_sort_Permutation, length_fmap.
Qed.














(** Whatever the faults, no hash is claimed twice. *)
Lemma add_frames_loop_claimed fd (d : Dir) cap names count added visited st hs :
  claimed fd st hs →
  ∃ hs', claimed fd (p_state (add_frames_loop fd d cap names count added visited st))
           (hs ++ hs').
Proof.
  revert count added visited st hs.
  induction names as [|n names IH]; intros count added visited st hs Hinv; simpl.
  - exists []. by rewrite app_nil_r.
  - destruct (negb (cap =? 0)%Z && (cap <=? count)%Z).
    { exists []. by rewrite app_nil_r. }
    destruct (file_at d n) as [[o b]|] eqn:Ef; simpl; [|by apply IH].
    destruct o as [h|]; simpl; [|by apply IH].
    case_bool_decide as Eseen; [by apply IH|].
    destruct Hinv as (Hp & Hnd & Hin).
    destruct b.
    + edestruct (IH (count + 1)%Z (added + 1)%Z (visited ++ [n])
                   {| seen := {[h]} ∪ seen st;
                      frame_paths := frame_paths st ++ [final_path fd h] |}
                   (hs ++ [h])) as [hs' Hhs'].
      { split; [|split]; simpl.
        - by rewrite Hp, fmap_app.
        - apply NoDup_app. split; [done|]. split; [|apply NoDup_singleton].
          intros x Hx ->%list_elem_of_singleton. by apply Eseen, Hin.
        - intros x [Hx| ->%list_elem_of_singleton]%elem_of_app.
          + apply elem_of_union_r. by apply Hin.
          + apply elem_of_union_l. by apply elem_of_singleton. }
      exists (h :: hs'). by rewrite <- app_assoc in Hhs'.
    + apply IH. split; [|split]; simpl; [done|done|].
      intros x Hx. apply elem_of_union_r. by apply Hin.
Qed.







(** Under any fault pattern the output names pairwise distinct hashes. *)
Lemma deduplicate_no_duplicates fd scene fps spike max_fps :
  ∃ hs, deduplicate fd scene fps spike max_fps = final_path fd <$> hs ∧ NoDup hs.
Proof.
  unfold deduplicate, run, add_frames. simpl.
  destruct (add_frames_loop_claimed fd scene default_cap (sorted_listdir scene)
              0 0 [] init []) as [h1 H1].
  { split; [done|]. split; [constructor|]. by intros h ?%elem_of_nil. }
  destruct (add_frames_loop_claimed fd fps max_fps (sorted_listdir fps) 0 0 [] _ _ H1)
    as [h2 H2].
  destruct (add_frames_loop_claimed fd spike default_cap (sorted_listdir spike) 0 0 []
              _ _ H2) as [h3 (H3 & Hnd & _)].
  exists ((([] ++ h1) ++ h2) ++ h3). by split.
Qed.

(** *** Attempts under any fault pattern *)










Section Run.
Variables (fd : string) (scene fps spike : Dir) (max_fps : Z).



End Run.





End DedupFacts.

(** ** The Spike Detector *)

Module SpikeFacts.
Import Spike.

Section Loop.
Variables (fps diff_thresh suppression_window : Q) (step : Z).
Hypothesis step_nonzero : step ≠ 0%Z.

Lemma body_grab st :
  (frame_idx st `mod` step ≠ 0)%Z →
  body fps diff_thresh suppression_window step st
  = Continue {| stream := tail (stream st); frame_idx := (frame_idx st + 1)%Z;
                prev_gray := prev_gray st; last_spike_time := last_spike_time st;
                timestamps := timestamps st |}.
Proof.
  intros Hm. unfold body.
  rewrite (proj2 (Z.eqb_neq step 0)) by done.
  by rewrite (proj2 (Z.eqb_neq _ 0) Hm).
Qed.

Lemma body_end st :
  (frame_idx st `mod` step = 0)%Z → stream st = [] →
  body fps diff_thresh suppression_window step st = Break (timestamps st).
Proof.
  intros Hm Hs. unfold body.
  rewrite (proj2 (Z.eqb_neq step 0)) by done.
  by rewrite Hm, Hs.
Qed.

Lemma body_read st :
  stream st ≠ [] →
  ∃ st', body fps diff_thresh suppression_window step st = Continue st'
         ∧ stream st' = tail (stream st).
Proof.
  intros Hs. unfold body.
  rewrite (proj2 (Z.eqb_neq step 0)) by done.
  destruct (negb (frame_idx st `mod` step =? 0)%Z); [by eexists|].
  destruct (stream st) as [|gray rest]; [done|]. by eexists.
Qed.

(** Once the stream is exhausted the loop breaks at the next sampled index. *)
Lemma iterate_drained (k : nat) st (j : nat) :
  stream st = [] → (j < k)%nat → ((frame_idx st + Z.of_nat j) `mod` step = 0)%Z →
  is_Some (iterate k fps diff_thresh suppression_window step st).
Proof.
  revert st j. induction k as [|k IH]; intros st j Hs Hj Hm; [lia|]. simpl.
  destruct (decide (frame_idx st `mod` step = 0)%Z) as [E|E].
  - by rewrite body_end.
  - rewrite body_grab by done.
    destruct j as [|j]; [by rewrite Z.add_0_r in Hm|].
    apply (IH _ j); simpl; [by rewrite Hs | lia |].
    by replace (frame_idx st + 1 + Z.of_nat j)%Z
      with (frame_idx st + Z.of_nat (S j))%Z by lia.
Qed.

Lemma next_sample (idx : Z) :
  ∃ j : nat, (j < Z.abs_nat step + 1)%nat ∧ ((idx + Z.of_nat j) `mod` step = 0)%Z.
Proof.
  exists (Z.to_nat ((- idx) `mod` Z.abs step)).
  assert (Habs : (0 < Z.abs step)%Z) by lia.
  pose proof (Z.mod_pos_bound (- idx) (Z.abs step) Habs) as Hb.
  split; [lia|].
  rewrite Z2Nat.id by lia.
  apply Z.mod_divide; [done|].
  apply Z.divide_abs_l.
  apply Z.mod_divide; [lia|].
  rewrite Zplus_mod_idemp_r.
  replace (idx + - idx)%Z with 0%Z by lia. done.
Qed.

Lemma iterate_enough (fuel : nat) st :
  (length (stream st) + Z.abs_nat step + 1 ≤ fuel)%nat →
  is_Some (iterate fuel fps diff_thresh suppression_window step st).
Proof.
  revert st. induction fuel as [|fuel IH]; intros st Hf; [lia|].
  destruct (stream st) as [|f rest] eqn:Hs.
  - destruct (next_sample (frame_idx st)) as (j & Hj & Hm).
    apply (iterate_drained _ st j); [done| simpl in Hf; lia | done].
  - simpl. destruct (body_read st) as (st' & -> & Hst'); [by rewrite Hs|].
    apply IH. rewrite Hst', Hs. simpl in *. lia.
Qed.
End Loop.

(** The detector always returns or raises. *)
Lemma detect_terminates v diff_thresh sample_interval suppression_window :
  is_Some (detect_luma_spike_timestamps v diff_thresh sample_interval suppression_window).
Proof.
  unfold detect_luma_spike_timestamps.
  destruct (Qeq_bool (v_fps v) 0); [done|].
  destruct (v_opened v); simpl; [|done].
  set (step := py_int (v_fps v * sample_interval)).
  destruct (decide (step = 0%Z)) as [E|E].
  - rewrite E. unfold enough. rewrite Nat.add_1_r. simpl. by unfold body.
  - apply iterate_enough; [done|]. unfold enough. simpl. lia.
Qed.

Lemma zero_fps_empty v diff_thresh sample_interval suppression_window :
  (v_fps v == 0)%Q →
  detect_luma_spike_timestamps v diff_thresh sample_interval suppression_window
  = Some (Return []).
Proof.
  intros H. unfold detect_luma_spike_timestamps.
  by rewrite (proj2 (Qeq_bool_iff _ _) H).
Qed.

(** An opened source whose sampling stride truncates to zero makes the
    first [frame_idx % step] raise. *)
Lemma zero_stride_raises v diff_thresh sample_interval suppression_window :
  v_opened v = true → ¬ (v_fps v == 0)%Q →
  py_int (v_fps v * sample_interval) = 0%Z →
  detect_luma_spike_timestamps v diff_thresh sample_interval suppression_window
  = Some (Raise (ZeroDivisionError "integer division or modulo by zero")).
Proof.
  intros Ho Hf Hs. unfold detect_luma_spike_timestamps.
  destruct (Qeq_bool (v_fps v) 0) eqn:E; [by apply Qeq_bool_iff in E|].
  rewrite Ho, Hs. simpl. unfold enough. by rewrite Nat.add_1_r.
Qed.

(** C6: a 5 fps video that opens makes the Spike Detector raise
    ZeroDivisionError, since its stride [int(5 * 0.1)] is 0; the error
    reaches the handler as a failed request. *)
Theorem low_fps_video_raises :
  detect_luma_spike_timestamps (Fixtures.clip 5 50) default_diff_thresh
    default_sample_interval default_suppression_window
  = Some (Raise (ZeroDivisionError "integer division or modulo by zero"))
  ∧ (Pipeline.handler Fixtures.studio
       {| Pipeline.type := "videos";
          Pipeline.jobs := [Fixtures.job "1" "http://example.com/slow.mp4"] |}
       Fixtures.empty_world).2
    = Pipeline.Error "integer division or modulo by zero".
Proof. split; vm_compute; reflexivity. Qed.
End SpikeFacts.

(** ** The Readiness Barrier *)

Module BarrierFacts.
Import Extract.

Lemma advance_advance a b w : advance a (advance b w) = advance (b + a) w.
Proof. unfold advance. simpl. f_equal. lia. Qed.

Lemma advance_0 w : advance 0 w = w.
Proof. destruct w. unfold advance. simpl. f_equal. lia. Qed.

(** The retry loop, entered with the observation made at [w]: it leaves
    after [k ≤ n] sleeps with the observation made then; every earlier
    observation found a frame missing; it leaves early only on success. *)
Lemma flush_wait_spec env (n : nat) paths w :
  missing_frames env paths w ≠ [] →
  ∃ k : nat,
    (k ≤ n)%nat
    ∧ flush_wait env n paths (missing_frames env paths w) w
      = (advance (250 * Z.of_nat k) w,
         Return (missing_frames env paths (advance (250 * Z.of_nat k) w)))
    ∧ (∀ j : nat, (j < k)%nat →
         missing_frames env paths (advance (250 * Z.of_nat j) w) ≠ [])
    ∧ (missing_frames env paths (advance (250 * Z.of_nat k) w) = [] ∨ k = n).
Proof.
  revert w. induction n as [|n IH]; intros w Hw.
  - exists 0%nat. simpl. rewrite advance_0.
    split; [lia|]. split; [done|]. split; [intros; lia | by right].
  - assert (Hadv : ∀ i : nat, advance (250 * Z.of_nat i) (advance 250 w)
                             = advance (250 * Z.of_nat (S i)) w).
    { intros i. rewrite advance_advance. f_equal. lia. }
    simpl. unfold mbind, M_bind, bind, sleep, observe_missing. simpl.
    destruct (missing_frames env paths (advance 250 w)) as [|p ps] eqn:E.
    + exists 1%nat. replace (250 * Z.of_nat 1)%Z with 250%Z by lia. rewrite E.
      split; [lia|]. split; [done|]. split; [|by left].
      intros j Hj. replace j with 0%nat by lia. by rewrite advance_0.
    + destruct (IH (advance 250 w)) as (k & Hk & Hrun & Hbefore & Hexit).
      { by rewrite E. }
      rewrite E in Hrun. rewrite Hadv in Hrun.
      exists (S k). split; [lia|]. split; [done|]. split.
      * intros [|j] Hj; [by rewrite advance_0|]. rewrite <- Hadv. apply Hbefore. lia.
      * rewrite <- Hadv. destruct Hexit as [?| ->]; [by left | by right].
Qed.

Lemma confirm_frames_spec env paths w :
  ∃ k : nat,
    (k ≤ 10)%nat
    ∧ (∀ j : nat, (j < k)%nat →
         missing_frames env paths (advance (250 * Z.of_nat j) w) ≠ [])
    ∧ ((missing_frames env paths (advance (250 * Z.of_nat k) w) = []
        ∧ confirm_frames env paths w = (advance (250 * Z.of_nat k) w, Return tt))
       ∨ (k = 10%nat
          ∧ missing_frames env paths (advance (250 * Z.of_nat k) w) ≠ []
          ∧ confirm_frames env paths w = (advance (250 * Z.of_nat k) w, Raise not_found))).
Proof.
  unfold confirm_frames, mbind, M_bind, bind, observe_missing.
  destruct (missing_frames env paths w) as [|p ps] eqn:E.
  - exists 0%nat. simpl. rewrite advance_0. split; [lia|]. split; [lia|]. by left.
  - destruct (flush_wait_spec env 10 paths w) as (k & Hk & Hrun & Hbefore & Hexit).
    { by rewrite E. }
    rewrite E in Hrun. rewrite Hrun.
    exists k. split; [done|]. split; [done|].
    destruct (missing_frames env paths (advance (250 * Z.of_nat k) w)) as [|q qs] eqn:E'.
    + by left.
    + right. destruct Hexit as [?| ->]; done.
Qed.

Lemma missing_frames_nil env paths w :
  missing_frames env paths w = [] ↔ ∀ p, p ∈ paths → path_exists env w p = true.
Proof.
  unfold missing_frames. induction paths as [|q paths IH]; simpl.
  - split; [by intros _ p ?%elem_of_nil | done].
  - rewrite filter_cons. destruct (path_exists env w q) eqn:E.
    + rewrite decide_False by done. rewrite IH. split.
      * intros H p [->|?]%elem_of_cons; auto.
      * intros H p Hp. apply H. by right.
    + rewrite decide_True by done. split; [done|].
      intros H. specialize (H q). rewrite E in H. discriminate H. left.
Qed.

Lemma missing_frames_cons env paths w :
  missing_frames env paths w ≠ [] ↔ ∃ p, p ∈ paths ∧ path_exists env w p = false.
Proof.
  unfold missing_frames. split.
  - destruct (filter _ paths) as [|p ps] eqn:E; [done|]. intros _.
    assert (Hp : p ∈ filter (λ p, path_exists env w p = false) paths)
      by (rewrite E; left).
    apply list_elem_of_filter in Hp. exists p. tauto.
  - intros (p & Hp & Hf) E.
    assert (Hin : p ∈ filter (λ p, path_exists env w p = false) paths)
      by (by apply list_elem_of_filter).
    rewrite E in Hin. by apply elem_of_nil in Hin.
Qed.

Lemma make_staging_markers output_dir w :
  w_markers (make_staging output_dir w).1 = w_markers w
  ∧ w_clock (make_staging output_dir w).1 = w_clock w
  ∧ (make_staging output_dir w).2 = Return tt.
Proof. done. Qed.

(** C7: [done.json] is written only by a run of the extraction that
    returns, in the world of a check that found every claimed frame on
    disk, after at most ten sleeps of 250 ms, each taken because a frame
    was missing; its [total_frames] is the number of claimed frames. When
    a frame is still missing at the eleventh check the run raises the
    not-found error 2.5 s after deduplication and no marker is written. *)
Theorem marker_only_after_frames_confirmed env video_path output_dir max_fps max_spike w :
  let v := video_at env video_path in
  let w1 := staged_world env video_path output_dir w in
  let final_dir := path_join output_dir "final" in
  match extract_video_frames env video_path output_dir max_fps max_spike w with
  | (w', Return frame_paths) =>
      ∃ k : nat,
        (k ≤ 10)%nat
        ∧ w_clock w' = (w_clock w1 + 250 * Z.of_nat k)%Z
        ∧ (∀ j : nat, (j < k)%nat →
             ∃ p, p ∈ frame_paths
                  ∧ path_exists env (advance (250 * Z.of_nat j) w1) p = false)
        ∧ (∀ p, p ∈ frame_paths → path_exists env w' p = true)
        ∧ w_markers w'
          = <[path_join output_dir "done.json" :=
                {| total_frames := Z.of_nat (length frame_paths);
                   d_output_dir := output_dir; d_final_dir := final_dir;
                   time_elapsed := v_runtime v;
                   timestamp := w_clock w' |}]> (w_markers w)
  | (w', Raise e) =>
      w_markers w' = w_markers w
      ∧ match run_strategies v max_spike with
        | Raise e' => e = e' ∧ w' = w1
        | Return staged =>
            e = not_found
            ∧ w' = advance 2500 w1
            ∧ ∀ j : nat, (j ≤ 10)%nat →
                ∃ p, p ∈ Dedup.deduplicate final_dir staged.1.1 staged.1.2 staged.2 max_fps
                     ∧ path_exists env (advance (250 * Z.of_nat j) w1) p = false
        end
  end.
Proof.
  simpl. unfold extract_video_frames, staged_world.
  unfold mbind at 1. unfold M_bind, bind, now.
  destruct (make_staging_markers output_dir w) as (Hm & Hc & Hr).
  destruct (make_staging output_dir w) as [w0 r0] eqn:Ems. simpl in Hm, Hc, Hr. subst r0.
  unfold mbind at 1. unfold M_bind, bind. rewrite Ems.
  unfold mbind at 1. unfold M_bind, bind, sleep.
  unfold mbind at 1. unfold M_bind, bind, lift.
  set (w1 := advance (v_runtime (video_at env video_path)) w0).
  destruct (run_strategies (video_at env video_path) max_spike) as [staged|e'] eqn:Es.
  2:{ simpl. rewrite Hm. done. }
  set (frame_paths := Dedup.deduplicate _ _ _ _ _).
  unfold mbind at 1. unfold M_bind, bind.
  unfold mbind at 1. unfold M_bind, bind.
  destruct (confirm_frames_spec env frame_paths w1)
    as (k & Hk & Hbefore & [(Hok & ->) | (-> & Hko & ->)]).
  - unfold mbind at 1. unfold M_bind, bind, write_done, mret, M_ret, ret. simpl.
    exists k. split; [done|]. split; [lia|]. split; [|split].
    + intros j Hj. by apply missing_frames_cons, Hbefore.
    + intros p Hp. by apply (proj1 (missing_frames_nil env frame_paths _) Hok).
    + rewrite Hm. do 2 f_equal. lia.
  - simpl. split; [done|]. split; [done|]. split; [done|].
    intros j Hj. apply missing_frames_cons.
    destruct (decide (j = 10%nat)) as [->|Hne]; [done|]. apply Hbefore. lia.
Qed.

(** C7 at concrete inputs: a disk that shows the frames 600 ms late, and
    one that never shows them. *)
Lemma marker_only_after_frames_confirmed_witness :
  (∃ w' m,
      extract_video_frames Fixtures.studio_slow_disk "/v/ok.mp4" "/v" 60 30
        Fixtures.empty_world
      = (w', Return ["/v/final/aa.jpg"; "/v/final/bb.jpg"; "/v/final/cc.jpg"])
      ∧ w_markers w' !! "/v/done.json" = Some m
      ∧ total_frames m = 3%Z ∧ w_clock w' = 1950%Z)
  ∧ ∃ w', extract_video_frames Fixtures.studio_blind_disk "/v/ok.mp4" "/v" 60 30
            Fixtures.empty_world
          = (w', Raise not_found)
          ∧ w_markers w' = ∅ ∧ w_clock w' = 3700%Z.
Proof.
  split.
  - pose proof (marker_only_after_frames_confirmed Fixtures.studio_slow_disk
                  "/v/ok.mp4" "/v" 60 30 Fixtures.empty_world) as H.
    destruct (extract_video_frames Fixtures.studio_slow_disk "/v/ok.mp4" "/v" 60 30
                Fixtures.empty_world) as [w' [paths|e]] eqn:E;
      vm_compute in E; [|discriminate E].
    injection E as <- <-.
    destruct H as (k & _ & _ & _ & _ & Hm).
    eexists _, _. split; [reflexivity|]. split; [|split].
    + rewrite Hm. apply lookup_insert_eq.
    + reflexivity.
    + reflexivity.
  - pose proof (marker_only_after_frames_confirmed Fixtures.studio_blind_disk
                  "/v/ok.mp4" "/v" 60 30 Fixtures.empty_world) as H.
    destruct (extract_video_frames Fixtures.studio_blind_disk "/v/ok.mp4" "/v" 60 30
                Fixtures.empty_world) as [w' [paths|e]] eqn:E;
      vm_compute in E; [discriminate E|].
    destruct H as [Hm _]. injection E as <- <-.
    eexists. split; [reflexivity|]. split; [exact Hm | reflexivity].
Defined.

End BarrierFacts.

(** ** The Scan Dispatcher *)

Module ScanFacts.
Import Scan.

Lemma traverse_Forall2 {A B} (f : A → result B) (P : A → B → Prop) l ys :
  (∀ x y, x ∈ l → f x = Return y → P x y) →
  traverse f l = Return ys → Forall2 P l ys.
Proof.
  revert ys. induction l as [|x l IH]; intros ys HP; simpl.
  - intros [= <-]. constructor.
  - destruct (f x) as [y|e] eqn:Ex; simpl; [|done].
    destruct (traverse f l) as [ys'|e] eqn:El; simpl; [|done].
    intros [= <-]. constructor.
    + apply HP; [left | done].
    + apply IH; [|done]. intros x' y' Hx'. apply HP. by right.
Qed.

Lemma traverse_total {A B} (f : A → result B) l :
  (∀ x, x ∈ l → ∃ y, f x = Return y) → ∃ ys, traverse f l = Return ys.
Proof.
  induction l as [|x l IH]; intros Hf; simpl; [by eexists|].
  destruct (Hf x) as [y ->]; [left|]. simpl.
  destruct IH as [ys ->]; [intros x' Hx'; apply Hf; by right|]. simpl. by eexists.
Qed.

Lemma relpath_total cwd_ p start :
  p ≠ "" → ∃ rel, relpath cwd_ p start = Return rel.
Proof. intros Hp. unfold relpath. rewrite bool_decide_eq_false_2 by done. by eexists. Qed.

(** The precondition loop changes nothing but the clock, and returns only
    in a world in which every path is on disk. *)
Lemma await_frames_returns env n paths last w w' :
  await_frames env n paths last w = (w', Return tt) →
  ∀ p, p ∈ paths → path_exists env w' p = true.
Proof.
  revert last w. induction n as [|n IH]; intros last w; simpl; [done|].
  unfold mbind, M_bind, bind, observe_missing.
  destruct (missing_frames env paths w) as [|q qs] eqn:E.
  - intros [= <-]. by apply BarrierFacts.missing_frames_nil.
  - simpl. apply IH.
Qed.

Lemma path_exists_nonempty env w p : path_exists env w p = true → p ≠ "".
Proof.
  unfold path_exists. intros [H _]%andb_true_iff ->.
  by rewrite bool_decide_eq_true_2 in H.
Qed.

(** C9: for a non-empty list of paths that passed the presence check, an
    exception raised by the classification and reshaping stage does not
    leave the Scan Dispatcher: it returns one FrameResult per input path,
    in order, each with [is_nsfw = false], [nsfw_score = 0.0] and [error]
    set to the message of the exception. *)
Theorem scan_degrades_to_one_result_per_path env media_type frame_paths w w1 e :
  frame_paths ≠ [] →
  await_frames env 5 frame_paths [] w = (w1, Return tt) →
  classify_and_shape env media_type frame_paths = Raise e →
  ∃ results,
    scan_frames env media_type frame_paths w = (w1, Return results)
    ∧ length results = length frame_paths
    ∧ Forall2 (error_tagged e) frame_paths results.
Proof.
  intros Hne Hawait Hraise. unfold scan_frames.
  destruct frame_paths as [|p0 ps] eqn:Ep; [done|]. rewrite <- Ep in *.
  unfold mbind at 1. unfold M_bind, bind. rewrite Hawait, Hraise. unfold lift.
  destruct (traverse_total (degraded_result env e) frame_paths) as [results Hres].
  { intros p Hp. unfold degraded_result.
    destruct (relpath_total (cwd env) p "/data") as [rel ->]; [|by eexists].
    eapply path_exists_nonempty, await_frames_returns; done. }
  exists results. rewrite Hres. split; [done|].
  assert (HF : Forall2 (error_tagged e) frame_paths results).
  { eapply traverse_Forall2; [|exact Hres].
    intros p r _. unfold degraded_result.
    destruct (relpath (cwd env) p "/data"); simpl; [|done].
    intros [= <-]. by repeat split. }
  split; [|done]. symmetry. by eapply Forall2_length.
Qed.

(** A classifier that raises on the first batch fails the stage. *)
Lemma classifier_failure_raises env media_type frame_paths e :
  frame_paths ≠ [] →
  classify_batch env (take batch_size frame_paths) = Raise e →
  classify_and_shape env media_type frame_paths = Raise e.
Proof.
  intros Hne Hc. unfold classify_and_shape, scan_images_for_nsfw.
  destruct frame_paths as [|p ps] eqn:E; [done|]. rewrite <- E in *.
  assert (Hl : length frame_paths = S (length ps)) by (by rewrite E).
  rewrite Hl. simpl. rewrite E at 1. rewrite Hc. done.
Qed.

Lemma Qltb_lt a b : Qltb a b = true ↔ (a < b)%Q.
Proof.
  unfold Qltb. rewrite negb_true_iff. split.
  - intros H. apply Qnot_le_lt. intros Hle. apply Qle_bool_iff in Hle. congruence.
  - intros H. destruct (Qle_bool b a) eqn:E; [|done].
    apply Qle_bool_iff in E. exfalso. by apply (Qlt_not_le a b).
Qed.

Lemma Qltb_ge a b : Qltb a b = false ↔ (b <= a)%Q.
Proof.
  unfold Qltb. rewrite negb_false_iff. apply Qle_bool_iff.
Qed.

Lemma traverse_Forall {A B} (f : A → result B) (P : B → Prop) l ys :
  (∀ x y, f x = Return y → P y) → traverse f l = Return ys → Forall P ys.
Proof.
  intros HP H.
  apply (traverse_Forall2 f (λ _ y, P y)) in H; [|by eauto].
  clear HP. induction H; by constructor.
Qed.

Lemma scan_batches_S fuel env paths :
  paths ≠ [] →
  Scan.scan_batches (S fuel) env paths
  = (probs ← classify_batch env (take Scan.batch_size paths);
     scored ← traverse (λ jp, Scan.score_row probs jp.1 jp.2)
                (imap pair (take Scan.batch_size paths));
     rest ← Scan.scan_batches fuel env (drop Scan.batch_size paths);
     Return (scored ++ rest)).
Proof. by destruct paths. Qed.

Lemma scan_batches_flags fuel env paths scored :
  Scan.scan_batches fuel env paths = Return scored →
  Forall (λ s, Scan.s_is_nsfw s = Qltb Scan.nsfw_threshold (Scan.s_nsfw_score s)) scored.
Proof.
  revert paths scored. induction fuel as [|fuel IH]; intros paths scored.
  - simpl. intros [= <-]. constructor.
  - destruct (decide (paths = [])) as [->|Hne]; [intros [= <-]; constructor|].
    rewrite scan_batches_S by done.
    destruct (classify_batch env _) as [probs|e]; simpl; [|discriminate].
    destruct (traverse _ _) as [row|e] eqn:Et; simpl; [|discriminate].
    destruct (Scan.scan_batches fuel env _) as [rest|e] eqn:Er; simpl; [|discriminate].
    intros [= <-]. apply Forall_app. split; [|by eapply IH].
    eapply traverse_Forall; [|exact Et].
    intros [j q] s. unfold Scan.score_row. simpl.
    destruct (probs !! j); [|done]. by intros [= <-].
Qed.

(** Every FrameResult the Scan Dispatcher returns is flagged exactly when
    its score exceeds the threshold. *)
Lemma scan_frames_flags env media_type frame_paths w w' results :
  Scan.scan_frames env media_type frame_paths w = (w', Return results) →
  Forall Scan.flag_matches_score results.
Proof.
  unfold Scan.scan_frames. destruct frame_paths as [|p ps] eqn:Ep.
  { intros [= _ <-]. constructor. }
  rewrite <- Ep. clear Ep p ps.
  unfold mbind at 1. unfold M_bind, bind.
  destruct (Scan.await_frames env 5 frame_paths [] w) as [w1 [[]|e]]; [|done].
  destruct (Scan.classify_and_shape env media_type frame_paths) as [rs|e] eqn:Ec.
  - intros [= _ <-]. revert Ec. unfold Scan.classify_and_shape.
    destruct (Scan.scan_images_for_nsfw env frame_paths) as [scored|e] eqn:Es; simpl; [|done].
    assert (Hs : Forall (λ s, Scan.s_is_nsfw s
                              = Qltb Scan.nsfw_threshold (Scan.s_nsfw_score s)) scored).
    { revert Es. unfold Scan.scan_images_for_nsfw.
      destruct frame_paths; [intros [= <-]; constructor | apply scan_batches_flags]. }
    intros Ht.
    apply (traverse_Forall2 _
             (λ ps r, Scan.s_is_nsfw ps.2 = Qltb Scan.nsfw_threshold (Scan.s_nsfw_score ps.2)
                      → Scan.flag_matches_score r)) in Ht.
    + assert (Hz : Forall (λ ps : string * Scan.Scored,
                             Scan.s_is_nsfw ps.2
                             = Qltb Scan.nsfw_threshold (Scan.s_nsfw_score ps.2))
                     (zip frame_paths scored)).
      { apply Forall_forall. intros [p s] Hin. simpl.
        apply elem_of_zip_r in Hin. by eapply (proj1 (Forall_forall _ _) Hs). }
      clear Hs Es. induction Ht; [constructor|].
      apply Forall_cons in Hz as [? ?]. constructor; auto.
    + intros [p s] r _. unfold Scan.shape_result. simpl.
      case_bool_decide.
      * destruct (imread env p) as [[h wd]|]; [|done].
        destruct (relpath _ _ _); simpl; [|done]. by intros [= <-].
      * destruct (relpath _ _ _); simpl; [|done]. by intros [= <-].
  - unfold lift. intros [= _ Ht].
    eapply traverse_Forall; [|exact Ht].
    intros p r. unfold Scan.degraded_result.
    destruct (relpath _ _ _); simpl; [|done]. by intros [= <-].
Qed.

(** C9 at a concrete input: two frames and a classifier that is down. *)
Lemma scan_degrades_to_one_result_per_path_witness :
  ∃ results,
    scan_frames Fixtures.studio_classifier_down "videos"
      ["/v/final/aa.jpg"; "/v/final/bb.jpg"] Fixtures.empty_world
    = (Fixtures.empty_world, Return results)
    ∧ length results = 2%nat
    ∧ Forall2 (error_tagged (OtherError "CUDA out of memory"))
        ["/v/final/aa.jpg"; "/v/final/bb.jpg"] results.
Proof.
  apply (scan_degrades_to_one_result_per_path Fixtures.studio_classifier_down "videos"
           ["/v/final/aa.jpg"; "/v/final/bb.jpg"] Fixtures.empty_world
           Fixtures.empty_world (OtherError "CUDA out of memory")).
  - discriminate.
  - reflexivity.
  - reflexivity.
Defined.

End ScanFacts.

(** ** Rounding *)

Module RoundFacts.

Lemma round_half_even_close (y : Q) :
  (Qabs (y - inject_Z (round_half_even y)) <= 1 # 2)%Q.
Proof.
  unfold round_half_even.
  pose proof (Qfloor_le y) as Hlo. pose proof (Qlt_floor y) as Hhi.
  rewrite inject_Z_plus in Hhi. change (inject_Z 1) with 1%Q in Hhi.
  apply Qabs_Qle_condition.
  destruct (y - inject_Z (Qfloor y) ?= 1 # 2)%Q eqn:E.
  - apply Qeq_alt in E. destruct (Z.even (Qfloor y)); rewrite ?inject_Z_plus;
      change (inject_Z 1) with 1%Q; split; lra.
  - apply Qlt_alt in E. split; lra.
  - apply Qgt_alt in E. rewrite inject_Z_plus. change (inject_Z 1) with 1%Q.
    split; lra.
Qed.

(** [round(x, 4)] is a multiple of 1/10000 within half a unit of [x]. *)
Lemma py_round_4 (x : Q) :
  (∃ z : Z, (py_round x 4 == z # 10000)%Q)
  ∧ (Qabs (x - py_round x 4) <= 1 # 20000)%Q.
Proof.
  unfold py_round.
  change (10 ^ Z.of_nat 4)%Z with 10000%Z.
  set (z := round_half_even (x * inject_Z 10000)).
  pose proof (round_half_even_close (x * inject_Z 10000)) as H. fold z in H.
  apply Qabs_Qle_condition in H. destruct H as [H1 H2].
  assert (Hz : (inject_Z z / inject_Z 10000 == z # 10000)%Q).
  { unfold Qdiv, Qinv, Qmult, Qeq, inject_Z. simpl. lia. }
  split.
  - by exists z.
  - apply Qabs_Qle_condition. rewrite Hz.
    assert (Hq : (z # 10000 == inject_Z z * (1 # 10000))%Q).
    { unfold Qmult, Qeq, inject_Z. simpl. lia. }
    rewrite Hq. change (inject_Z 10000) with (10000 # 1)%Q in H1, H2.
    split; lra.
Qed.
End RoundFacts.

(** ** The Verdict Aggregator *)

Module AggregateFacts.
Import Pipeline.

Lemma most_nsfw_from_spec (l pre : list Scan.FrameResult) best i :
  first_maximum pre i best →
  ∃ i', first_maximum (pre ++ l) i' (most_nsfw_from best l).
Proof.
  revert pre best i. induction l as [|f l IH]; intros pre best i (Hi & Hmax & Hfirst); simpl.
  - exists i. by rewrite app_nil_r.
  - replace (pre ++ f :: l) with ((pre ++ [f]) ++ l) by (by rewrite <- app_assoc).
    destruct (Qltb (Scan.nsfw_score best) (Scan.nsfw_score f)) eqn:E.
    + apply ScanFacts.Qltb_lt in E.
      apply (IH _ _ (length pre)). split; [|split].
      * by rewrite lookup_app_r, Nat.sub_diag by lia.
      * intros g [Hg| ->%list_elem_of_singleton]%elem_of_app.
        -- apply Qlt_le_weak. eapply Qle_lt_trans; [by apply Hmax | done].
        -- apply Qle_refl.
      * intros j g Hj Hg. rewrite lookup_app_l in Hg by done.
        eapply Qle_lt_trans; [|exact E]. apply Hmax.
        by eapply list_elem_of_lookup_2.
    + apply ScanFacts.Qltb_ge in E.
      apply (IH _ _ i). split; [|split].
      * apply lookup_app_l_Some. done.
      * intros g [Hg| ->%list_elem_of_singleton]%elem_of_app; [by apply Hmax | done].
      * intros j g Hj Hg. apply (Hfirst j g Hj).
        rewrite lookup_app_l in Hg; [done|].
        apply lookup_lt_Some in Hi. lia.
Qed.

Lemma score_sum_foldr (l : list Scan.FrameResult) (a : Q) :
  (foldl (λ acc f, acc + Scan.nsfw_score f) a l
   == a + foldr (λ f acc, Scan.nsfw_score f + acc) 0 l)%Q.
Proof.
  revert a. induction l as [|f l IH]; intros a; simpl.
  - lra.
  - rewrite IH. lra.
Qed.



End AggregateFacts.

(** ** What a video request leaves on disk *)

Module CleanupFacts.
Import Pipeline.

Lemma keeps_ret {A} (a : A) : keeps_dirs (mret a).
Proof. by intros w. Qed.

Lemma keeps_raise {A} (e : exn) : keeps_dirs (@raise A e).
Proof. by intros w. Qed.

Lemma keeps_lift {A} (r : result A) : keeps_dirs (lift r).
Proof. by intros w. Qed.

Lemma keeps_now : keeps_dirs now.
Proof. by intros w. Qed.

Lemma keeps_observe env paths : keeps_dirs (observe_missing env paths).
Proof. by intros w. Qed.

Lemma keeps_sleep ms : keeps_dirs (sleep ms).
Proof. by intros w. Qed.

Lemma keeps_makedirs p : keeps_dirs (makedirs p).
Proof. intros w. simpl. apply union_subseteq_r. Qed.

Lemma keeps_write_done o f ps el : keeps_dirs (Extract.write_done o f ps el).
Proof. by intros w. Qed.

Lemma keeps_bind {A B} (m : M A) (k : A → M B) :
  keeps_dirs m → (∀ a, keeps_dirs (k a)) → keeps_dirs (m ≫= k).
Proof.
  intros Hm Hk w. unfold mbind, M_bind, bind.
  specialize (Hm w). destruct (m w) as [w1 [a|e]]; simpl in *; [|done].
  etrans; [exact Hm | apply Hk].
Qed.

Ltac keeps :=
  repeat first
    [ apply keeps_ret | apply keeps_raise | apply keeps_lift | apply keeps_now
    | apply keeps_observe | apply keeps_sleep | apply keeps_makedirs
    | apply keeps_write_done | assumption
    | apply keeps_bind; [|intros] | case_match ].

Lemma keeps_flush_wait env n paths missing :
  keeps_dirs (Extract.flush_wait env n paths missing).
Proof. revert missing. induction n as [|n IH]; intros missing; simpl; keeps. apply IH. Qed.

Lemma keeps_extract env video_path output_dir mf ms :
  keeps_dirs (Extract.extract_video_frames env video_path output_dir mf ms).
Proof.
  unfold Extract.extract_video_frames, Extract.make_staging, Extract.confirm_frames.
  keeps; apply keeps_flush_wait.
Qed.

Lemma keeps_wait_loop fuel lag done_path timeout start :
  keeps_dirs (Extract.wait_loop fuel lag done_path timeout start).
Proof.
  induction fuel as [|fuel IH]; intros w; simpl; repeat case_match; try done.
  etrans; [|apply (keeps_bind (sleep (1000 + Z.of_nat (lag (w_clock w))))
                     (λ _, Extract.wait_loop fuel lag done_path timeout start))];
    [done | apply keeps_sleep | intros; apply IH].
Qed.

Lemma keeps_wait_for_done lag done_path :
  keeps_dirs (Extract.wait_for_done lag done_path).
Proof. unfold Extract.wait_for_done. keeps. apply keeps_wait_loop. Qed.

Lemma keeps_await env n paths last : keeps_dirs (Scan.await_frames env n paths last).
Proof. revert last. induction n as [|n IH]; intros last; simpl; keeps. apply IH. Qed.

Lemma keeps_scan_frames env media_type paths :
  keeps_dirs (Scan.scan_frames env media_type paths).
Proof. unfold Scan.scan_frames. keeps; apply keeps_await. Qed.

Lemma keeps_for_each {A S} (f : A → S → M S) l s :
  (∀ x s, keeps_dirs (f x s)) → keeps_dirs (for_each f l s).
Proof. intros Hf. revert s. induction l as [|x l IH]; intros s; simpl; keeps. apply Hf. apply IH. Qed.

Lemma keeps_preprocess_video env round_id job acc :
  keeps_dirs (preprocess_video env round_id job acc).
Proof.
  unfold preprocess_video.
  keeps; first [apply keeps_extract | apply keeps_wait_for_done | apply keeps_wait_loop].
Qed.

Lemma keeps_scan_video_job env job results : keeps_dirs (scan_video_job env job results).
Proof. unfold scan_video_job. keeps; apply keeps_scan_frames. Qed.

(** No directory is removed in the course of a video request: what
    exists when the request arrives, and what preprocessing creates, is
    still on disk when [analyze_media] returns or raises. *)
Lemma video_request_removes_nothing env request w :
  type request = "videos" →
  let w1 := (preprocess_media env "videos" (jobs request) (uuid4 env) w).1 in
  w_dirs w ⊆ w_dirs w1
  ∧ (validate_input (event_of request) = Return tt
     → w_dirs w1 ⊆ w_dirs (analyze_media env request w).1).
Proof.
  intros Htype. simpl. split.
  - apply (keeps_bind _ _ (keeps_lift _)). intros _. simpl.
    apply keeps_for_each. intros. apply keeps_preprocess_video.
  - intros Hv. unfold analyze_media. rewrite Htype.
    unfold mbind at 1. unfold M_bind, bind, lift. rewrite Hv.
    unfold mbind at 1. unfold M_bind, bind.
    destruct (preprocess_media env "videos" (jobs request) (uuid4 env) w)
      as [w1 [pre|e]]; simpl; [|done].
    unfold mbind at 1. unfold M_bind, bind, dispatch. simpl.
    unfold mbind at 1. unfold M_bind, bind.
    pose proof (keeps_for_each (scan_video_job env) pre []
                  (λ x s, keeps_scan_video_job env x s) w1) as H.
    destruct (for_each (scan_video_job env) pre [] w1) as [w2 [vs|e]]; simpl in *; done.
Qed.
End CleanupFacts.

(** ** Preprocessing and the entrypoint *)

Module PipelineFacts.
Import Pipeline.

Lemma length_append (a b : string) :
  String.length (a +:+ b) = (String.length a + String.length b)%nat.
Proof.
  induction a as [|c a IH]; [done|].
  change (String c a +:+ b) with (String c (a +:+ b)). simpl. by rewrite IH.
Qed.

Lemma dir_chain_length (s acc x : string) :
  x ∈ dir_chain acc s → (String.length x ≤ String.length acc + String.length s)%nat.
Proof.
  revert acc. induction s as [|c s IH]; intros acc; simpl.
  - case_bool_decide; [by intros ?%elem_of_nil|].
    intros ->%list_elem_of_singleton. lia.
  - case_bool_decide.
    + intros [Hx|Hx]%elem_of_app.
      * destruct (_ || _); [by apply elem_of_nil in Hx|].
        apply list_elem_of_singleton in Hx as ->. lia.
      * apply IH in Hx. rewrite length_append in Hx. simpl in Hx. lia.
    + intros Hx. apply IH in Hx. rewrite length_append in Hx. simpl in Hx. lia.
Qed.

Lemma path_join_longer (a sub : string) :
  sub ≠ "" → starts_with_sep sub = false →
  (String.length a < String.length (path_join a sub))%nat.
Proof.
  intros Hne Hs. unfold path_join. rewrite Hs.
  assert (0 < String.length sub)%nat by (destruct sub; [done | simpl; lia]).
  destruct (_ || _); rewrite !length_append; simpl; lia.
Qed.

(** [os.makedirs(work_dir)] creates none of the staging directories. *)
Lemma makedirs_spares_staging (work_dir sub : string) w :
  sub ∈ ["scene"; "fps"; "spike"; "final"] →
  path_join work_dir sub ∈ w_dirs (makedirs work_dir w).1 →
  path_join work_dir sub ∈ w_dirs w.
Proof.
  intros Hsub. simpl. rewrite elem_of_union, elem_of_list_to_set.
  intros [Hin|Hin]; [|done]. exfalso.
  apply dir_chain_length in Hin. simpl in Hin.
  assert (String.length work_dir < String.length (path_join work_dir sub))%nat; [|lia].
  apply path_join_longer;
    repeat (apply elem_of_cons in Hsub as [->|Hsub]; [done|]);
    by apply elem_of_nil in Hsub.
Qed.

Lemma for_each_app {A S} (f : A → S → M S) (l1 l2 : list A) (s : S) w :
  for_each f (l1 ++ l2) s w
  = match for_each f l1 s w with
    | (w1, Return s1) => for_each f l2 s1 w1
    | (w1, Raise e) => (w1, Raise e)
    end.
Proof.
  revert s w. induction l1 as [|x l1 IH]; intros s w; simpl; [done|].
  unfold mbind, M_bind, bind. destruct (f x s w) as [w1 [s1|e]]; [apply IH | done].
Qed.

(** An accepted video whose extraction raises makes its job raise. *)
Lemma extraction_error_leaves_preprocess_video env round_id job acc w video_path w' e :
  let work_dir := path_join (path_join (path_join BASE_DIR round_id) "videos") (job_id job) in
  let cap := video_at env video_path in
  download_file env (url job) work_dir None MAX_VIDEO_SIZE_MB = Some video_path →
  video_path ≠ "" →
  allowed ALLOWED_VIDEO_EXTENSIONS video_path = true →
  v_opened cap = true →
  (0 < v_fps cap ∧ 0 < v_frame_count cap ∧ v_frame_count cap / v_fps cap <= 300)%Q →
  Extract.extract_video_frames env video_path work_dir Extract.default_max_fps_frames
    Extract.default_max_spike_frames (makedirs work_dir w).1 = (w', Raise e) →
  preprocess_video env round_id job acc w = (w', Raise e).
Proof.
  intros work_dir cap Hdl Hne Hext Hopen (Hfps & Hcount & Hdur) Hraise.
  unfold preprocess_video. fold work_dir. unfold mbind at 1. unfold M_bind, bind.
  simpl. rewrite Hdl. rewrite bool_decide_eq_false_2 by done. rewrite Hext. simpl.
  fold cap. rewrite Hopen. simpl.
  assert (H1 : Qle_bool (v_fps cap) 0 = false).
  { destruct (Qle_bool (v_fps cap) 0) eqn:E; [|done].
    apply Qle_bool_iff in E. exfalso. by apply (Qlt_not_le _ _ Hfps). }
  assert (H2 : Qle_bool (v_frame_count cap) 0 = false).
  { destruct (Qle_bool (v_frame_count cap) 0) eqn:E; [|done].
    apply Qle_bool_iff in E. exfalso. by apply (Qlt_not_le _ _ Hcount). }
  rewrite H1, H2. simpl.
  unfold MAX_VIDEO_DURATION. rewrite (proj2 (ScanFacts.Qltb_ge (5 * 60) _) Hdur).
  unfold mbind at 1. unfold M_bind, bind. simpl in Hraise. by rewrite Hraise.
Qed.
(** C3, amended: when processing one job of a video request raises (a
    fatal extraction error, or a readiness timeout), the jobs before it
    having been preprocessed, the exception leaves [preprocess_media] and
    [analyze_media] unchanged and the handler answers with status error
    and the message of the exception; no job of the request, sibling or
    not, gets a result. *)
Theorem extraction_error_fails_the_request env before job after acc w w1 w2 e :
  validate_input (event_of {| type := "videos"; jobs := before ++ job :: after |})
  = Return tt →
  for_each (preprocess_video env (uuid4 env)) before [] w = (w1, Return acc) →
  preprocess_video env (uuid4 env) job acc w1 = (w2, Raise e) →
  preprocess_media env "videos" (before ++ job :: after) (uuid4 env) w = (w2, Raise e)
  ∧ analyze_media env {| type := "videos"; jobs := before ++ job :: after |} w
    = (w2, Raise e)
  ∧ handler env {| type := "videos"; jobs := before ++ job :: after |} w
    = (w2, Error (exn_str e)).
Proof.
  intros Hv Hbefore Hjob.
  assert (Hpre : preprocess_media env "videos" (before ++ job :: after) (uuid4 env) w
                 = (w2, Raise e)).
  { unfold preprocess_media. unfold mbind at 1. unfold M_bind, bind, lift.
    rewrite Hv. simpl. rewrite for_each_app, Hbefore. simpl.
    unfold mbind at 1. unfold M_bind, bind. by rewrite Hjob. }
  assert (Han : analyze_media env {| type := "videos"; jobs := before ++ job :: after |} w
                = (w2, Raise e)).
  { unfold analyze_media. unfold mbind at 1. unfold M_bind, bind, lift.
    rewrite Hv. unfold mbind at 1. unfold M_bind, bind. simpl type. simpl jobs.
    by rewrite Hpre. }
  split; [done|]. split; [done|]. unfold handler. by rewrite Han.
Qed.

Lemma fill_last_snoc frames meta (acc : list Descriptor) d :
  fill_last frames meta (acc ++ [d])
  = acc ++ [VideoJob (descriptor_id d) frames (Some meta)].
Proof.
  unfold fill_last. rewrite length_app. simpl.
  replace (length acc + 1 - 1)%nat with (length acc + 0)%nat by lia.
  by rewrite alter_app_r.
Qed.

(** One video job leaves the earlier descriptors alone. *)
Lemma preprocess_video_extends env round_id job acc w w' out :
  preprocess_video env round_id job acc w = (w', Return out) →
  acc `prefix_of` out.
Proof.
  unfold preprocess_video. unfold mbind at 1. unfold M_bind, bind. simpl.
  destruct (download_file env _ _ _ _) as [video_path|]; [|by intros [= _ <-]].
  destruct (_ || _); [by intros [= _ <-]|].
  destruct (negb _); [intros [= _ <-]; by apply prefix_app_r|].
  destruct (_ || _); [intros [= _ <-]; by apply prefix_app_r|].
  destruct (Qltb _ _); [intros [= _ <-]; by apply prefix_app_r|].
  unfold mbind at 1. unfold M_bind, bind.
  destruct (Extract.extract_video_frames _ _ _ _ _ _) as [w1 [frames|e]]; [|done].
  unfold mbind at 1. unfold M_bind, bind.
  destruct (Extract.wait_for_done _ _ _) as [w2 [meta|e]]; [|done].
  intros [= _ <-]. rewrite fill_last_snoc. by apply prefix_app_r.
Qed.

Lemma preprocess_videos_extend env round_id jobs acc w w' out :
  for_each (preprocess_video env round_id) jobs acc w = (w', Return out) →
  acc `prefix_of` out.
Proof.
  revert acc w. induction jobs as [|job jobs IH]; intros acc w; simpl.
  - by intros [= _ <-].
  - unfold mbind, M_bind, bind.
    destruct (preprocess_video env round_id job acc w) as [w1 [acc1|e]] eqn:E; [|done].
    intros H. etrans; [by eapply preprocess_video_extends | by eapply IH].
Qed.

(** C4, amended: a video job rejected for non-positive fps, non-positive
    frame count or a duration above 300 seconds is skipped before
    extraction: processing it only creates its working directory, writes
    no marker, takes no time and creates no staging directory. The job
    is not absent from the Job Preprocessor's output: it stays there as a
    descriptor with no frames and no metadata, whatever jobs follow, and
    the aggregator reports nothing for it. *)
Theorem rejected_video_is_kept_without_frames env round_id job acc w video_path :
  let work_dir := path_join (path_join (path_join BASE_DIR round_id) "videos") (job_id job) in
  let cap := video_at env video_path in
  let placeholder := VideoJob (job_id job) [] None in
  download_file env (url job) work_dir None MAX_VIDEO_SIZE_MB = Some video_path →
  video_path ≠ "" →
  allowed ALLOWED_VIDEO_EXTENSIONS video_path = true →
  v_opened cap = true →
  (v_fps cap <= 0 ∨ v_frame_count cap <= 0 ∨ 300 < v_frame_count cap / v_fps cap)%Q →
  preprocess_video env round_id job acc w
  = ((makedirs work_dir w).1, Return (acc ++ [placeholder]))
  ∧ w_markers (makedirs work_dir w).1 = w_markers w
  ∧ w_clock (makedirs work_dir w).1 = w_clock w
  ∧ (∀ sub, sub ∈ ["scene"; "fps"; "spike"; "final"] →
            path_join work_dir sub ∈ w_dirs (makedirs work_dir w).1 →
            path_join work_dir sub ∈ w_dirs w)
  ∧ (∀ after w' out,
       for_each (preprocess_video env round_id) after (acc ++ [placeholder])
         (makedirs work_dir w).1 = (w', Return out) →
       placeholder ∈ out)
  ∧ (∀ results w', scan_video_job env placeholder results w' = (w', Return results)).
Proof.
  intros work_dir cap placeholder Hdl Hne Hext Hopen Hrej.
  split; [|split; [done|split; [done|split; [|split]]]].
  - unfold preprocess_video. fold work_dir. unfold mbind at 1. unfold M_bind, bind.
    simpl. rewrite Hdl. rewrite bool_decide_eq_false_2 by done. rewrite Hext. simpl.
    fold cap. rewrite Hopen. simpl.
    destruct Hrej as [H|[H|H]].
    + apply Qle_bool_iff in H. by rewrite H.
    + apply Qle_bool_iff in H. rewrite H. by rewrite orb_true_r.
    + destruct (_ || _); [done|].
      unfold MAX_VIDEO_DURATION.
      by rewrite (proj2 (ScanFacts.Qltb_lt (5 * 60) _) H).
  - intros sub. apply makedirs_spares_staging.
  - intros after w' out Hrun. apply preprocess_videos_extend in Hrun.
    destruct Hrun as [tail ->]. apply elem_of_app. left. apply elem_of_app. right. left.
  - done.
Qed.

Lemma scan_batches_length fuel env paths scored :
  (length paths ≤ fuel)%nat →
  Scan.scan_batches fuel env paths = Return scored →
  length scored = length paths.
Proof.
  revert paths scored. induction fuel as [|fuel IH]; intros paths scored Hfuel.
  - destruct paths; [|simpl in Hfuel; lia]. by intros [= <-].
  - destruct (decide (paths = [])) as [->|Hne]; [by intros [= <-]|].
    rewrite ScanFacts.scan_batches_S by done.
    destruct (classify_batch env _) as [probs|e]; simpl; [|discriminate].
    destruct (traverse _ _) as [row|e] eqn:Et; simpl; [|discriminate].
    destruct (Scan.scan_batches fuel env _) as [rest|e] eqn:Er; simpl; [|discriminate].
    intros [= <-].
    apply (ScanFacts.traverse_Forall2 _ (λ _ _, True)) in Et; [|done].
    apply Forall2_length in Et. rewrite length_imap, length_take in Et.
    apply IH in Er; [|rewrite length_drop; unfold Scan.batch_size;
                      destruct paths; [done | simpl in *; lia]].
    rewrite length_app, <- Et, Er, length_drop. unfold Scan.batch_size. lia.
Qed.

(** The Scan Dispatcher answers path by path, in order. *)
Lemma scan_frames_in_order env media_type frame_paths w w' results :
  Scan.scan_frames env media_type frame_paths w = (w', Return results) →
  Forall2 (λ p r, Scan.filename r = basename p) frame_paths results.
Proof.
  unfold Scan.scan_frames. destruct frame_paths as [|p0 ps] eqn:Ep.
  { intros [= _ <-]. constructor. }
  rewrite <- Ep. assert (Hne : frame_paths ≠ []) by (by rewrite Ep). clear Ep p0 ps.
  unfold mbind at 1. unfold M_bind, bind.
  destruct (Scan.await_frames env 5 frame_paths [] w) as [w1 [[]|e]]; [|done].
  destruct (Scan.classify_and_shape env media_type frame_paths) as [rs|e] eqn:Ec.
  - intros [= _ <-]. revert Ec. unfold Scan.classify_and_shape.
    destruct (Scan.scan_images_for_nsfw env frame_paths) as [scored|e] eqn:Es; simpl; [|done].
    assert (Hlen : length scored = length frame_paths).
    { revert Es. unfold Scan.scan_images_for_nsfw.
      destruct frame_paths eqn:E; [done|]. rewrite <- E. by apply scan_batches_length. }
    intros Ht.
    apply (ScanFacts.traverse_Forall2 _
             (λ ps r, Scan.filename r = basename ps.1)) in Ht.
    + rewrite <- (fst_zip frame_paths scored) at 1 by lia.
      by apply Forall2_fmap_l.
    + intros [p s] r _. unfold Scan.shape_result. simpl.
      case_bool_decide.
      * destruct (imread env p) as [[h wd]|]; [|done].
        destruct (relpath _ _ _); simpl; [|done]. by intros [= <-].
      * destruct (relpath _ _ _); simpl; [|done]. by intros [= <-].
  - unfold lift. intros [= _ Ht].
    eapply ScanFacts.traverse_Forall2; [|exact Ht].
    intros p r _. unfold Scan.degraded_result.
    destruct (relpath _ _ _); simpl; [|done]. by intros [= <-].
Qed.

(** C1: an images request that does not raise computes one Verdict per
    preprocessed job, in order, each the job's FrameResult with
    [frame_count = 1] and the engine tag; but [analyze_media] returns
    [None], not that list, and the handler answers with [None] as the
    results. *)
Theorem image_verdicts_are_not_returned env request w w' r :
  type request = "images" →
  analyze_media env request w = (w', Return r) →
  r = PyNone
  ∧ handler env request w = (w', Success PyNone)
  ∧ ∃ w1 w2 preprocessed_jobs scan_results,
      preprocess_media env "images" (jobs request) (uuid4 env) w
      = (w1, Return preprocessed_jobs)
      ∧ scan_images env preprocessed_jobs w1 = (w2, Return scan_results)
      ∧ Forall2 verdict_of_job preprocessed_jobs scan_results.
Proof.
  intros Htype Hrun.
  assert (Hr : r = PyNone ∧ ∃ w1 w2 preprocessed_jobs scan_results,
      preprocess_media env "images" (jobs request) (uuid4 env) w
      = (w1, Return preprocessed_jobs)
      ∧ scan_images env preprocessed_jobs w1 = (w2, Return scan_results)
      ∧ Forall2 verdict_of_job preprocessed_jobs scan_results).
  { revert Hrun. unfold analyze_media. rewrite Htype.
    unfold mbind at 1. unfold M_bind, bind, lift.
    destruct (validate_input (event_of request)); [|done].
    unfold mbind at 1. unfold M_bind, bind.
    destruct (preprocess_media env "images" (jobs request) (uuid4 env) w)
      as [w1 [pre|e]] eqn:Epre; [|done].
    unfold mbind at 1. unfold M_bind, bind, dispatch.
    rewrite bool_decide_eq_true_2 by done.
    unfold mbind at 1. unfold M_bind, bind.
    destruct (scan_images env pre w1) as [w2 [verdicts|e]] eqn:Escan; [|done].
    simpl. unfold mbind at 1. unfold M_bind, bind.
    destruct (rmtree env _ w2) as [w3 [[]|e]]; [|done].
    intros [= _ <-]. split; [done|].
    exists w1, w2, pre, verdicts. split; [done|]. split; [done|].
    revert Escan. unfold scan_images. unfold mbind at 1. unfold M_bind, bind, lift.
    destruct (traverse image_path_of pre) as [paths|e] eqn:Ep; [|done].
    unfold mbind at 1. unfold M_bind, bind.
    destruct (Scan.scan_frames env "images" paths w1) as [w2' [rs|e]] eqn:Es; [|done].
    intros [= _ <-].
    apply scan_frames_in_order in Es.
    apply (ScanFacts.traverse_Forall2 _ (λ d p, image_path_of d = Return p)) in Ep;
      [|done].
    apply Forall2_fmap_r.
    clear -Ep Es. revert rs Es. induction Ep as [|d p pre paths Hd Hrest IH];
      intros rs Hrs; inversion Hrs; subst; constructor; [|by apply IH].
    destruct d as [id path|]; [|done]. injection Hd as <-.
    by exists id, path. }
  destruct Hr as [-> Hr]. split; [done|]. split; [|done].
  unfold handler. by rewrite Hrun.
Qed.

(** C1 at a concrete input: one image, scanned and tagged, and [None]
    handed to the handler. *)
Lemma image_verdicts_are_not_returned_witness :
  ∃ w', handler Fixtures.studio Fixtures.one_image Fixtures.empty_world
        = (w', Success PyNone)
        ∧ ∃ w1 w2 preprocessed_jobs scan_results,
            preprocess_media Fixtures.studio "images" (jobs Fixtures.one_image) "round-1"
              Fixtures.empty_world = (w1, Return preprocessed_jobs)
            ∧ scan_images Fixtures.studio preprocessed_jobs w1 = (w2, Return scan_results)
            ∧ Forall2 verdict_of_job preprocessed_jobs scan_results
            ∧ length scan_results = 1%nat.
Proof.
  destruct (analyze_media Fixtures.studio Fixtures.one_image Fixtures.empty_world)
    as [w' [r|e]] eqn:E; pose proof E as E'; vm_compute in E'; [|discriminate E'].
  destruct (image_verdicts_are_not_returned Fixtures.studio Fixtures.one_image
              Fixtures.empty_world w' r eq_refl E)
    as (-> & Hh & w1 & w2 & pre & res & Hpre & Hscan & HF).
  exists w'. split; [exact Hh|]. exists w1, w2, pre, res.
  split; [exact Hpre|]. split; [exact Hscan|]. split; [exact HF|].
  apply Forall2_length in HF. rewrite <- HF.
  vm_compute in Hpre. by injection Hpre as <- <-.
Defined.

(** C2: after a video request the Round's working directory is still on
    disk, whether the request succeeds or fails; only an image request
    that succeeds reaches the removal. *)
Theorem round_directory_is_left_behind :
  (∃ w' verdict,
      handler Fixtures.studio Fixtures.one_video Fixtures.empty_world
      = (w', Success (ResultsDict [verdict]))
      ∧ "/tmp/data/round-1" ∈ w_dirs w')
  ∧ (∃ w' message,
        handler Fixtures.studio Fixtures.slow_then_ok Fixtures.empty_world
        = (w', Error message)
        ∧ "/tmp/data/round-1" ∈ w_dirs w')
  ∧ (∃ w',
        handler Fixtures.studio Fixtures.one_image Fixtures.empty_world
        = (w', Success PyNone)
        ∧ "/tmp/data/round-1" ∉ w_dirs w').
Proof.
  split; [|split].
  - destruct (handler Fixtures.studio Fixtures.one_video Fixtures.empty_world)
      as [w' r] eqn:E; vm_compute in E. injection E as <- <-.
    eexists _, _. split; [reflexivity|]. by_evaluation.
  - destruct (handler Fixtures.studio Fixtures.slow_then_ok Fixtures.empty_world)
      as [w' r] eqn:E; vm_compute in E. injection E as <- <-.
    eexists _, _. split; [reflexivity|]. by_evaluation.
  - destruct (handler Fixtures.studio Fixtures.one_image Fixtures.empty_world)
      as [w' r] eqn:E; vm_compute in E. injection E as <- <-.
    eexists. split; [reflexivity|]. by_refutation.
Qed.

(** C3 as stated fails: the 5 fps video of job 1 makes extraction raise,
    and the request reports no result for job 2, which on its own yields
    a Verdict. *)
Lemma sibling_jobs_counterexample :
  ¬ (∃ w' returned,
        handler Fixtures.studio Fixtures.slow_then_ok Fixtures.empty_world
        = (w', Success returned))
  ∧ ∃ w' verdict,
      handler Fixtures.studio Fixtures.only_ok Fixtures.empty_world
      = (w', Success (ResultsDict [verdict])).
Proof.
  split.
  - intros (w' & returned & H). vm_compute in H. discriminate H.
  - destruct (handler Fixtures.studio Fixtures.only_ok Fixtures.empty_world)
      as [w' r] eqn:E; vm_compute in E. injection E as <- <-.
    by eexists _, _.
Qed.

(** C3, amended, at the same request. *)
Lemma extraction_error_fails_the_request_witness :
  ∃ w2, handler Fixtures.studio Fixtures.slow_then_ok Fixtures.empty_world
        = (w2, Error "integer division or modulo by zero").
Proof.
  destruct (preprocess_video Fixtures.studio "round-1"
              (Fixtures.job "1" "http://example.com/slow.mp4") [] Fixtures.empty_world)
    as [w2 [out|e]] eqn:E; pose proof E as E'; vm_compute in E'; [discriminate E'|].
  exists w2.
  destruct (extraction_error_fails_the_request Fixtures.studio []
              (Fixtures.job "1" "http://example.com/slow.mp4")
              [Fixtures.job "2" "http://example.com/ok.mp4"]
              [] Fixtures.empty_world Fixtures.empty_world w2 e eq_refl eq_refl E)
    as (_ & _ & H).
  injection E' as _ <-. exact H.
Defined.

(** C4 as stated fails: the 301-second video of job 2 is in the output. *)
Lemma rejected_video_counterexample :
  ¬ (∀ w' out,
        preprocess_media Fixtures.studio "videos" (jobs Fixtures.too_long) "round-1"
          Fixtures.empty_world = (w', Return out) →
        "2" ∉ descriptor_id <$> out).
Proof.
  intros H.
  destruct (preprocess_media Fixtures.studio "videos" (jobs Fixtures.too_long) "round-1"
              Fixtures.empty_world) as [w' [out|e]] eqn:E;
    pose proof E as E'; vm_compute in E'; [|discriminate E'].
  specialize (H w' out eq_refl). injection E' as _ <-. apply H. left.
Qed.

(** C4, amended, at the same job. *)
Lemma rejected_video_is_kept_without_frames_witness :
  (preprocess_video Fixtures.studio "round-1"
     (Fixtures.job "2" "http://example.com/long.mp4") [] Fixtures.empty_world).2
  = Return [VideoJob "2" [] None]
  ∧ "/tmp/data/round-1/videos/2/scene"
    ∉ w_dirs (preprocess_video Fixtures.studio "round-1"
                (Fixtures.job "2" "http://example.com/long.mp4") []
                Fixtures.empty_world).1.
Proof.
  destruct (rejected_video_is_kept_without_frames Fixtures.studio "round-1"
              (Fixtures.job "2" "http://example.com/long.mp4") [] Fixtures.empty_world
              "/tmp/data/round-1/videos/2/long.mp4")
    as (Hrun & _ & _ & Hstaging & _).
  - reflexivity.
  - discriminate.
  - reflexivity.
  - reflexivity.
  - right. right. vm_compute. reflexivity.
  - rewrite Hrun. split; [reflexivity|]. simpl fst.
    intros Hin. apply (Hstaging "scene") in Hin; [|left].
    by apply elem_of_empty in Hin.
Defined.
End PipelineFacts.

(** ** Validation and what preprocessing keeps *)

Module RequestFacts.
Import Pipeline.

(** A job of a [Request] names both keys. *)
Lemma all_have_keys_typed (js : list Job) : all_have_keys (job_event <$> js) = Return true.
Proof. induction js as [|j js IH]; [done|]. simpl. exact IH. Qed.

Lemma all_have_keys_true (js : list Json) :
  all_have_keys js = Return true ↔ Forall names_keys js.
Proof.
  induction js as [|j js IH]; simpl.
  - split; [constructor | done].
  - rewrite Forall_cons. unfold names_keys at 1.
    destruct (py_in "job_id" j) as [[]|e1]; simpl;
      [destruct (py_in "url" j) as [[]|e2]; simpl| |];
      rewrite ?IH; split; first [by intros [[? ?] ?] | done | by intros ?; split ].
Qed.

(** Only the membership tests can raise under [all]. *)
Lemma all_have_keys_raises (js : list Json) e :
  all_have_keys js = Raise e → ∃ msg, e = TypeError msg.
Proof.
  assert (Hin : ∀ key j e', py_in key j = Raise e' → ∃ msg, e' = TypeError msg).
  { intros key [] e'; simpl; intros [= <-]; by eexists. }
  induction js as [|j js IH]; simpl; [done|].
  destruct (py_in "job_id" j) as [[]|e1] eqn:E1; simpl.
  - destruct (py_in "url" j) as [[]|e2] eqn:E2; simpl; [exact IH|done|].
    intros [= <-]. by eapply Hin.
  - done.
  - intros [= <-]. by eapply Hin.
Qed.

Lemma validate_input_accepted (event : Json) :
  validate_input event = Return tt
  ↔ ∃ items ty js,
      event = JDict items
      ∧ dict_get items "type" = Some (JStr ty)
      ∧ dict_get items "jobs" = Some (JList js)
      ∧ ((ty = "videos" ∧ 1 ≤ length js ≤ 10) ∨ (ty = "images" ∧ 1 ≤ length js ≤ 40))
      ∧ Forall names_keys js.
Proof.
  split.
  - unfold validate_input.
    destruct event as [| | | | | |items]; try done.
    destruct (dict_get items "type") as [ty|] eqn:Et; [|done].
    destruct (dict_get items "jobs") as [jobs|] eqn:Ej; [|done].
    destruct ty as [| | | |ty| |]; cbn -[Nat.leb Nat.ltb length]; try done.
    destruct (bool_decide (ty = "videos") || bool_decide (ty = "images")) eqn:Eknown;
      cbn -[Nat.leb Nat.ltb length]; [|done].
    destruct jobs as [| | | | |js|]; try done.
    destruct (Nat.leb_spec 1 (length js)); cbn -[Nat.leb Nat.ltb length]; [|done].
    destruct (Nat.leb_spec (length js) 40); cbn -[Nat.leb Nat.ltb length]; [|done].
    destruct (bool_decide (ty = "videos") && (10 <? length js)%nat) eqn:Ev; [done|].
    destruct (bool_decide (ty = "images") && (40 <? length js)%nat) eqn:Ei; [done|].
    destruct (all_have_keys js) as [[]|e] eqn:Ea; cbn -[Nat.leb Nat.ltb length]; [|done|done].
    intros _. exists items, ty, js. split; [done|]. split; [done|]. split; [done|].
    split; [|by apply all_have_keys_true].
    apply orb_true_iff in Eknown as [->%bool_decide_eq_true| ->%bool_decide_eq_true].
    + left. split; [done|]. simpl in Ev. apply Nat.ltb_ge in Ev. lia.
    + right. split; [done|]. lia.
  - intros (items & ty & js & -> & Et & Ej & Hn & Hk).
    apply all_have_keys_true in Hk. unfold validate_input. rewrite Et, Ej. cbn -[Nat.leb Nat.ltb length].
    rewrite Hk.
    destruct Hn as [[-> Hn]|[-> Hn]]; cbn -[Nat.leb Nat.ltb length];
      destruct (Nat.leb_spec 1 (length js)); try lia;
      destruct (Nat.leb_spec (length js) 40); try lia; cbn -[Nat.leb Nat.ltb length];
      destruct (Nat.ltb_spec 10 (length js)); try lia;
      destruct (Nat.ltb_spec 40 (length js)); try lia; done.
Qed.

(** On the event of a [Request] only the type and the number of jobs
    are left to check. *)
Lemma validate_input_Return req :
  validate_input (event_of req) = Return tt
  ↔ (type req = "videos" ∧ 1 ≤ length (jobs req) ≤ 10)
    ∨ (type req = "images" ∧ 1 ≤ length (jobs req) ≤ 40).
Proof.
  rewrite validate_input_accepted. split.
  - intros (items & ty & js & [= <-] & Et & Ej & Hn & _). simpl in Et, Ej.
    injection Et as <-. injection Ej as <-. by rewrite length_fmap in Hn.
  - intros Hn. eexists _, _, _.
    split; [reflexivity|]. split; [reflexivity|]. split; [reflexivity|].
    rewrite length_fmap. split; [done|]. apply all_have_keys_true, all_have_keys_typed.
Qed.

(** X1: an event is accepted exactly when it is a dictionary whose type
    is the string [videos] or [images], whose jobs are a list of 1 to 10
    entries for videos and of 1 to 40 for images, and every entry answers
    both membership tests with [True]; for the event of a [Request] the
    type and the number of jobs decide; the check for more than 40 image
    jobs never fires, the check of the list's length comes first. *)
Theorem validate_input_accepts (event : Json) :
  (validate_input event = Return tt
   ↔ ∃ items ty js,
       event = JDict items
       ∧ dict_get items "type" = Some (JStr ty)
       ∧ dict_get items "jobs" = Some (JList js)
       ∧ ((ty = "videos" ∧ 1 ≤ length js ≤ 10) ∨ (ty = "images" ∧ 1 ≤ length js ≤ 40))
       ∧ Forall names_keys js)
  ∧ (∀ req : Request,
       validate_input (event_of req) = Return tt
       ↔ (type req = "videos" ∧ 1 ≤ length (jobs req) ≤ 10)
         ∨ (type req = "images" ∧ 1 ≤ length (jobs req) ≤ 40))
  ∧ validate_input event ≠ Raise (ValueError "Too many image jobs: max 40 allowed").
Proof.
  split; [apply validate_input_accepted|]. split; [apply validate_input_Return|].
  unfold validate_input.
  destruct event as [| | | | | |items]; try done.
  destruct (dict_get items "type") as [ty|]; [|done].
  destruct (dict_get items "jobs") as [jobs|]; [|done].
  destruct (in_media_types ty) as [[]|e] eqn:Ek; cbn -[Nat.leb Nat.ltb length]; [|done|].
  - destruct jobs as [| | | | |js|]; try done.
    destruct (Nat.leb_spec 1 (length js)); cbn -[Nat.leb Nat.ltb length]; [|done].
    destruct (Nat.leb_spec (length js) 40); cbn -[Nat.leb Nat.ltb length]; [|done].
    destruct (py_eq_str ty "videos" && (10 <? length js)%nat); [done|].
    destruct (Nat.ltb_spec 40 (length js)); [lia|]. rewrite andb_false_r.
    destruct (all_have_keys js) as [[]|e] eqn:Ea; cbn -[Nat.leb Nat.ltb length]; [done|done|].
    apply all_have_keys_raises in Ea as [msg ->]. done.
  - destruct ty; simpl in Ek; try discriminate Ek; injection Ek as <-; done.
Qed.

(** X2: a request that fails validation is refused before anything is
    downloaded, created or waited for: the world is untouched and the
    handler answers with the validation message. *)
Theorem invalid_request_leaves_no_trace env req w e :
  validate_input (event_of req) = Raise e →
  analyze_media env req w = (w, Raise e)
  ∧ handler env req w = (w, Error (exn_str e)).
Proof.
  intros Hv.
  assert (H : analyze_media env req w = (w, Raise e)).
  { unfold analyze_media. unfold mbind at 1. unfold M_bind, bind, lift. by rewrite Hv. }
  split; [done|]. unfold handler. by rewrite H.
Qed.

Lemma preprocess_video_step env round_id job acc w w' out :
  preprocess_video env round_id job acc w = (w', Return out) →
  out = acc ∨ ∃ d, out = acc ++ [d] ∧ video_entry job d.
Proof.
  unfold preprocess_video. unfold mbind at 1. unfold M_bind, bind. simpl.
  assert (Hp : video_entry job (VideoJob (job_id job) [] None)) by (by eexists _, _).
  destruct (download_file env _ _ _ _) as [video_path|]; [|intros [= _ <-]; by left].
  destruct (_ || _); [intros [= _ <-]; by left|].
  destruct (negb _); [intros [= _ <-]; right; by eexists|].
  destruct (_ || _); [intros [= _ <-]; right; by eexists|].
  destruct (Qltb _ _); [intros [= _ <-]; right; by eexists|].
  unfold mbind at 1. unfold M_bind, bind.
  destruct (Extract.extract_video_frames _ _ _ _ _ _) as [w1 [frames|e]]; [|done].
  unfold mbind at 1. unfold M_bind, bind.
  destruct (Extract.wait_for_done _ _ _) as [w2 [meta|e]]; [|done].
  intros [= _ <-]. rewrite PipelineFacts.fill_last_snoc. right. eexists. split; [done|].
  by eexists _, _.
Qed.

Lemma preprocess_image_step env round_id job acc w w' out :
  preprocess_image env round_id job acc w = (w', Return out) →
  out = acc ∨ ∃ d, out = acc ++ [d] ∧ image_entry job d.
Proof.
  unfold preprocess_image. unfold mbind at 1. unfold M_bind, bind. simpl.
  destruct (download_file env _ _ _ _) as [path|]; [|intros [= _ <-]; by left].
  destruct (bool_decide (path = "")) eqn:E1; simpl; [intros [= _ <-]; by left|].
  destruct (allowed ALLOWED_IMAGE_EXTENSIONS path) eqn:E2; simpl;
    [|intros [= _ <-]; by left].
  intros [= _ <-]. right. eexists. split; [done|]. exists path.
  split; [done|]. split; [by apply bool_decide_eq_false in E1|].
  by apply bool_decide_eq_true in E2.
Qed.

(** A loop whose iterations add at most one entry, related to the job by
    [P], yields entries related one to one to a subsequence of the jobs. *)
Lemma for_each_selects (P : Job → Descriptor → Prop)
    (f : Job → list Descriptor → M (list Descriptor)) jobs acc w w' out :
  (∀ job acc w w' out, f job acc w = (w', Return out) →
                       out = acc ∨ ∃ d, out = acc ++ [d] ∧ P job d) →
  for_each f jobs acc w = (w', Return out) →
  ∃ kept added, out = acc ++ added ∧ kept `sublist_of` jobs ∧ Forall2 P kept added.
Proof.
  intros Hf. revert acc w. induction jobs as [|job jobs IH]; intros acc w; simpl.
  - intros [= _ <-]. exists [], []. by rewrite app_nil_r.
  - unfold mbind, M_bind, bind.
    destruct (f job acc w) as [w1 [acc1|e]] eqn:E; [|done].
    intros Hrest. apply IH in Hrest as (kept & added & -> & Hsub & HF).
    apply Hf in E as [->|(d & -> & Hd)].
    + exists kept, added. split; [done|]. split; [by apply sublist_cons|done].
    + exists (job :: kept), (d :: added). rewrite <- app_assoc.
      split; [done|]. split; [by apply sublist_skip | by constructor].
Qed.

Lemma preprocess_media_selects env media_type jobs round_id w w' out :
  preprocess_media env media_type jobs round_id w = (w', Return out) →
  ∃ kept,
    kept `sublist_of` jobs
    ∧ descriptor_id <$> out = job_id <$> kept
    ∧ (media_type = "images" → Forall2 image_entry kept out)
    ∧ (media_type = "videos" → Forall2 video_entry kept out).
Proof.
  unfold preprocess_media. unfold mbind at 1. unfold M_bind, bind, lift.
  destruct (validate_input _) as [[]|] eqn:Hv; [|done].
  apply validate_input_Return in Hv. simpl in Hv.
  destruct Hv as [[-> _]|[-> _]]; simpl; intros Hrun.
  - apply (for_each_selects video_entry) in Hrun as (kept & added & -> & Hsub & HF);
      [|apply preprocess_video_step].
    exists kept. simpl. split; [done|]. split; [|split; [done|by intros _]].
    clear -HF. induction HF as [|job d ? ? (fr & m & -> & _)]; simpl; by f_equal.
  - apply (for_each_selects image_entry) in Hrun as (kept & added & -> & Hsub & HF);
      [|apply preprocess_image_step].
    exists kept. simpl. split; [done|]. split; [|split; [by intros _|done]].
    clear -HF. induction HF as [|job d ? ? (p & -> & _)]; simpl; by f_equal.
Qed.

(** X3: preprocessing keeps the order of the request and adds at most
    one descriptor per job: the descriptors are those of a subsequence of
    the jobs, in order and under the jobs' ids; an image descriptor has a
    non-empty path with an allowed image extension; a video descriptor
    without metadata has no frames. *)
Theorem preprocess_media_keeps_order env media_type jobs round_id w w' out :
  preprocess_media env media_type jobs round_id w = (w', Return out) →
  ∃ kept,
    kept `sublist_of` jobs
    ∧ descriptor_id <$> out = job_id <$> kept
    ∧ (media_type = "images" → Forall2 image_entry kept out)
    ∧ (media_type = "videos" → Forall2 video_entry kept out).
Proof. apply preprocess_media_selects. Qed.

Lemma scan_video_jobs_length env pre results w w' out :
  for_each (scan_video_job env) pre results w = (w', Return out) →
  length out ≤ length results + length pre.
Proof.
  revert results w. induction pre as [|d pre IH]; intros results w; simpl.
  - intros [= _ <-]. lia.
  - unfold mbind, M_bind, bind.
    destruct (scan_video_job env d results w) as [w1 [r1|e]] eqn:E; [|done].
    intros H. apply IH in H.
    assert (length r1 ≤ length results + 1); [|lia].
    revert E. unfold scan_video_job.
    destruct (match d with VideoJob _ fs _ => fs | _ => [] end);
      [intros [= _ <-]; lia|].
    unfold mbind, M_bind, bind.
    destruct (Scan.scan_frames _ _ _ _) as [w2 [[|fr frs]|e]]; [| |done];
      intros [= _ <-]; rewrite ?length_app; simpl; lia.
Qed.

(** X4: a request that succeeds hands back [None] only for images and a
    result list only for videos, and the list has at most one Verdict per
    requested job, so at most 10. *)
Theorem at_most_one_result_per_job env request w w' returned :
  handler env request w = (w', Success returned) →
  match returned with
  | PyNone => type request = "images"
  | ResultsDict results =>
      type request = "videos" ∧ length results ≤ length (jobs request) ≤ 10
  end.
Proof.
  unfold handler.
  destruct (analyze_media env request w) as [w1 [r|e]] eqn:E; [|done].
  intros [= _ <-]. revert E. unfold analyze_media.
  unfold mbind at 1. unfold M_bind, bind, lift.
  destruct (validate_input (event_of request)) as [[]|] eqn:Hv; [|done].
  apply validate_input_Return in Hv.
  unfold mbind at 1. unfold M_bind, bind.
  destruct (preprocess_media env (type request) (jobs request) (uuid4 env) w)
    as [w2 [pre|e]] eqn:Epre; [|done].
  apply preprocess_media_selects in Epre as (kept & Hsub & Hids & _).
  assert (Hlen : length pre ≤ length (jobs request)).
  { apply sublist_length in Hsub.
    apply (f_equal length) in Hids. rewrite !length_fmap in Hids. lia. }
  unfold mbind at 1. unfold M_bind, bind, dispatch.
  destruct Hv as [[Ht Hn]|[Ht Hn]]; rewrite Ht; simpl.
  - unfold mbind at 1. unfold M_bind, bind.
    destruct (for_each (scan_video_job env) pre [] w2) as [w3 [vs|e]] eqn:Es; [|done].
    simpl. intros [= _ <-]. apply scan_video_jobs_length in Es. simpl in Es.
    split; [done|]. lia.
  - unfold mbind at 1. unfold M_bind, bind.
    destruct (scan_images env pre w2) as [w3 [vs|e]]; [|done]. simpl.
    unfold mbind at 1. unfold M_bind, bind.
    destruct (rmtree env _ w3) as [w4 [[]|e]]; [|done]. by intros [= _ <-].
Qed.

(** X1 at concrete inputs: a job that is a sentence naming both keys, and
    the event of one image job. *)
Lemma validate_input_accepts_witness :
  validate_input Fixtures.loose_event = Return tt
  ∧ validate_input (event_of Fixtures.one_image) = Return tt.
Proof.
  destruct (validate_input_accepts Fixtures.loose_event) as (Hraw & _ & _).
  destruct (validate_input_accepts (event_of Fixtures.one_image)) as (_ & Htyped & _).
  split.
  - apply Hraw. eexists _, "images", _.
    split; [reflexivity|]. split; [reflexivity|]. split; [reflexivity|].
    split; [right; split; [reflexivity | simpl; lia]|].
    constructor; [split; reflexivity | constructor].
  - apply Htyped. right. split; [reflexivity | simpl; lia].
Defined.

(** X2 at a concrete input: a request for audio. *)
Lemma invalid_request_leaves_no_trace_witness :
  handler Fixtures.studio Fixtures.one_audio Fixtures.empty_world
  = (Fixtures.empty_world, Error "Invalid type: must be 'videos' or 'images'").
Proof.
  apply (invalid_request_leaves_no_trace Fixtures.studio Fixtures.one_audio
           Fixtures.empty_world
           (ValueError "Invalid type: must be 'videos' or 'images'")).
  reflexivity.
Defined.

(** X3 at a concrete input: the text file between two images is dropped. *)
Lemma preprocess_media_keeps_order_witness :
  ∃ w' kept,
    preprocess_media Fixtures.studio "images" (jobs Fixtures.mixed_images) "round-1"
      Fixtures.empty_world
    = (w', Return [ImageJob "1" "/tmp/data/round-1/images/1a.jpg";
                   ImageJob "3" "/tmp/data/round-1/images/3c.png"])
    ∧ kept `sublist_of` jobs Fixtures.mixed_images
    ∧ job_id <$> kept = ["1"; "3"].
Proof.
  destruct (preprocess_media Fixtures.studio "images" (jobs Fixtures.mixed_images)
              "round-1" Fixtures.empty_world) as [w' [out|e]] eqn:E;
    pose proof E as E'; vm_compute in E'; [|discriminate E'].
  injection E' as _ <-.
  destruct (preprocess_media_keeps_order _ _ _ _ _ _ _ E) as (kept & Hsub & Hids & _).
  exists w', kept. split; [reflexivity|]. split; [exact Hsub|]. symmetry. exact Hids.
Defined.

(** X4 at a concrete input: one video, one Verdict. *)
Lemma at_most_one_result_per_job_witness :
  ∃ w' results,
    handler Fixtures.studio Fixtures.one_video Fixtures.empty_world
    = (w', Success (ResultsDict results))
    ∧ length results ≤ 1.
Proof.
  destruct (handler Fixtures.studio Fixtures.one_video Fixtures.empty_world)
    as [w' [[|results]|msg]] eqn:E;
    pose proof E as E'; vm_compute in E'; try discriminate E'.
  destruct (at_most_one_result_per_job _ _ _ _ _ E) as [_ [H _]].
  exists w', results. split; [reflexivity | exact H].
Defined.

End RequestFacts.

(** ** The wait for the marker *)

Module ReadinessFacts.
Import Extract.

Lemma ticks_ge lag (k : nat) t : (t + 1000 * Z.of_nat k ≤ ticks lag k t)%Z.
Proof.
  revert t. induction k as [|k IH]; intros t; simpl; [lia|].
  specialize (IH (t + (1000 + Z.of_nat (lag t)))%Z). lia.
Qed.

Lemma ticks_gt lag (k : nat) t :
  (∀ t', (0 < lag t')%nat) → (t + 1001 * Z.of_nat k ≤ ticks lag k t)%Z.
Proof.
  intros Hlag. revert t. induction k as [|k IH]; intros t; simpl; [lia|].
  specialize (IH (t + (1000 + Z.of_nat (lag t)))%Z). specialize (Hlag t). lia.
Qed.

Lemma ticks_exact lag (k : nat) t :
  (∀ t', lag t' = 0%nat) → ticks lag k t = (t + 1000 * Z.of_nat k)%Z.
Proof.
  intros Hlag. revert t. induction k as [|k IH]; intros t; simpl; [lia|].
  rewrite IH, Hlag. lia.
Qed.

(** With fuel for what is left of the timeout the loop gives up at the
    first check that finds the timeout over. *)
Lemma wait_loop_times_out (fuel : nat) lag done_path start w :
  w_markers w !! done_path = None →
  (60000 - (w_clock w - start) < 1000 * Z.of_nat fuel)%Z →
  ∃ k : nat,
    (k ≤ fuel)%nat
    ∧ wait_loop fuel lag done_path 60000 start w
      = (advance (ticks lag k (w_clock w) - w_clock w) w,
         Raise (TimeoutError ("Timed out waiting for " +:+ done_path)))
    ∧ (60000 < ticks lag k (w_clock w) - start)%Z
    ∧ ∀ j : nat, (j < k)%nat → (ticks lag j (w_clock w) - start ≤ 60000)%Z.
Proof.
  revert w. induction fuel as [|fuel IH]; intros w Hm Hf.
  - exists 0%nat. simpl. rewrite Hm.
    replace (60000 <? w_clock w - start)%Z with true by (symmetry; apply Z.ltb_lt; lia).
    rewrite Z.sub_diag, BarrierFacts.advance_0.
    split; [done|]. split; [done|]. split; [lia | intros; lia].
  - simpl. rewrite Hm.
    destruct (Z.ltb_spec 60000 (w_clock w - start)) as [Hover|Hin].
    + exists 0%nat. simpl. rewrite Z.sub_diag, BarrierFacts.advance_0.
      split; [lia|]. split; [done|]. split; [lia | intros; lia].
    + unfold mbind, M_bind, bind, sleep.
      destruct (IH (advance (1000 + Z.of_nat (lag (w_clock w))) w)) as (k & Hk & Hrun & Hout & Hbefore);
        [done | simpl; lia |].
      exists (S k). simpl in *. rewrite Hrun, BarrierFacts.advance_advance.
      split; [lia|]. split; [do 2 f_equal; lia|]. split; [done|].
      intros [|j] Hj; simpl; [lia|]. apply Hbefore. lia.
Qed.

(** X5: [wait_for_done] returns the marker at once when it is there.
    When it is not, nothing writes it while the loop polls, and the loop
    gives up with a TimeoutError at its first check later than 60 s after
    the start, changing nothing but the clock: after 61 sleeps at the
    most, after at most 60 when every turn takes any time beside its
    second of sleep, as on a wall clock, and after 61 only when none does. *)
Theorem wait_for_done_bounded lag done_path w :
  match w_markers w !! done_path with
  | Some meta => wait_for_done lag done_path w = (w, Return meta)
  | None =>
      ∃ k : nat,
        (1 ≤ k ≤ 61)%nat
        ∧ wait_for_done lag done_path w
          = (advance (ticks lag k (w_clock w) - w_clock w) w,
             Raise (TimeoutError ("Timed out waiting for " +:+ done_path)))
        ∧ (60000 < ticks lag k (w_clock w) - w_clock w)%Z
        ∧ (∀ j : nat, (j < k)%nat → (ticks lag j (w_clock w) - w_clock w ≤ 60000)%Z)
        ∧ ((∀ t, (0 < lag t)%nat) → (k ≤ 60)%nat)
        ∧ ((∀ t, lag t = 0%nat) → k = 61%nat)
  end.
Proof.
  unfold wait_for_done, mbind, M_bind, bind, now.
  destruct (w_markers w !! done_path) as [meta|] eqn:E.
  - simpl. by rewrite E.
  - destruct (wait_loop_times_out 61 lag done_path (w_clock w) w)
      as (k & Hk & Hrun & Hout & Hbefore); [done | lia |].
    exists k.
    assert (Hpos : (1 ≤ k)%nat).
    { destruct k; [simpl in Hout; lia | lia]. }
    split; [lia|]. split; [done|]. split; [done|]. split; [done|]. split.
    + intros Hlag. pose proof (ticks_gt lag (k - 1) (w_clock w) Hlag) as Hlow.
      specialize (Hbefore (k - 1)%nat). lia.
    + intros Hlag. rewrite (ticks_exact lag k) in Hout by done. lia.
Qed.

(** X5 at a concrete input: with 3 ms beside every sleep the sixtieth
    sleep ends the wait. *)
Lemma wait_for_done_bounded_witness :
  wait_for_done (λ _, 3%nat) "/v/done.json" Fixtures.empty_world
  = (advance 60180 Fixtures.empty_world,
     Raise (TimeoutError "Timed out waiting for /v/done.json")).
Proof.
  pose proof (wait_for_done_bounded (λ _, 3%nat) "/v/done.json" Fixtures.empty_world) as H.
  cbv beta iota in H. change (w_markers Fixtures.empty_world !! "/v/done.json")
    with (@None DoneData) in H. cbv beta iota in H.
  destruct H as (k & [Hk1 Hk2] & Hrun & Hout & Hbefore & Hreal & _).
  assert (Hk : k = 60%nat).
  { assert (k ≤ 60)%nat by (apply Hreal; intros; lia).
    assert (Hlow : ∀ n t, ticks (λ _, 3%nat) n t = (t + 1003 * Z.of_nat n)%Z).
    { induction n as [|n IH]; intros t; simpl; [lia|]. rewrite IH. lia. }
    rewrite Hlow in Hout. lia. }
  subst k. rewrite Hrun. reflexivity.
Defined.

Lemma extract_writes_marker env video_path output_dir max_fps max_spike w w' frames :
  extract_video_frames env video_path output_dir max_fps max_spike w = (w', Return frames) →
  ∃ m, w_markers w' !! path_join output_dir "done.json" = Some m
       ∧ total_frames m = Z.of_nat (length frames)
       ∧ d_output_dir m = output_dir
       ∧ d_final_dir m = path_join output_dir "final".
Proof.
  unfold extract_video_frames.
  unfold mbind at 1. unfold M_bind, bind, now.
  unfold mbind at 1. unfold M_bind, bind.
  destruct (make_staging output_dir w) as [w0 [[]|e]]; [|done].
  unfold mbind at 1. unfold M_bind, bind, sleep.
  unfold mbind at 1. unfold M_bind, bind, lift.
  destruct (run_strategies _ _) as [staged|e]; [|done].
  unfold mbind at 1. unfold M_bind, bind.
  unfold mbind at 1. unfold M_bind, bind.
  destruct (confirm_frames env _ _) as [w1 [[]|e]]; [|done].
  unfold mbind at 1. unfold M_bind, bind, write_done. simpl.
  intros [= <- <-]. eexists. split; [apply lookup_insert_eq|]. done.
Qed.

(** X6: after an extraction that returned, the wait for [done.json] in
    its output directory returns without sleeping, with the marker the
    extraction wrote: its frame count is the number of returned frames. *)
Theorem readiness_wait_never_blocks env lag video_path output_dir max_fps max_spike
    w w' frames :
  extract_video_frames env video_path output_dir max_fps max_spike w = (w', Return frames) →
  ∃ m, wait_for_done lag (path_join output_dir "done.json") w' = (w', Return m)
       ∧ total_frames m = Z.of_nat (length frames)
       ∧ d_output_dir m = output_dir
       ∧ d_final_dir m = path_join output_dir "final".
Proof.
  intros (m & Hm & Hrest)%extract_writes_marker. exists m. split; [|done].
  unfold wait_for_done, mbind, M_bind, bind, now. simpl. by rewrite Hm.
Qed.

(** X6 at a concrete input: a three-second clip. *)
Lemma readiness_wait_never_blocks_witness :
  ∃ w' m,
    extract_video_frames Fixtures.studio "/v/ok.mp4" "/v" 60 30 Fixtures.empty_world
    = (w', Return ["/v/final/aa.jpg"; "/v/final/bb.jpg"; "/v/final/cc.jpg"])
    ∧ wait_for_done (poll_lag Fixtures.studio) "/v/done.json" w' = (w', Return m)
    ∧ total_frames m = 3%Z.
Proof.
  destruct (extract_video_frames Fixtures.studio "/v/ok.mp4" "/v" 60 30
              Fixtures.empty_world) as [w' [frames|e]] eqn:E;
    pose proof E as E'; vm_compute in E'; [|discriminate E'].
  injection E' as _ <-.
  destruct (readiness_wait_never_blocks _ (poll_lag Fixtures.studio) _ _ _ _ _ _ _ E)
    as (m & Hw & Ht & _).
  exists w', m. split; [reflexivity|]. split; [exact Hw | exact Ht].
Defined.

End ReadinessFacts.

(** ** The presence check, degraded scans and batching *)

Module DispatcherFacts.
Import Scan.

Lemma await_frames_spec env (n : nat) paths last w :
  ∃ k : nat,
    (k ≤ n)%nat
    ∧ (∀ j : nat, (j < k)%nat →
         missing_frames env paths (advance (500 * Z.of_nat j) w) ≠ [])
    ∧ (((k < n)%nat
        ∧ missing_frames env paths (advance (500 * Z.of_nat k) w) = []
        ∧ await_frames env n paths last w = (advance (500 * Z.of_nat k) w, Return tt))
       ∨ (k = n
          ∧ await_frames env n paths last w
            = (advance (500 * Z.of_nat n) w,
               Raise (RuntimeError
                        ("[ERROR] Final frames missing: "
                         +:+ py_repr match n with
                                     | O => last
                                     | S n' => missing_frames env paths
                                                 (advance (500 * Z.of_nat n') w)
                                     end))))).
Proof.
  revert last w. induction n as [|n IH]; intros last w.
  - exists 0%nat. split; [lia|]. split; [intros; lia|]. right.
    split; [done|]. simpl. by rewrite BarrierFacts.advance_0.
  - assert (Hadv : ∀ i : nat, advance (500 * Z.of_nat i) (advance 500 w)
                             = advance (500 * Z.of_nat (S i)) w).
    { intros i. rewrite BarrierFacts.advance_advance. f_equal. lia. }
    assert (Hstep : await_frames env (S n) paths last w
                    = match missing_frames env paths w with
                      | [] => (w, Return tt)
                      | m => await_frames env n paths m (advance 500 w)
                      end).
    { simpl. unfold mbind, M_bind, bind, observe_missing, sleep.
      by destruct (missing_frames env paths w). }
    rewrite Hstep. clear Hstep.
    destruct (missing_frames env paths w) as [|p ps] eqn:E.
    + exists 0%nat. split; [lia|]. split; [intros; lia|]. left.
      simpl. rewrite BarrierFacts.advance_0. split; [lia|]. done.
    + destruct (IH (p :: ps) (advance 500 w)) as (k & Hk & Hbefore & Hexit).
      exists (S k). split; [lia|]. split.
      * intros [|j] Hj; [by rewrite BarrierFacts.advance_0, E|].
        rewrite <- Hadv. apply Hbefore. lia.
      * rewrite <- !Hadv.
        destruct Hexit as [(Hlt & Hm & Hrun)|(-> & Hrun)].
        -- left. split; [lia|]. done.
        -- right. split; [done|]. rewrite Hrun. do 4 f_equal.
           destruct n as [|n]; [by rewrite BarrierFacts.advance_0, E|].
           by rewrite Hadv.
Qed.

Lemma scan_frames_unfold env media_type frame_paths w :
  frame_paths ≠ [] →
  scan_frames env media_type frame_paths w
  = match await_frames env 5 frame_paths [] w with
    | (w1, Return _) =>
        match classify_and_shape env media_type frame_paths with
        | Return results => (w1, Return results)
        | Raise e => (w1, traverse (degraded_result env e) frame_paths)
        end
    | (w1, Raise e) => (w1, Raise e)
    end.
Proof.
  intros Hne. unfold scan_frames. destruct frame_paths as [|p0 ps] eqn:Ep; [done|].
  rewrite <- Ep. unfold mbind, M_bind, bind.
  destruct (await_frames env 5 frame_paths [] w) as [w1 [[]|e]]; [|done].
  by destruct (classify_and_shape env media_type frame_paths).
Qed.

(** Every path that passed the presence check gets its error-tagged result. *)
Lemma degraded_results env e frame_paths :
  (∀ p, p ∈ frame_paths → p ≠ "") →
  ∃ results, traverse (degraded_result env e) frame_paths = Return results
             ∧ Forall2 (error_tagged e) frame_paths results.
Proof.
  intros Hne.
  destruct (ScanFacts.traverse_total (degraded_result env e) frame_paths) as [results Hres].
  { intros p Hp. unfold degraded_result.
    destruct (ScanFacts.relpath_total (cwd env) p "/data") as [rel ->]; [by apply Hne|].
    by eexists. }
  exists results. split; [done|].
  eapply ScanFacts.traverse_Forall2; [|exact Hres].
  intros p r _. unfold degraded_result.
  destruct (relpath (cwd env) p "/data"); simpl; [|done].
  intros [= <-]. by repeat split.
Qed.

(** X7: the presence check of [scan_frames] looks at most five times,
    500 ms apart, each further look being taken because a frame was
    missing; when a look finds every frame the scan returns in that
    world, whatever the classifier does; when the fifth look still misses
    one it raises RuntimeError 2.5 s after the first, naming the frames
    the fifth look missed. *)
Theorem presence_check_is_bounded env media_type frame_paths w :
  frame_paths ≠ [] →
  ∃ k : nat,
    (k ≤ 5)%nat
    ∧ (∀ j : nat, (j < k)%nat →
         ∃ p, p ∈ frame_paths
              ∧ path_exists env (advance (500 * Z.of_nat j) w) p = false)
    ∧ (((k < 5)%nat
        ∧ (∀ p, p ∈ frame_paths
                → path_exists env (advance (500 * Z.of_nat k) w) p = true)
        ∧ ∃ results, scan_frames env media_type frame_paths w
                     = (advance (500 * Z.of_nat k) w, Return results))
       ∨ (k = 5%nat
          ∧ scan_frames env media_type frame_paths w
            = (advance 2500 w,
               Raise (RuntimeError
                        ("[ERROR] Final frames missing: "
                         +:+ py_repr (missing_frames env frame_paths (advance 2000 w))))))).
Proof.
  intros Hne.
  destruct (await_frames_spec env 5 frame_paths [] w) as (k & Hk & Hbefore & Hexit).
  exists k. split; [done|]. split.
  { intros j Hj. by apply BarrierFacts.missing_frames_cons, Hbefore. }
  rewrite scan_frames_unfold by done.
  destruct Hexit as [(Hlt & Hm & ->)|(-> & ->)].
  - left. split; [done|]. split; [by apply BarrierFacts.missing_frames_nil|].
    destruct (classify_and_shape env media_type frame_paths) as [rs|e]; [by eexists|].
    unfold lift.
    destruct (ScanFacts.traverse_total (degraded_result env e) frame_paths) as [rs ->];
      [|by eexists].
    intros p Hp. unfold degraded_result.
    destruct (ScanFacts.relpath_total (cwd env) p "/data") as [rel ->]; [|by eexists].
    eapply ScanFacts.path_exists_nonempty.
    by apply (proj1 (BarrierFacts.missing_frames_nil env frame_paths _) Hm).
  - right. split; [done|]. done.
Qed.

(** X8: whenever [scan_frames] returns, normally or degraded, it returns
    one result per path, in the order of the paths, each under its path's
    base name, and each flagged exactly when its score exceeds 0.5. *)
Theorem scan_frames_answers_every_path env media_type frame_paths w w' results :
  scan_frames env media_type frame_paths w = (w', Return results) →
  Forall2 (λ p r, filename r = basename p ∧ flag_matches_score r) frame_paths results
  ∧ length results = length frame_paths.
Proof.
  intros Hrun.
  pose proof (PipelineFacts.scan_frames_in_order _ _ _ _ _ _ Hrun) as Hord.
  pose proof (ScanFacts.scan_frames_flags _ _ _ _ _ _ Hrun) as Hflags.
  split; [|symmetry; by eapply Forall2_length].
  clear Hrun. induction Hord as [|p r ps rs Hp Hrest IH]; [constructor|].
  apply Forall_cons in Hflags as [? ?]. constructor; [done | by apply IH].
Qed.





Lemma traverse_rows (g : string → ScoreDict) (φ : nat → nat) (rows : list ScoreDict)
    (l : list string) :
  (∀ j p, l !! j = Some p → rows !! φ j = Some (g p)) →
  traverse (λ jp : nat * string, score_row rows jp.1 jp.2) (imap (λ j p, (φ j, p)) l)
  = Return ((λ p, scored_as (g p) p) <$> l).
Proof.
  revert φ. induction l as [|p l IH]; intros φ Hrows; simpl; [done|].
  assert (Hrow : score_row rows (φ 0%nat) p = Return (scored_as (g p) p)).
  { unfold score_row. by rewrite (Hrows 0%nat p eq_refl). }
  rewrite Hrow. simpl.
  pose proof (IH (φ ∘ S) (λ j q Hq, Hrows (S j) q Hq)) as Hrest.
  simpl in Hrest. unfold compose. by rewrite Hrest.
Qed.

Lemma scan_batches_pointwise (g : string → ScoreDict) fuel env paths :
  (∀ ps, classify_batch env ps = Return (g <$> ps)) →
  (length paths ≤ fuel)%nat →
  scan_batches fuel env paths = Return ((λ p, scored_as (g p) p) <$> paths).
Proof.
  intros Hc. revert paths. induction fuel as [|fuel IH]; intros paths Hfuel.
  - destruct paths; [done | simpl in Hfuel; lia].
  - destruct (decide (paths = [])) as [->|Hne]; [done|].
    rewrite ScanFacts.scan_batches_S by done. rewrite Hc. simpl.
    rewrite (traverse_rows g id).
    2:{ intros j p Hj. unfold id. by rewrite list_lookup_fmap, Hj. }
    simpl. rewrite IH.
    2:{ rewrite length_drop. unfold batch_size.
        destruct paths; [done | simpl in *; lia]. }
    simpl. by rewrite <- fmap_app, take_drop.
Qed.

(** X10: batching is transparent: with a classifier that scores each
    image on its own, the scan returns for every path, in order, the
    path, its nsfw score (0.0 when the key is absent), the flag
    [score > 0.5] and the score dictionary, whatever the number of paths. *)
Theorem batching_is_transparent (g : string → ScoreDict) env image_paths :
  (∀ ps, classify_batch env ps = Return (g <$> ps)) →
  scan_images_for_nsfw env image_paths
  = Return ((λ p, scored_as (g p) p) <$> image_paths).
Proof.
  intros Hc. unfold scan_images_for_nsfw.
  destruct image_paths as [|p ps] eqn:E; [done|]. rewrite <- E.
  by apply scan_batches_pointwise.
Qed.

(** X7 at a concrete input: a disk that shows files 1.8 s late. *)
Lemma presence_check_is_bounded_witness :
  ∃ k : nat,
    (k ≤ 5)%nat
    ∧ (∀ j : nat, (j < k)%nat →
         ∃ p, p ∈ ["/v/final/aa.jpg"]
              ∧ path_exists Fixtures.studio_slow_disk
                  (advance (500 * Z.of_nat j) Fixtures.empty_world) p = false)
    ∧ (((k < 5)%nat
        ∧ (∀ p, p ∈ ["/v/final/aa.jpg"]
                → path_exists Fixtures.studio_slow_disk
                    (advance (500 * Z.of_nat k) Fixtures.empty_world) p = true)
        ∧ ∃ results, scan_frames Fixtures.studio_slow_disk "videos" ["/v/final/aa.jpg"]
                       Fixtures.empty_world
                     = (advance (500 * Z.of_nat k) Fixtures.empty_world, Return results))
       ∨ (k = 5%nat
          ∧ scan_frames Fixtures.studio_slow_disk "videos" ["/v/final/aa.jpg"]
              Fixtures.empty_world
            = (advance 2500 Fixtures.empty_world,
               Raise (RuntimeError
                        ("[ERROR] Final frames missing: "
                         +:+ py_repr (missing_frames Fixtures.studio_slow_disk
                                        ["/v/final/aa.jpg"]
                                        (advance 2000 Fixtures.empty_world))))))).
Proof.
  apply (presence_check_is_bounded Fixtures.studio_slow_disk "videos"
           ["/v/final/aa.jpg"] Fixtures.empty_world).
  discriminate.
Defined.

(** X8 at a concrete input: two frames. *)
Lemma scan_frames_answers_every_path_witness :
  ∃ results,
    scan_frames Fixtures.studio "videos" ["/v/final/aa.jpg"; "/v/final/bb.jpg"]
      Fixtures.empty_world
    = (Fixtures.empty_world, Return results)
    ∧ Forall2 (λ p r, filename r = basename p ∧ flag_matches_score r)
        ["/v/final/aa.jpg"; "/v/final/bb.jpg"] results
    ∧ length results = 2%nat.
Proof.
  destruct (scan_frames Fixtures.studio "videos" ["/v/final/aa.jpg"; "/v/final/bb.jpg"]
              Fixtures.empty_world) as [w' [results|e]] eqn:E;
    pose proof E as E'; vm_compute in E'; [|discriminate E'].
  injection E' as <- _.
  destruct (scan_frames_answers_every_path _ _ _ _ _ _ E) as [HF Hlen].
  exists results. split; [reflexivity|]. split; [exact HF | exact Hlen].
Defined.


(** X10 at a concrete input: forty paths, two batches. *)
Lemma batching_is_transparent_witness :
  scan_images_for_nsfw Fixtures.studio Fixtures.forty_paths
  = Return ((λ p, scored_as (Fixtures.scores_of p) p) <$> Fixtures.forty_paths).
Proof.
  apply (batching_is_transparent Fixtures.scores_of Fixtures.studio Fixtures.forty_paths).
  intros ps. reflexivity.
Defined.

End DispatcherFacts.

(** ** A degraded scan in a video Verdict *)

Module DegradedVerdictFacts.
Import Pipeline.

Lemma most_nsfw_from_all_zero best l :
  Scan.nsfw_score best = 0%Q → Forall (λ f, Scan.nsfw_score f = 0%Q) l →
  most_nsfw_from best l = best.
Proof.
  intros Hb HF. induction HF as [|f l Hf _ IH]; simpl; [done|].
  by rewrite Hb, Hf.
Qed.

Lemma score_sum_all_zero l :
  Forall (λ f, Scan.nsfw_score f = 0%Q) l → (score_sum l == 0)%Q.
Proof.
  intros HF. unfold score_sum. rewrite AggregateFacts.score_sum_foldr.
  induction HF as [|f l Hf _ IH]; simpl; [done|]. rewrite Hf. lra.
Qed.

Lemma py_round_4_zero x : (x == 0)%Q → (py_round x 4 == 0)%Q.
Proof.
  intros Hx. destruct (RoundFacts.py_round_4 x) as [[z Hz] Hclose].
  apply Qabs_Qle_condition in Hclose. rewrite Hz, Hx in Hclose.
  destruct Hclose as [H1 H2]. rewrite Hz.
  unfold Qle, Qminus, Qplus, Qopp in H1, H2. simpl in H1, H2.
  assert (z = 0)%Z as -> by lia. done.
Qed.

(** X11: a classifier failure is invisible in a video Verdict: when the
    frames are on disk and classification raises, the job still gets a
    Verdict, and it reads not-NSFW with maximum and average score 0, no
    probabilities, the full frame count and no error. *)
Theorem classifier_failure_is_silent_in_video_verdict
    env id frames meta video_results w w1 e :
  frames ≠ [] →
  Scan.await_frames env 5 frames [] w = (w1, Return tt) →
  Scan.classify_and_shape env "videos" frames = Raise e →
  ∃ verdict,
    scan_video_job env (VideoJob id frames meta) video_results w
    = (w1, Return (video_results ++ [verdict]))
    ∧ is_nsfw verdict = false
    ∧ nsfw_score_max verdict = 0%Q
    ∧ (nsfw_score_avg verdict == 0)%Q
    ∧ full_probs verdict = ∅
    ∧ frame_count verdict = Z.of_nat (length frames)
    ∧ error verdict = None.
Proof.
  intros Hne Hawait Hraise.
  destruct (DispatcherFacts.degraded_results env e frames) as (rs & Hres & HF).
  { intros p Hp. eapply ScanFacts.path_exists_nonempty, ScanFacts.await_frames_returns; done. }
  assert (Hscan : Scan.scan_frames env "videos" frames w = (w1, Return rs)).
  { rewrite DispatcherFacts.scan_frames_unfold by done. by rewrite Hawait, Hraise, Hres. }
  assert (Hlen : length rs = length frames) by (symmetry; by eapply Forall2_length).
  assert (Hzero : Forall (λ f, Scan.nsfw_score f = 0%Q ∧ Scan.is_nsfw f = false
                              ∧ Scan.full_probs f = ∅) rs).
  { clear -HF. induction HF as [|p r ? ? (_ & ? & ? & ? & _)]; by constructor. }
  destruct rs as [|first rest].
  { destruct frames; [done | discriminate Hlen]. }
  exists (aggregate id meta first rest). split.
  { unfold scan_video_job. destruct frames as [|f fs]; [done|].
    unfold mbind, M_bind, bind. by rewrite Hscan. }
  apply Forall_cons in Hzero as [(Hs & Hn & Hp) Hzero].
  assert (Hscores : Forall (λ f, Scan.nsfw_score f = 0%Q) (first :: rest)).
  { constructor; [done|]. eapply Forall_impl; [exact Hzero|]. by intros ? (? & _). }
  unfold aggregate. simpl.
  rewrite most_nsfw_from_all_zero;
    [|done|eapply Forall_impl; [exact Hzero|]; by intros ? (? & _)].
  split.
  { rewrite Hn. simpl. apply not_true_is_false. intros (f & Hf & Hfn)%existsb_exists.
    apply list_elem_of_In in Hf.
    destruct (proj1 (Forall_forall _ _) Hzero f Hf) as (_ & Hfalse & _). congruence. }
  split; [done|]. split.
  { apply py_round_4_zero. rewrite (score_sum_all_zero _ Hscores).
    unfold Qdiv. apply Qmult_0_l. }
  split; [done|]. split; [|done]. by rewrite <- Hlen.
Qed.

(** X11 at a concrete input: two frames and a classifier that is down. *)
Lemma classifier_failure_is_silent_in_video_verdict_witness :
  ∃ verdict,
    scan_video_job Fixtures.studio_classifier_down
      (VideoJob "1" ["/v/final/aa.jpg"; "/v/final/bb.jpg"] None) [] Fixtures.empty_world
    = (Fixtures.empty_world, Return ([] ++ [verdict]))
    ∧ is_nsfw verdict = false
    ∧ nsfw_score_max verdict = 0%Q
    ∧ (nsfw_score_avg verdict == 0)%Q
    ∧ full_probs verdict = ∅
    ∧ frame_count verdict = Z.of_nat (length ["/v/final/aa.jpg"; "/v/final/bb.jpg"])
    ∧ error verdict = None.
Proof.
  apply (classifier_failure_is_silent_in_video_verdict Fixtures.studio_classifier_down
           "1" ["/v/final/aa.jpg"; "/v/final/bb.jpg"] None [] Fixtures.empty_world
           Fixtures.empty_world (OtherError "CUDA out of memory")).
  - discriminate.
  - reflexivity.
  - reflexivity.
Defined.

End DegradedVerdictFacts.

(** ** What an images request leaves on disk *)

Module ImageCleanupFacts.
Import Pipeline CleanupFacts.

Lemma keeps_preprocess_image env round_id job acc :
  keeps_dirs (preprocess_image env round_id job acc).
Proof.
  unfold preprocess_image.
  repeat first [ apply keeps_ret | apply keeps_makedirs | apply keeps_bind; [|intros]
               | case_match ].
Qed.

Lemma keeps_scan_images env pre : keeps_dirs (scan_images env pre).
Proof.
  unfold scan_images.
  repeat first [ apply keeps_ret | apply keeps_lift | apply keeps_scan_frames
               | apply keeps_bind; [|intros] ].
Qed.

(** X12: an images request that succeeds does reach the cleanup: unless
    [rmtree] hits an OS error, no directory and no marker under the
    round directory is left, and every directory outside it that was
    there before the request is still there. *)
Theorem images_request_removes_round_directory env request w w' returned :
  type request = "images" →
  analyze_media env request w = (w', Return returned) →
  rmtree_fails env (path_join BASE_DIR (uuid4 env)) = false →
  (∀ d, d ∈ w_dirs w' → under (path_join BASE_DIR (uuid4 env)) d = false)
  ∧ (∀ d, d ∈ w_dirs w → under (path_join BASE_DIR (uuid4 env)) d = false → d ∈ w_dirs w')
  ∧ (∀ p, is_Some (w_markers w' !! p) → under (path_join BASE_DIR (uuid4 env)) p = false).
Proof.
  intros Htype Hrun Hrm. revert Hrun. unfold analyze_media. rewrite Htype.
  unfold mbind at 1. unfold M_bind, bind, lift.
  destruct (validate_input (event_of request)); [|done].
  unfold mbind at 1. unfold M_bind, bind.
  pose proof (keeps_bind _ _ (keeps_lift (validate_input
                (event_of {| type := "images"; jobs := jobs request |})))
                (λ _, keeps_for_each (preprocess_image env (uuid4 env)) (jobs request) []
                        (keeps_preprocess_image env (uuid4 env))) w) as Hk1.
  change (preprocess_media env "images" (jobs request) (uuid4 env) w)
    with ((lift (validate_input (event_of {| type := "images"; jobs := jobs request |}));;
           for_each (preprocess_image env (uuid4 env)) (jobs request) []) w).
  destruct ((lift (validate_input (event_of {| type := "images"; jobs := jobs request |}));;
             for_each (preprocess_image env (uuid4 env)) (jobs request) []) w)
    as [w1 [pre|e]]; [|done]. simpl in Hk1.
  unfold mbind at 1. unfold M_bind, bind, dispatch.
  rewrite bool_decide_eq_true_2 by done.
  unfold mbind at 1. unfold M_bind, bind.
  pose proof (keeps_scan_images env pre w1) as Hk2.
  destruct (scan_images env pre w1) as [w2 [verdicts|e]]; [|done]. simpl in Hk2.
  simpl. unfold mbind at 1. unfold M_bind, bind, rmtree. rewrite Hrm.
  intros [= <- _]. simpl. split; [|split].
  - intros d Hd. by apply elem_of_filter in Hd as [? _].
  - intros d Hd Hu. apply elem_of_filter. split; [done|]. by apply Hk2, Hk1.
  - intros p [m Hm]. by apply map_lookup_filter_Some in Hm as [_ ?].
Qed.

(** X12 at a concrete input: one image. *)
Lemma images_request_removes_round_directory_witness :
  ∃ w',
    analyze_media Fixtures.studio Fixtures.one_image Fixtures.empty_world
    = (w', Return PyNone)
    ∧ ∀ d, d ∈ w_dirs w' → under "/tmp/data/round-1" d = false.
Proof.
  destruct (analyze_media Fixtures.studio Fixtures.one_image Fixtures.empty_world)
    as [w' [[|results]|e]] eqn:E;
    pose proof E as E'; vm_compute in E'; try discriminate E'.
  destruct (images_request_removes_round_directory Fixtures.studio Fixtures.one_image
              Fixtures.empty_world w' PyNone eq_refl E eq_refl) as (H & _).
  exists w'. split; [reflexivity | exact H].
Defined.

End ImageCleanupFacts.

(** ** The order of the spike timestamps *)

Module SpikeOrderFacts.
Import Spike.

Lemma round_half_even_mono (x y : Q) :
  (x <= y)%Q → (round_half_even x ≤ round_half_even y)%Z.
Proof.
  intros Hxy. unfold round_half_even.
  pose proof (Qfloor_resp_le x y Hxy) as Hf.
  pose proof (Qfloor_le x) as Hx1. pose proof (Qlt_floor x) as Hx2.
  pose proof (Qfloor_le y) as Hy1. pose proof (Qlt_floor y) as Hy2.
  rewrite inject_Z_plus in Hx2, Hy2. change (inject_Z 1) with 1%Q in Hx2, Hy2.
  destruct (Z.eq_dec (Qfloor x) (Qfloor y)) as [E|E].
  - rewrite <- E in *.
    destruct (x - inject_Z (Qfloor x) ?= 1 # 2)%Q eqn:Ex;
      destruct (y - inject_Z (Qfloor x) ?= 1 # 2)%Q eqn:Ey;
      first [apply Qeq_alt in Ex | apply Qlt_alt in Ex | apply Qgt_alt in Ex];
      first [apply Qeq_alt in Ey | apply Qlt_alt in Ey | apply Qgt_alt in Ey];
      destruct (Z.even (Qfloor x)); first [lia | exfalso; lra].
  - destruct (x - inject_Z (Qfloor x) ?= 1 # 2)%Q;
      destruct (y - inject_Z (Qfloor y) ?= 1 # 2)%Q;
      destruct (Z.even (Qfloor x)); destruct (Z.even (Qfloor y)); lia.
Qed.

Lemma py_round_2_mono (x y : Q) : (x <= y)%Q → (py_round x 2 <= py_round y 2)%Q.
Proof.
  intros Hxy. unfold py_round. change (10 ^ Z.of_nat 2)%Z with 100%Z.
  assert (H : (x * inject_Z 100 <= y * inject_Z 100)%Q).
  { change (inject_Z 100) with (100 # 1)%Q. lra. }
  apply round_half_even_mono in H.
  unfold Qdiv. apply Qmult_le_compat_r; [by rewrite <- Zle_Qle | done].
Qed.

Lemma StronglySorted_snoc (l : list Q) x :
  StronglySorted Qle l → Forall (λ t, (t <= x)%Q) l → StronglySorted Qle (l ++ [x]).
Proof.
  intros Hs Hl. induction Hs as [|y l Hs IH Hy]; simpl.
  - repeat constructor.
  - apply Forall_cons in Hl as [Hyx Hl]. constructor; [by apply IH|].
    apply Forall_app. split; [done|]. by constructor.
Qed.

Section Loop.
Variables (fps diff_thresh suppression_window : Q) (step : Z) (total : nat).
Hypothesis window_nonnegative : (0 <= suppression_window)%Q.

Lemma body_ascending st :
  ascending total st →
  match body fps diff_thresh suppression_window step st with
  | Continue st' => ascending total st'
  | Break ts => StronglySorted Qle ts ∧ (length ts ≤ total)%nat
  | Throw _ => step = 0%Z
  end.
Proof.
  intros (Hs & Hl & Hn). unfold body.
  destruct (Z.eqb_spec step 0) as [->|Hstep]; [done|].
  destruct (negb _).
  - split; [done|]. split; [done|]. simpl.
    destruct (stream st); simpl in *; lia.
  - destruct (stream st) as [|gray rest] eqn:Es.
    + split; [done|]. lia.
    + set (ts := (inject_Z (frame_idx st) / fps)%Q).
      destruct (prev_gray st) as [prev|]; simpl;
        [|split; [done|]; split; [done|]; simpl in *; lia].
      destruct (Qltb diff_thresh (Spike.mean_absdiff gray prev)); simpl;
        [|split; [done|]; split; [done|]; simpl in *; lia].
      destruct (Qle_bool suppression_window (ts - last_spike_time st)) eqn:Ew; simpl;
        [|split; [done|]; split; [done|]; simpl in *; lia].
      apply Qle_bool_iff in Ew.
      assert (Hmono : (py_round (last_spike_time st) 2 <= py_round ts 2)%Q).
      { apply py_round_2_mono. lra. }
      assert (Hall : Forall (λ t, (t <= py_round ts 2)%Q) (timestamps st)).
      { eapply Forall_impl; [exact Hl|]. intros t Ht. simpl in Ht.
        by eapply Qle_trans. }
      split; [by apply StronglySorted_snoc|]. split.
      * apply Forall_app. split; [done|]. constructor; [apply Qle_refl | constructor].
      * simpl in *. rewrite length_app. simpl. lia.
Qed.

Lemma iterate_ascending fuel st ts :
  ascending total st →
  iterate fuel fps diff_thresh suppression_window step st = Some (Return ts) →
  StronglySorted Qle ts ∧ (length ts ≤ total)%nat.
Proof.
  revert st. induction fuel as [|fuel IH]; intros st Hst; simpl; [done|].
  pose proof (body_ascending st Hst) as Hb.
  destruct (body fps diff_thresh suppression_window step st) as [st'|ts'|e].
  - by apply IH.
  - by intros [= <-].
  - done.
Qed.

Lemma iterate_returns fuel st :
  step ≠ 0%Z →
  is_Some (iterate fuel fps diff_thresh suppression_window step st) →
  ∃ ts, iterate fuel fps diff_thresh suppression_window step st = Some (Return ts).
Proof.
  intros Hstep. revert st. induction fuel as [|fuel IH]; intros st; simpl.
  - by intros [? ?].
  - unfold body at 1 2. rewrite (proj2 (Z.eqb_neq step 0) Hstep).
    destruct (negb _); [apply IH|].
    destruct (stream st); [by eexists | apply IH].
Qed.
End Loop.

(** X13: with a suppression window that is not negative and a stride
    that is not 0, the Spike Detector returns, its timestamps ascend, and
    it reports at most one timestamp per frame of the video. *)
Theorem detector_returns_ascending_timestamps v diff_thresh sample_interval window :
  (0 <= window)%Q →
  py_int (v_fps v * sample_interval) ≠ 0%Z →
  ∃ ts,
    detect_luma_spike_timestamps v diff_thresh sample_interval window = Some (Return ts)
    ∧ StronglySorted Qle ts
    ∧ (length ts ≤ length (v_frames v))%nat.
Proof.
  intros Hw Hstep.
  pose proof (SpikeFacts.detect_terminates v diff_thresh sample_interval window) as Hsome.
  revert Hsome. unfold detect_luma_spike_timestamps.
  destruct (Qeq_bool (v_fps v) 0).
  { intros _. exists []. split; [done|]. split; [constructor | simpl; lia]. }
  destruct (v_opened v); simpl.
  2:{ intros _. exists []. split; [done|]. split; [constructor | simpl; lia]. }
  intros Hsome.
  destruct (iterate_returns _ _ _ _ _ _ Hstep Hsome) as [ts Hts].
  exists ts. split; [done|].
  eapply (iterate_ascending _ _ _ _ (length (v_frames v)) Hw); [|exact Hts].
  split; [constructor|]. split; [constructor|]. simpl. lia.
Qed.

(** X13 at a concrete input: the seven-frame clip at 30 fps. *)
Lemma detector_returns_ascending_timestamps_witness :
  ∃ ts,
    detect_luma_spike_timestamps (Fixtures.clip 30 90) 15 (1 # 10) 1 = Some (Return ts)
    ∧ StronglySorted Qle ts
    ∧ (length ts ≤ length (v_frames (Fixtures.clip 30 90)))%nat.
Proof.
  apply (detector_returns_ascending_timestamps (Fixtures.clip 30 90) 15 (1 # 10) 1).
  - discriminate.
  - vm_compute. discriminate.
Defined.

End SpikeOrderFacts.

(** ** How many frames a video yields *)

Module BoundFacts.
Import Dedup.

Lemma add_frames_loop_bound fd (d : Dir) cap names count added visited st :
  let out := frame_paths (p_state (add_frames_loop fd d cap names count added visited st)) in
  (length out ≤ length (frame_paths st) + length names)%nat
  ∧ (cap ≠ 0%Z → (length out ≤ length (frame_paths st) + Z.to_nat (cap - count))%nat).
Proof.
  revert count added visited st.
  induction names as [|n names IH]; intros count added visited st; simpl.
  - split; intros; lia.
  - destruct (Z.eqb_spec cap 0) as [Hc|Hc]; simpl.
    + assert (Hgo : ∀ c a v s, (length (frame_paths s) ≤ S (length (frame_paths st)))%nat →
                (length (frame_paths (p_state (add_frames_loop fd d cap names c a v s)))
                 ≤ length (frame_paths st) + S (length names))%nat).
      { intros c a v s Hs. destruct (IH c a v s) as [H _]. simpl in H. lia. }
      split; [|done].
      repeat case_match; apply Hgo; simpl; rewrite ?length_app; simpl; lia.
    + destruct (Z.leb_spec cap count) as [Hle|Hlt]; simpl; [split; intros; lia|].
      assert (Hgo : ∀ c a v s,
                (length (frame_paths s) + Z.to_nat (cap - c)
                 ≤ length (frame_paths st) + Z.to_nat (cap - count))%nat →
                (length (frame_paths s) ≤ S (length (frame_paths st)))%nat →
                (length (frame_paths (p_state (add_frames_loop fd d cap names c a v s)))
                 ≤ length (frame_paths st) + S (length names))%nat
                ∧ (cap ≠ 0%Z →
                   (length (frame_paths (p_state (add_frames_loop fd d cap names c a v s)))
                    ≤ length (frame_paths st) + Z.to_nat (cap - count))%nat)).
      { intros c a v s Hs1 Hs2. destruct (IH c a v s) as [H1 H2]. simpl in H1, H2.
        split; [lia|]. intros Hne. specialize (H2 Hne). lia. }
      repeat case_match; apply Hgo; simpl; rewrite ?length_app; simpl; lia.
Qed.

Lemma add_frames_bound fd (d : Dir) cap st :
  (length (frame_paths (p_state (add_frames fd d cap st)))
   ≤ length (frame_paths st)
     + if (cap =? 0)%Z then length d else min (Z.to_nat cap) (length d))%nat.
Proof.
  unfold add_frames.
  destruct (add_frames_loop_bound fd d cap (sorted_listdir d) 0 0 [] st) as [H1 H2].
  simpl in H1, H2. rewrite DedupFacts.length_sorted_listdir in H1.
  destruct (Z.eqb_spec cap 0) as [Hc|Hc]; [done|].
  specialize (H2 Hc). rewrite Z.sub_0_r in H2. lia.
Qed.

Lemma deduplicate_length fd scene fps spike max_fps :
  (length (deduplicate fd scene fps spike max_fps)
   ≤ min 250 (length scene)
     + (if (max_fps =? 0)%Z then length fps else min (Z.to_nat max_fps) (length fps))
     + min 250 (length spike))%nat.
Proof.
  unfold deduplicate, run. simpl.
  pose proof (add_frames_bound fd scene default_cap init) as H1.
  pose proof (add_frames_bound fd fps max_fps (p_state (add_frames fd scene default_cap init)))
    as H2.
  pose proof (add_frames_bound fd spike default_cap
                (p_state (add_frames fd fps max_fps
                            (p_state (add_frames fd scene default_cap init))))) as H3.
  simpl in H1, H2, H3. change (Z.to_nat default_cap) with 250%nat in H1, H3. lia.
Qed.

(** X14: the Deduplicator returns the final paths of distinct hashes,
    and no more of them than 250 scene entries, [max_fps_frames] fps
    entries (all of them when the cap is 0) and 250 spike entries allow. *)
Theorem deduplicate_is_bounded fd scene fps spike max_fps :
  ∃ hs,
    deduplicate fd scene fps spike max_fps = final_path fd <$> hs
    ∧ NoDup hs
    ∧ (length hs
       ≤ min 250 (length scene)
         + (if (max_fps =? 0)%Z then length fps else min (Z.to_nat max_fps) (length fps))
         + min 250 (length spike))%nat.
Proof.
  destruct (DedupFacts.deduplicate_no_duplicates fd scene fps spike max_fps)
    as (hs & Hout & Hnd).
  exists hs. split; [done|]. split; [done|].
  apply (f_equal length) in Hout. rewrite length_fmap in Hout. rewrite <- Hout.
  apply deduplicate_length.
Qed.

Lemma length_omap_le {A B} (f : A → option B) (l : list A) :
  (length (omap f l) ≤ length l)%nat.
Proof.
  induction l as [|x l IH]; [done|]. simpl.
  destruct (f x); simpl; [apply le_n_S | apply le_S]; exact IH.
Qed.

Lemma run_spike_frames_length v max_spike dir :
  (0 ≤ max_spike)%Z →
  Extract.run_spike_frames v max_spike = Return dir →
  (length dir ≤ Z.to_nat max_spike)%nat.
Proof.
  intros Hm. unfold Extract.run_spike_frames.
  destruct (Spike.detect_luma_spike_timestamps _ _ _ _) as [[ts|e]|];
    [|done|intros [= <-]; simpl; lia].
  intros [= <-]. etrans; [apply length_omap_le|].
  rewrite length_imap. unfold Extract.py_slice_to.
  rewrite (proj2 (Z.leb_le 0 max_spike) Hm). rewrite length_take. lia.
Qed.

Lemma extract_video_frames_length env video_path output_dir max_fps max_spike w w' frames :
  max_fps ≠ 0%Z → (0 ≤ max_spike)%Z →
  Extract.extract_video_frames env video_path output_dir max_fps max_spike w
  = (w', Return frames) →
  (length frames ≤ 250 + Z.to_nat max_fps + Z.to_nat max_spike)%nat.
Proof.
  intros Hf Hs. unfold Extract.extract_video_frames.
  unfold mbind at 1. unfold M_bind, bind, now.
  unfold mbind at 1. unfold M_bind, bind.
  destruct (Extract.make_staging output_dir w) as [w0 [[]|e]]; [|done].
  unfold mbind at 1. unfold M_bind, bind, sleep.
  unfold mbind at 1. unfold M_bind, bind, lift.
  destruct (Extract.run_strategies _ _) as [[[scene fps] spike]|e] eqn:Er; [|done].
  unfold mbind at 1. unfold M_bind, bind.
  unfold mbind at 1. unfold M_bind, bind.
  destruct (Extract.confirm_frames env _ _) as [w1 [[]|e]]; [|done].
  unfold mbind at 1. unfold M_bind, bind. simpl.
  intros [= _ <-].
  assert (Hspike : (length spike ≤ Z.to_nat max_spike)%nat).
  { revert Er. unfold Extract.run_strategies.
    destruct (v_scene _); simpl; [|done]. destruct (v_uniform _); simpl; [|done].
    destruct (Extract.run_spike_frames _ _) as [sp|] eqn:Esp; simpl; [|done].
    intros [= _ _ <-]. by eapply run_spike_frames_length. }
  etrans; [apply deduplicate_length|].
  rewrite (proj2 (Z.eqb_neq max_fps 0) Hf). lia.
Qed.

Lemma preprocess_video_frames env round_id job acc w w' out :
  Pipeline.preprocess_video env round_id job acc w = (w', Return out) →
  Forall (λ d, (length (Pipeline.frames_of d) ≤ 340)%nat) acc →
  Forall (λ d, (length (Pipeline.frames_of d) ≤ 340)%nat) out.
Proof.
  intros Hrun Hacc. revert Hrun.
  unfold Pipeline.preprocess_video. unfold mbind at 1. unfold M_bind, bind. simpl.
  assert (Hp : Forall (λ d, (length (Pipeline.frames_of d) ≤ 340)%nat)
                 (acc ++ [Pipeline.VideoJob (Pipeline.job_id job) [] None])).
  { apply Forall_app. split; [done|]. constructor; [simpl; lia | constructor]. }
  destruct (download_file env _ _ _ _) as [video_path|]; [|by intros [= _ <-]].
  destruct (_ || _); [by intros [= _ <-]|].
  destruct (negb _); [by intros [= _ <-]|].
  destruct (_ || _); [by intros [= _ <-]|].
  destruct (Qltb _ _); [by intros [= _ <-]|].
  unfold mbind at 1. unfold M_bind, bind.
  destruct (Extract.extract_video_frames _ _ _ _ _ _) as [w1 [frames|e]] eqn:Ex; [|done].
  unfold mbind at 1. unfold M_bind, bind.
  destruct (Extract.wait_for_done _ _ _) as [w2 [meta|e]]; [|done].
  intros [= _ <-]. rewrite PipelineFacts.fill_last_snoc.
  apply Forall_app. split; [done|]. constructor; [|constructor]. simpl.
  apply extract_video_frames_length in Ex; [|done|done].
  change (Z.to_nat Extract.default_max_fps_frames) with 60%nat in Ex.
  change (Z.to_nat Extract.default_max_spike_frames) with 30%nat in Ex. lia.
Qed.

(** X15: no video descriptor carries more than 340 frames: 250 scene
    candidates, 60 fps candidates and 30 spike timestamps at the most. *)
Theorem at_most_340_frames_per_video env jobs round_id w w' out :
  Pipeline.preprocess_media env "videos" jobs round_id w = (w', Return out) →
  Forall (λ d, (length (Pipeline.frames_of d) ≤ 340)%nat) out.
Proof.
  unfold Pipeline.preprocess_media. unfold mbind at 1. unfold M_bind, bind, lift.
  destruct (Pipeline.validate_input _) as [[]|]; [|done]. simpl.
  assert (Hinit : Forall (λ d, (length (Pipeline.frames_of d) ≤ 340)%nat) []) by constructor.
  revert Hinit. generalize (@nil Pipeline.Descriptor). revert w.
  induction jobs as [|job jobs IH]; intros w acc Hacc; simpl.
  - by intros [= _ <-].
  - unfold mbind, M_bind, bind.
    destruct (Pipeline.preprocess_video env round_id job acc w) as [w1 [acc1|e]] eqn:E;
      [|done].
    apply IH. by eapply preprocess_video_frames.
Qed.

(** X15 at a concrete input: one three-second video. *)
Lemma at_most_340_frames_per_video_witness :
  ∃ w' out,
    Pipeline.preprocess_media Fixtures.studio "videos" (Pipeline.jobs Fixtures.one_video)
      "round-1" Fixtures.empty_world
    = (w', Return out)
    ∧ length out = 1%nat
    ∧ Forall (λ d, (length (Pipeline.frames_of d) ≤ 340)%nat) out.
Proof.
  destruct (Pipeline.preprocess_media Fixtures.studio "videos"
              (Pipeline.jobs Fixtures.one_video) "round-1" Fixtures.empty_world)
    as [w' [out|e]] eqn:E;
    pose proof E as E'; vm_compute in E'; [|discriminate E'].
  exists w', out. split; [reflexivity|]. split.
  - injection E' as _ <-. reflexivity.
  - exact (at_most_340_frames_per_video _ _ _ _ _ _ E).
Defined.

End BoundFacts.

(** ** The Downloader *)

Module DownloadFacts.
Import Download.

Lemma body_size_zero chunks : body_size chunks = 0%Z ↔ Forall (λ c, c = 0%nat) chunks.
Proof.
  unfold body_size. induction chunks as [|c chunks IH]; simpl.
  - split; [constructor | done].
  - rewrite Forall_cons. split.
    + intros H. assert (c = 0 ∧ foldr Nat.add 0 chunks = 0)%nat as [-> Hr] by lia.
      split; [done|]. apply IH. lia.
    + intros [-> H]. apply IH in H. simpl. lia.
Qed.

(** The running check of the loop amounts to a check of the whole body. *)
Lemma receive_spec chunks total max_bytes :
  receive chunks total max_bytes = true
  ↔ body_size chunks = 0%Z ∨ (total + body_size chunks ≤ max_bytes)%Z.
Proof.
  revert total. induction chunks as [|c chunks IH]; intros total; simpl.
  - split; [by left | done].
  - destruct (Nat.eqb_spec c 0) as [->|Hc].
    + rewrite IH. unfold body_size. simpl. done.
    + destruct (Z.ltb_spec max_bytes (total + Z.of_nat c)) as [Hlt|Hle].
      * split; [done|]. unfold body_size. simpl. intros [H|H]; lia.
      * rewrite IH. unfold body_size. simpl. split.
        -- intros [H|H]; right; lia.
        -- intros [H|H]; [lia|]. right. lia.
Qed.

Lemma download_file_Some net url dest_folder filename max_bytes path :
  download_file net url dest_folder filename max_bytes = Some path
  ↔ (String.prefix "http://" url = true ∨ String.prefix "https://" url = true)
    ∧ ∃ parsed_path chunks,
        url_path net url = Return parsed_path
        ∧ http_get net url = Some chunks
        ∧ path = saved_path net dest_folder filename parsed_path
        ∧ can_open net path = true
        ∧ (body_size chunks = 0%Z ∨ (body_size chunks ≤ max_bytes)%Z).
Proof.
  unfold download_file, saved_path. split.
  - destruct (_ || _) eqn:Hs; simpl; [|done]. apply orb_true_iff in Hs.
    destruct (url_path net url) as [parsed|]; [|done].
    destruct (http_get net url) as [chunks|]; [|done].
    destruct (can_open net _) eqn:Ho; simpl; [|done].
    destruct (receive chunks 0 max_bytes) eqn:Hr; [|done].
    intros [= <-]. split; [done|]. exists parsed, chunks.
    apply receive_spec in Hr. rewrite Z.add_0_l in Hr. done.
  - intros (Hs & parsed & chunks & -> & -> & -> & Ho & Hsize).
    rewrite (proj2 (orb_true_iff _ _) Hs). simpl. rewrite Ho. simpl.
    by rewrite (proj2 (receive_spec chunks 0 max_bytes)) by (by rewrite Z.add_0_l).
Qed.

(** X16: [download_file] returns a path exactly when the URL starts with
    [http://] or [https://], its path parses, the request succeeds, the
    local file opens and the body is empty or no larger than
    [max_bytes]; the path is then the destination folder joined with the
    given file name (a fresh uuid without one) and the chosen extension. *)
Theorem download_keeps_file_iff net url dest_folder filename max_bytes path :
  download_file net url dest_folder filename max_bytes = Some path
  ↔ (String.prefix "http://" url = true ∨ String.prefix "https://" url = true)
    ∧ ∃ parsed_path chunks,
        url_path net url = Return parsed_path
        ∧ http_get net url = Some chunks
        ∧ path = saved_path net dest_folder filename parsed_path
        ∧ can_open net path = true
        ∧ (body_size chunks = 0%Z ∨ (body_size chunks ≤ max_bytes)%Z).
Proof. apply download_file_Some. Qed.

(** *** The extension of a saved file *)

Lemma append_assoc (a b c : string) : (a +:+ b) +:+ c = a +:+ (b +:+ c).
Proof.
  induction a as [|x a IH]; [done|].
  change (String x a +:+ b) with (String x (a +:+ b)).
  change (String x (a +:+ b) +:+ c) with (String x ((a +:+ b) +:+ c)).
  change (String x a +:+ (b +:+ c)) with (String x (a +:+ (b +:+ c))).
  by rewrite IH.
Qed.

Lemma basename_go_plain t cur : plain t = true → basename_go t cur = cur +:+ t.
Proof.
  revert cur. induction t as [|c t IH]; intros cur; simpl.
  - intros _. clear. induction cur as [|x cur IH]; [done|].
    change (String x cur +:+ "") with (String x (cur +:+ "")). by rewrite <- IH.
  - intros H. apply andb_true_iff in H as [H Ht]. apply andb_true_iff in H as [_ Hs].
    apply negb_true_iff in Hs. rewrite Hs. rewrite IH by done.
    by rewrite append_assoc.
Qed.

Lemma basename_go_dotted s ext cur :
  dotted ext = true → basename_go (s +:+ ext) cur = basename_go s cur +:+ ext.
Proof.
  destruct ext as [|d body]; [done|]. simpl. intros H.
  apply andb_true_iff in H as [Hd Hb]. apply bool_decide_eq_true in Hd as ->.
  revert cur. induction s as [|c s IH]; intros cur.
  - change ("" +:+ String "." body) with (String "."%char body). simpl.
    rewrite basename_go_plain by done. by rewrite append_assoc.
  - change (String c s +:+ String "." body) with (String c (s +:+ String "." body)).
    simpl. case_bool_decide; apply IH.
Qed.

Lemma splitext_ext_plain t seen : plain t = true → splitext_ext t seen = "".
Proof.
  revert seen. induction t as [|c t IH]; intros seen; simpl; [done|].
  intros H. apply andb_true_iff in H as [H Ht]. apply andb_true_iff in H as [Hd _].
  apply negb_true_iff in Hd. rewrite Hd. by apply IH.
Qed.

Lemma splitext_ext_seen b body :
  plain body = true → splitext_ext (b +:+ String "." body) true = String "." body.
Proof.
  intros Hb. induction b as [|c b IH].
  - change ("" +:+ String "." body) with (String "."%char body). simpl.
    by rewrite splitext_ext_plain.
  - change (String c b +:+ String "." body) with (String c (b +:+ String "." body)).
    simpl. rewrite IH. by case_bool_decide.
Qed.

Lemma splitext_ext_dotted b ext seen :
  dotted ext = true →
  splitext_ext (b +:+ ext) seen = ext ∨ splitext_ext (b +:+ ext) seen = "".
Proof.
  destruct ext as [|d body]; [done|]. simpl. intros H.
  apply andb_true_iff in H as [Hd Hb]. apply bool_decide_eq_true in Hd as ->.
  destruct seen; [left; by apply splitext_ext_seen|].
  induction b as [|c b IH].
  - change ("" +:+ String "." body) with (String "."%char body). simpl.
    right. by apply splitext_ext_plain.
  - change (String c b +:+ String "." body) with (String c (b +:+ String "." body)).
    simpl. case_bool_decide; [done|]. left. by apply splitext_ext_seen.
Qed.

(** A file name that ends in an extension has that extension or, when
    only dots precede it, none. *)
Lemma extension_dotted s ext :
  dotted ext = true → extension (s +:+ ext) = ext ∨ extension (s +:+ ext) = "".
Proof.
  intros H. unfold extension, basename. rewrite basename_go_dotted by done.
  by apply splitext_ext_dotted.
Qed.

Lemma path_join_suffix a name ext : ∃ s, path_join a (name +:+ ext) = s +:+ ext.
Proof.
  unfold path_join. destruct (starts_with_sep _); [by eexists|].
  destruct (_ || _).
  - exists (a +:+ name). by rewrite append_assoc.
  - exists (a +:+ "/" +:+ name). by rewrite !append_assoc.
Qed.

Lemma chosen_extension_dotted parsed : dotted (chosen_extension parsed) = true.
Proof.
  unfold chosen_extension. case_bool_decide as H; [|done].
  revert H. generalize (lower (extension parsed)). intros ext H.
  rewrite !elem_of_app in H. unfold ALLOWED_VIDEO_EXTENSIONS, ALLOWED_IMAGE_EXTENSIONS in H.
  rewrite !elem_of_cons, !elem_of_nil in H.
  destruct H as [H|H]; repeat destruct H as [->|H]; done.
Qed.

(** Where the extension of the saved file comes from: when it is one of
    [exts], all of them allowed, it is the lower-cased extension of the
    URL's path. *)
Lemma saved_extension net dest filename parsed exts :
  exts ⊆ ALLOWED_VIDEO_EXTENSIONS ++ ALLOWED_IMAGE_EXTENSIONS →
  lower (extension (saved_path net dest filename parsed)) ∈ exts →
  lower (extension parsed) ∈ exts.
Proof.
  intros Hexts. unfold saved_path.
  assert (∃ name, local_filename net filename (chosen_extension parsed)
                  = name +:+ chosen_extension parsed) as [name ->].
  { unfold local_filename. destruct filename; [case_bool_decide|]; by eexists. }
  destruct (path_join_suffix dest name (chosen_extension parsed)) as [s ->].
  destruct (extension_dotted s _ (chosen_extension_dotted parsed)) as [->| ->].
  - unfold chosen_extension. case_bool_decide as Hin.
    + assert (Hl : lower (lower (extension parsed)) = lower (extension parsed)).
      { revert Hin. generalize (lower (extension parsed)). intros ext.
        rewrite !elem_of_app. unfold ALLOWED_VIDEO_EXTENSIONS, ALLOWED_IMAGE_EXTENSIONS.
        rewrite !elem_of_cons, !elem_of_nil.
        intros [H|H]; repeat destruct H as [->|H]; done. }
      by rewrite Hl.
    + intros H. apply Hexts in H. exfalso. revert H. clear.
      rewrite !elem_of_app. unfold ALLOWED_VIDEO_EXTENSIONS, ALLOWED_IMAGE_EXTENSIONS.
      rewrite !elem_of_cons, !elem_of_nil. simpl.
      intros [H|H]; repeat (destruct H as [H|H]; [discriminate H|]); done.
  - intros H. apply Hexts in H. exfalso. revert H. clear.
    rewrite !elem_of_app. unfold ALLOWED_VIDEO_EXTENSIONS, ALLOWED_IMAGE_EXTENSIONS.
    rewrite !elem_of_cons, !elem_of_nil. simpl.
      intros [H|H]; repeat (destruct H as [H|H]; [discriminate H|]); done.
Qed.

(** X16 at a concrete input: nine bytes against a limit of ten. *)
Lemma download_keeps_file_iff_witness :
  download_file Fixtures.wire "http://example.com/tiny.jpg" "/d" (Some "1") 10
  = Some "/d/1.jpg".
Proof.
  apply (download_keeps_file_iff Fixtures.wire "http://example.com/tiny.jpg" "/d"
           (Some "1") 10 "/d/1.jpg").
  split; [left; reflexivity|].
  exists "/tiny.jpg", [4; 0; 5]%nat.
  split; [reflexivity|]. split; [reflexivity|]. split; [reflexivity|].
  split; [reflexivity|]. right. vm_compute. discriminate.
Defined.

End DownloadFacts.

(** ** The Downloader inside preprocessing *)

Module IntakeFacts.
Import Pipeline.

Lemma download_fetched net job dest filename max_bytes exts path :
  (0 ≤ max_bytes)%Z →
  exts ⊆ Download.ALLOWED_VIDEO_EXTENSIONS ++ Download.ALLOWED_IMAGE_EXTENSIONS →
  Download.download_file net (url job) dest filename max_bytes = Some path →
  allowed exts path = true →
  fetched net exts max_bytes job.
Proof.
  intros Hmax Hexts Hd Ha.
  apply DownloadFacts.download_file_Some in Hd
    as (Hs & parsed & chunks & Hp & Hg & -> & _ & Hsize).
  split; [done|]. exists parsed, chunks. split; [done|]. split; [done|].
  split; [destruct Hsize; lia|].
  apply bool_decide_eq_true in Ha. by eapply DownloadFacts.saved_extension.
Qed.

Lemma preprocess_image_fetched net env round_id job acc w w' out :
  preprocess_image (with_downloader net env) round_id job acc w = (w', Return out) →
  out = acc
  ∨ ∃ d, out = acc ++ [d]
         ∧ (descriptor_id d = job_id job ∧ fetched net ALLOWED_IMAGE_EXTENSIONS 10 job).
Proof.
  unfold preprocess_image. unfold mbind at 1. unfold M_bind, bind. simpl.
  destruct (Download.download_file net _ _ _ _) as [path|] eqn:Hd;
    [|intros [= _ <-]; by left].
  destruct (bool_decide (path = "")); simpl; [intros [= _ <-]; by left|].
  destruct (allowed ALLOWED_IMAGE_EXTENSIONS path) eqn:Ha; simpl;
    [|intros [= _ <-]; by left].
  intros [= _ <-]. right. eexists. split; [done|]. split; [done|].
  eapply download_fetched; [done| |exact Hd|exact Ha].
  intros x Hx. apply elem_of_app. by right.
Qed.

Lemma preprocess_video_fetched net env round_id job acc w w' out :
  preprocess_video (with_downloader net env) round_id job acc w = (w', Return out) →
  out = acc
  ∨ ∃ d, out = acc ++ [d]
         ∧ (descriptor_id d = job_id job
            ∧ fetched net ALLOWED_VIDEO_EXTENSIONS (100 * 1024 * 1024) job).
Proof.
  unfold preprocess_video. unfold mbind at 1. unfold M_bind, bind. simpl.
  destruct (Download.download_file net _ _ _ _) as [path|] eqn:Hd;
    [|intros [= _ <-]; by left].
  destruct (bool_decide (path = "")); simpl; [intros [= _ <-]; by left|].
  destruct (allowed ALLOWED_VIDEO_EXTENSIONS path) eqn:Ha; simpl;
    [|intros [= _ <-]; by left].
  assert (Hf : fetched net ALLOWED_VIDEO_EXTENSIONS (100 * 1024 * 1024) job).
  { eapply download_fetched; [done| |exact Hd|exact Ha].
    intros x Hx. apply elem_of_app. by left. }
  destruct (negb _); [intros [= _ <-]; right; by eexists|].
  destruct (_ || _); [intros [= _ <-]; right; by eexists|].
  destruct (Qltb _ _); [intros [= _ <-]; right; by eexists|].
  unfold mbind at 1. unfold M_bind, bind.
  destruct (Extract.extract_video_frames _ _ _ _ _ _) as [w1 [frames|e]]; [|done].
  unfold mbind at 1. unfold M_bind, bind.
  destruct (Extract.wait_for_done _ _ _) as [w2 [meta|e]]; [|done].
  intros [= _ <-]. rewrite PipelineFacts.fill_last_snoc. right. by eexists.
Qed.

Lemma Forall2_ids {P : Job → Prop} kept (out : list Descriptor) :
  Forall2 (λ job d, descriptor_id d = job_id job ∧ P job) kept out →
  descriptor_id <$> out = job_id <$> kept ∧ Forall P kept.
Proof.
  induction 1 as [|job d kept out [Hid HP] _ [IH1 IH2]]; simpl; [done|].
  split; [by f_equal | by constructor].
Qed.

(** X17: with this downloader the size limit of an image is ten bytes:
    [MAX_IMAGE_SIZE_MB = 10] is handed over as [max_bytes]. Every image
    job that is kept was fetched from an http(s) URL whose path has an
    allowed image extension, with a body of at most 10 bytes. *)
Theorem image_size_limit_is_ten_bytes net env jobs round_id w w' out :
  preprocess_media (with_downloader net env) "images" jobs round_id w = (w', Return out) →
  ∃ kept,
    kept `sublist_of` jobs
    ∧ descriptor_id <$> out = job_id <$> kept
    ∧ Forall (fetched net ALLOWED_IMAGE_EXTENSIONS 10) kept.
Proof.
  unfold preprocess_media. unfold mbind at 1. unfold M_bind, bind, lift.
  destruct (validate_input _) as [[]|]; [|done]. simpl. intros Hrun.
  eapply RequestFacts.for_each_selects in Hrun as (kept & added & -> & Hsub & HF);
    [|apply preprocess_image_fetched].
  exists kept. split; [done|]. simpl. by apply Forall2_ids.
Qed.

(** X18: with this downloader every video job that is kept, frames or
    not, was fetched from an http(s) URL whose path has an allowed video
    extension, with a body of at most 100 MiB. *)
Theorem video_is_fetched_by_extension net env jobs round_id w w' out :
  preprocess_media (with_downloader net env) "videos" jobs round_id w = (w', Return out) →
  ∃ kept,
    kept `sublist_of` jobs
    ∧ descriptor_id <$> out = job_id <$> kept
    ∧ Forall (fetched net ALLOWED_VIDEO_EXTENSIONS (100 * 1024 * 1024)) kept.
Proof.
  unfold preprocess_media. unfold mbind at 1. unfold M_bind, bind, lift.
  destruct (validate_input _) as [[]|]; [|done]. simpl. intros Hrun.
  eapply RequestFacts.for_each_selects in Hrun as (kept & added & -> & Hsub & HF);
    [|apply preprocess_video_fetched].
  exists kept. split; [done|]. simpl. by apply Forall2_ids.
Qed.

(** X17 at a concrete input: a nine-byte image is kept, one of 100 bytes
    is dropped. *)
Lemma image_size_limit_is_ten_bytes_witness :
  ∃ w' kept,
    preprocess_media (with_downloader Fixtures.wire Fixtures.studio) "images"
      Fixtures.tiny_and_big "round-1" Fixtures.empty_world
    = (w', Return [ImageJob "1" "/tmp/data/round-1/images/1.jpg"])
    ∧ kept `sublist_of` Fixtures.tiny_and_big
    ∧ job_id <$> kept = ["1"]
    ∧ Forall (fetched Fixtures.wire ALLOWED_IMAGE_EXTENSIONS 10) kept.
Proof.
  destruct (preprocess_media (with_downloader Fixtures.wire Fixtures.studio) "images"
              Fixtures.tiny_and_big "round-1" Fixtures.empty_world)
    as [w' [out|e]] eqn:E;
    pose proof E as E'; vm_compute in E'; [|discriminate E'].
  injection E' as _ <-.
  destruct (image_size_limit_is_ten_bytes _ _ _ _ _ _ _ E) as (kept & Hsub & Hids & HF).
  exists w', kept. split; [reflexivity|]. split; [exact Hsub|].
  split; [symmetry; exact Hids | exact HF].
Defined.

(** X18 at a concrete input: the same video over ftp and over https. *)
Lemma video_is_fetched_by_extension_witness :
  ∃ w' out kept,
    preprocess_media (with_downloader Fixtures.wire Fixtures.studio) "videos"
      Fixtures.web_and_ftp "round-1" Fixtures.empty_world
    = (w', Return out)
    ∧ descriptor_id <$> out = ["2"]
    ∧ kept `sublist_of` Fixtures.web_and_ftp
    ∧ job_id <$> kept = ["2"]
    ∧ Forall (fetched Fixtures.wire ALLOWED_VIDEO_EXTENSIONS (100 * 1024 * 1024)) kept.
Proof.
  destruct (preprocess_media (with_downloader Fixtures.wire Fixtures.studio) "videos"
              Fixtures.web_and_ftp "round-1" Fixtures.empty_world)
    as [w' [out|e]] eqn:E;
    pose proof E as E'; vm_compute in E'; [|discriminate E'].
  destruct (video_is_fetched_by_extension _ _ _ _ _ _ _ E) as (kept & Hsub & Hids & HF).
  assert (Hout : descriptor_id <$> out = ["2"]) by (injection E' as _ <-; reflexivity).
  exists w', out, kept. split; [reflexivity|]. split; [exact Hout|].
  split; [exact Hsub|]. split; [by rewrite <- Hids | exact HF].
Defined.

End IntakeFacts.

(** ** The video Verdicts of a request *)

Module VideoVerdictFacts.
Import Pipeline.

(** What one iteration of the loop over the preprocessed jobs does. *)
Lemma scan_video_job_step env d video_results w w' out :
  scan_video_job env d video_results w = (w', Return out) →
  (frames_of d = [] ∧ out = video_results)
  ∨ (frames_of d ≠ []
     ∧ ∃ first rest,
         Scan.scan_frames env "videos" (frames_of d) w = (w', Return (first :: rest))
         ∧ out = video_results ++ [aggregate (descriptor_id d) (metadata_of d) first rest]).
Proof.
  unfold scan_video_job.
  change (match d with VideoJob _ fs _ => fs | ImageJob _ _ => [] end) with (frames_of d).
  change (match d with VideoJob _ _ m => m | ImageJob _ _ => None end) with (metadata_of d).
  destruct (frames_of d) as [|p ps] eqn:Ef; [intros [= _ <-]; by left|].
  unfold mbind, M_bind, bind.
  destruct (Scan.scan_frames env "videos" (p :: ps) w) as [w1 [rs|e]] eqn:Es; [|done].
  pose proof (PipelineFacts.scan_frames_in_order _ _ _ _ _ _ Es) as Hlen.
  apply Forall2_length in Hlen.
  destruct rs as [|first rest]; [discriminate Hlen|].
  intros [= <- <-]. right. split; [done|]. by eexists _, _.
Qed.

Lemma scan_video_jobs_select env pre video_results w w' out :
  for_each (scan_video_job env) pre video_results w = (w', Return out) →
  ∃ added,
    out = video_results ++ added
    ∧ Forall2 (λ d v, ∃ first rest,
                 v = aggregate (descriptor_id d) (metadata_of d) first rest
                 ∧ length (first :: rest) = length (frames_of d)
                 ∧ Forall Scan.flag_matches_score (first :: rest))
        (filter (λ d, frames_of d ≠ []) pre) added.
Proof.
  revert video_results w. induction pre as [|d pre IH]; intros vs w; simpl.
  - intros [= _ <-]. exists []. by rewrite app_nil_r.
  - unfold mbind, M_bind, bind.
    destruct (scan_video_job env d vs w) as [w1 [vs1|e]] eqn:E; [|done].
    intros (added & -> & HF)%IH.
    apply scan_video_job_step in E as [[He ->]|(Hne & first & rest & Hs & ->)].
    + exists added. split; [done|]. by rewrite filter_cons_False by (by intros []).
    + exists (aggregate (descriptor_id d) (metadata_of d) first rest :: added).
      rewrite <- app_assoc. split; [done|]. rewrite filter_cons_True by done.
      constructor; [|done]. exists first, rest. split; [done|]. split.
      * pose proof (PipelineFacts.scan_frames_in_order _ _ _ _ _ _ Hs) as Hl.
        apply Forall2_length in Hl. symmetry. exact Hl.
      * eapply ScanFacts.scan_frames_flags, Hs.
Qed.

(** X19: the video Verdicts are those of the preprocessed jobs that have
    frames, one each and in their order; a job without frames gets none.
    A Verdict counts every frame of its job, is named after the
    downloaded file, or after the job id when the job has no metadata,
    and carries no error. *)
Theorem video_verdicts_follow_descriptors env pre w w' out :
  for_each (scan_video_job env) pre [] w = (w', Return out) →
  Forall2 (λ d v,
             frame_count v = Z.of_nat (length (frames_of d))
             ∧ filename v = default (descriptor_id d) (m_original_filename <$> metadata_of d)
             ∧ error v = None)
    (filter (λ d, frames_of d ≠ []) pre) out.
Proof.
  intros (added & -> & HF)%scan_video_jobs_select. simpl.
  eapply Forall2_impl; [exact HF|].
  intros d v (first & rest & -> & Hlen & _). simpl. split; [|done].
  simpl in Hlen. by rewrite Hlen.
Qed.

(** The flag of an aggregate repeats what its maximum says. *)
Lemma aggregate_flag id meta first rest :
  Forall Scan.flag_matches_score (first :: rest) →
  is_nsfw (aggregate id meta first rest)
  = Qltb Scan.nsfw_threshold (nsfw_score_max (aggregate id meta first rest)).
Proof.
  intros Hflags. unfold aggregate. cbn [is_nsfw nsfw_score_max].
  destruct (AggregateFacts.most_nsfw_from_spec rest [first] first 0) as (i & Hi & Hmax & _).
  { split; [done|]. split; [|intros; lia].
    intros g ->%list_elem_of_singleton. apply Qle_refl. }
  change ([first] ++ rest) with (first :: rest) in *.
  set (best := most_nsfw_from first rest) in *.
  assert (Hbest : best ∈ first :: rest) by (by eapply list_elem_of_lookup_2).
  destruct (existsb Scan.is_nsfw (first :: rest)) eqn:Ex.
  - apply existsb_exists in Ex as (f & Hf%list_elem_of_In & Hfn).
    symmetry. apply ScanFacts.Qltb_lt.
    rewrite (proj1 (Forall_forall _ _) Hflags f Hf) in Hfn.
    apply ScanFacts.Qltb_lt in Hfn. eapply Qlt_le_trans; [exact Hfn | by apply Hmax].
  - rewrite <- (proj1 (Forall_forall _ _) Hflags best Hbest).
    symmetry. apply not_true_is_false. intros Hb.
    assert (existsb Scan.is_nsfw (first :: rest) = true); [|congruence].
    apply existsb_exists. exists best. split; [by apply list_elem_of_In | done].
Qed.

(** X20: a video Verdict is flagged exactly when its maximum frame score
    exceeds 0.5. *)
Theorem verdict_flag_agrees_with_maximum env pre w w' out :
  for_each (scan_video_job env) pre [] w = (w', Return out) →
  Forall (λ v, is_nsfw v = Qltb Scan.nsfw_threshold (nsfw_score_max v)) out.
Proof.
  intros (added & -> & HF)%scan_video_jobs_select. simpl.
  induction HF as [|d v ds vs (first & rest & -> & _ & Hflags) _ IH]; constructor; [|done].
  by apply aggregate_flag.
Qed.

(** X21: a failed presence check is fatal for the whole request: when
    the scan of one job's frames raises, the handler answers with that
    error, and the Verdicts of the jobs scanned before it are lost. *)
Theorem missing_frames_fail_the_request env request w w1 w2 w3 pre1 d pre2 verdicts e :
  type request = "videos" →
  preprocess_media env "videos" (jobs request) (uuid4 env) w
  = (w1, Return (pre1 ++ d :: pre2)) →
  for_each (scan_video_job env) pre1 [] w1 = (w2, Return verdicts) →
  frames_of d ≠ [] →
  Scan.scan_frames env "videos" (frames_of d) w2 = (w3, Raise e) →
  handler env request w = (w3, Error (exn_str e)).
Proof.
  intros Ht Hpre Hscan Hne Hraise.
  unfold handler, analyze_media. rewrite Ht.
  assert (Hv : validate_input (event_of request) = Return tt).
  { revert Hpre. unfold preprocess_media. unfold mbind at 1. unfold M_bind, bind, lift.
    destruct request as [ty js]. simpl in *. subst ty.
    by destruct (validate_input _) as [[]|]. }
  unfold mbind at 1. unfold M_bind, bind, lift. rewrite Hv.
  unfold mbind at 1. unfold M_bind, bind. rewrite Hpre.
  unfold mbind at 1. unfold M_bind, bind, dispatch. simpl.
  unfold mbind at 1. unfold M_bind, bind.
  rewrite PipelineFacts.for_each_app, Hscan. simpl.
  unfold mbind at 1. unfold M_bind, bind.
  assert (Hjob : scan_video_job env d verdicts w2 = (w3, Raise e)).
  { unfold scan_video_job.
    change (match d with VideoJob _ fs _ => fs | ImageJob _ _ => [] end) with (frames_of d).
    destruct (frames_of d) as [|p ps]; [done|].
    unfold mbind, M_bind, bind. by rewrite Hraise. }
  by rewrite Hjob.
Qed.

(** X19 at a concrete input: the job without frames gets no Verdict. *)
Lemma video_verdicts_follow_descriptors_witness :
  ∃ out,
    for_each (scan_video_job Fixtures.studio) Fixtures.rejected_then_scanned []
      Fixtures.empty_world
    = (Fixtures.empty_world, Return out)
    ∧ Forall2 (λ d v,
                 frame_count v = Z.of_nat (length (frames_of d))
                 ∧ filename v
                   = default (descriptor_id d) (m_original_filename <$> metadata_of d)
                 ∧ error v = None)
        [VideoJob "2" ["/v/final/aa.jpg"; "/v/final/bb.jpg"] None] out.
Proof.
  destruct (for_each (scan_video_job Fixtures.studio) Fixtures.rejected_then_scanned []
              Fixtures.empty_world) as [w' [out|e]] eqn:E;
    pose proof E as E'; vm_compute in E'; [|discriminate E'].
  injection E' as <- _.
  exists out. split; [reflexivity|].
  exact (video_verdicts_follow_descriptors _ _ _ _ _ E).
Defined.

(** X20 at a concrete input: frame scores 0.1 and 0.9, flagged. *)
Lemma verdict_flag_agrees_with_maximum_witness :
  ∃ v,
    for_each (scan_video_job Fixtures.studio) Fixtures.rejected_then_scanned []
      Fixtures.empty_world
    = (Fixtures.empty_world, Return [v])
    ∧ nsfw_score_max v = 9 # 10
    ∧ is_nsfw v = Qltb Scan.nsfw_threshold (nsfw_score_max v).
Proof.
  destruct (for_each (scan_video_job Fixtures.studio) Fixtures.rejected_then_scanned []
              Fixtures.empty_world) as [w' [[|v [|v' out]]|e]] eqn:E;
    pose proof E as E'; vm_compute in E'; try discriminate E'.
  pose proof (verdict_flag_agrees_with_maximum _ _ _ _ _ E) as H.
  apply Forall_cons in H as [H _].
  exists v. injection E' as <- Hv. split; [reflexivity|]. split; [|exact H].
  rewrite <- Hv. reflexivity.
Defined.

(** X21 at a concrete input: the frames of the first of two videos are
    gone when they are to be scanned. *)
Lemma missing_frames_fail_the_request_witness :
  ∃ w' msg,
    handler Fixtures.studio_evicting_disk Fixtures.two_videos Fixtures.empty_world
    = (w', Error msg)
    ∧ String.prefix "[ERROR] Final frames missing: " msg = true.
Proof.
  destruct (preprocess_media Fixtures.studio_evicting_disk "videos"
              (jobs Fixtures.two_videos) "round-1" Fixtures.empty_world)
    as [w1 [[|d pre2]|e]] eqn:Epre;
    pose proof Epre as E'; vm_compute in E'; try discriminate E'.
  assert (Hd : frames_of d ≠ []).
  { injection E' as _ <- _. discriminate. }
  destruct (Scan.scan_frames Fixtures.studio_evicting_disk "videos" (frames_of d) w1)
    as [w3 [rs|e]] eqn:Es.
  { exfalso. injection E' as <- <- _. vm_compute in Es. discriminate Es. }
  assert (He : String.prefix "[ERROR] Final frames missing: " (exn_str e) = true).
  { injection E' as <- <- _. vm_compute in Es. injection Es as _ <-. reflexivity. }
  exists w3, (exn_str e). split; [|exact He].
  apply (missing_frames_fail_the_request Fixtures.studio_evicting_disk Fixtures.two_videos
           Fixtures.empty_world w1 w1 w3 [] d pre2 [] e).
  - reflexivity.
  - exact Epre.
  - reflexivity.
  - exact Hd.
  - exact Es.
Defined.

End VideoVerdictFacts.
